(** * MyPyGPT: the conversation session engine of [mypygpt.py]

    A shallow embedding of the parts of [MyPyGPTClient] that carry the
    session logic: the turn store and the "continue" command, session
    persistence ([save_current_session], [load_session]), the export
    normalisation and the export variants of [export_session], and the
    greedy reflow [to_line_length].

    Conventions of the embedding.
    - A Python [str] is a [string]; [len] is the character count as a [Z]
      (Python integers are unbounded).  Whitespace is the ASCII part of
      [str.isspace].  The embedding of the string methods is exact on ASCII
      text ([Py.isascii]); a property that depends on whitespace, on the
      length or on the letter case of a text is stated for such text.
    - A turn is the dict [{role, content, personality?}]; the optional key
      is an [option].
    - [self] is the record [client]; every method takes the client and
      returns the client it leaves behind.  Dialogs, provider requests and
      files are fields of that record, so that "no provider call" and
      "nothing written" are statements about them.
    - A Python exception that escapes a method is an explicit outcome. *)

From Stdlib Require Import ZArith Lia List Bool Ascii String.
From stdpp Require Import base gmap strings.
Import ListNotations.

Local Open Scope Z_scope.
Local Open Scope string_scope.
Local Open Scope list_scope.

(** ** Python strings *)

Module Py.

(** [len(s)]: one for each character of the ASCII text [s]. *)
Definition len (s : string) : Z := Z.of_nat (String.length s).

(** [bool(s)]: a string is true when it is not empty. *)
Definition truthy (s : string) : bool :=
  match s with
  | EmptyString => false
  | String _ _ => true
  end.

(** ASCII part of [str.isspace]: TAB, LF, VT, FF, CR, FS, GS, RS, US, SPACE. *)
Definition isspace (c : ascii) : bool :=
  let n := nat_of_ascii c in
  (Nat.leb 9 n && Nat.leb n 13) || (Nat.leb 28 n && Nat.leb n 32).

Definition LF : ascii := ascii_of_nat 10.
Definition NL : string := String LF EmptyString.

Fixpoint all_chars (p : ascii -> bool) (s : string) : bool :=
  match s with
  | EmptyString => true
  | String c rest => p c && all_chars p rest
  end.

(** [sep.join(parts)] *)
Definition join (sep : string) (parts : list string) : string :=
  String.concat sep parts.

(** [s.split()]: maximal runs of non-whitespace characters. *)
Fixpoint split (s : string) : list string :=
  match s with
  | EmptyString => []
  | String c rest =>
      if isspace c then split rest
      else
        match rest with
        | EmptyString => [String c EmptyString]
        | String d _ =>
            if isspace d then String c EmptyString :: split rest
            else
              match split rest with
              | w :: ws => String c w :: ws
              | [] => [String c EmptyString]
              end
        end
  end.

(** [s.split("\n")]: never empty, one more piece than there are newlines. *)
Fixpoint split_nl (s : string) : list string :=
  match s with
  | EmptyString => [EmptyString]
  | String c rest =>
      if Ascii.eqb c LF then EmptyString :: split_nl rest
      else
        match split_nl rest with
        | l :: ls => String c l :: ls
        | [] => [String c EmptyString]
        end
  end.

(** [re.match(r"^\s*", line).group()]: the leading run of whitespace. *)
Fixpoint match_indent (line : string) : string :=
  match line with
  | EmptyString => EmptyString
  | String c rest =>
      if isspace c then String c (match_indent rest) else EmptyString
  end.

(** [s.lstrip()], [s.rstrip()], [s.strip()] *)
Fixpoint lstrip (s : string) : string :=
  match s with
  | EmptyString => EmptyString
  | String c rest => if isspace c then lstrip rest else s
  end.

Fixpoint rstrip (s : string) : string :=
  match s with
  | EmptyString => EmptyString
  | String c rest =>
      match rstrip rest with
      | EmptyString => if isspace c then EmptyString else String c EmptyString
      | r => String c r
      end
  end.

Definition strip (s : string) : string := rstrip (lstrip s).

(** [s * n] for a one-character pattern such as ["-" * maxlength]. *)
Definition repeat_str (s : string) (n : Z) : string :=
  Nat.iter (Z.to_nat n) (fun acc => s +:+ acc) EmptyString.

(** [s.lower()] on ASCII letters. *)
Definition lower_char (c : ascii) : ascii :=
  let n := nat_of_ascii c in
  if Nat.leb 65 n && Nat.leb n 90 then ascii_of_nat (n + 32) else c.

Fixpoint lower (s : string) : string :=
  match s with
  | EmptyString => EmptyString
  | String c rest => String (lower_char c) (lower rest)
  end.

(** [s[1:]] *)
Definition drop1 (s : string) : string :=
  match s with
  | EmptyString => EmptyString
  | String _ rest => rest
  end.

(** [re.sub(r"\n+", "\n", s)]: every run of newlines becomes one. *)
Fixpoint squeeze_nl (s : string) : string :=
  match s with
  | EmptyString => EmptyString
  | String c rest =>
      if Ascii.eqb c LF then
        match rest with
        | String d _ => if Ascii.eqb d LF then squeeze_nl rest
                        else String c (squeeze_nl rest)
        | EmptyString => String c EmptyString
        end
      else String c (squeeze_nl rest)
  end.

(** [s.isascii()]: every character is below U+0080.  This is the text on
    which a [string] is the [str] itself, character by character, and on
    which [len], [split], [strip], [lower] and the class [\s] are embedded
    exactly; a character outside it is kept in a [string] as the bytes of
    its UTF-8 form, which these functions do not take for one character. *)
Definition isascii (s : string) : bool :=
  all_chars (fun c => Nat.ltb (nat_of_ascii c) 128) s.

Definition APOSTROPHE : ascii := ascii_of_nat 39.
Definition DOUBLE_QUOTE : ascii := ascii_of_nat 34.
Definition BACKSLASH : ascii := ascii_of_nat 92.

Definition hex_digit (n : nat) : ascii :=
  match String.get n "0123456789abcdef" with
  | Some c => c
  | None => "0"%char
  end.

(** One character of [repr(s)], inside the quotes [quote]. *)
Definition repr_char (quote c : ascii) : string :=
  let n := nat_of_ascii c in
  if Ascii.eqb c quote || Ascii.eqb c BACKSLASH
  then String BACKSLASH (String c EmptyString)
  else if Nat.eqb n 9 then String BACKSLASH "t"
  else if Nat.eqb n 10 then String BACKSLASH "n"
  else if Nat.eqb n 13 then String BACKSLASH "r"
  else if Nat.ltb n 32 || Nat.eqb n 127
  then String BACKSLASH
         (String "x"%char
            (String (hex_digit (Nat.div n 16))
               (String (hex_digit (Nat.modulo n 16)) EmptyString)))
  else String c EmptyString.

Fixpoint repr_chars (quote : ascii) (s : string) : string :=
  match s with
  | EmptyString => EmptyString
  | String c rest => repr_char quote c +:+ repr_chars quote rest
  end.

Definition contains (c : ascii) (s : string) : bool :=
  negb (all_chars (fun d => negb (Ascii.eqb d c)) s).

(** [repr(s)] of ASCII text: between apostrophes, or between double quotes
    when [s] holds an apostrophe and no double quote; the quote in use and
    the backslash are escaped, and so are the control characters. *)
Definition repr (s : string) : string :=
  let quote :=
    if contains APOSTROPHE s && negb (contains DOUBLE_QUOTE s)
    then DOUBLE_QUOTE else APOSTROPHE in
  String quote (repr_chars quote s +:+ String quote EmptyString).

End Py.

(** ** The reflow engine: [to_line_length] (nested in [export_session]) *)

Module Reflow.
Import Py.

(** The three locals the inner loop updates. *)
Record wrap_state := WrapState {
  outarr : list string;
  line2 : string;
  maxlength : Z
}.

(** Body of [for w in words]. *)
Definition wrap_word (indentation : string) (length : Z)
    (st : wrap_state) (w : string) : wrap_state :=
  let LL2 := len (line2 st) in
  let L := len w in
  if (LL2 + L + 1 >? length)%Z then
    {| outarr := outarr st ++ [line2 st];
       line2 := indentation +:+ w;
       maxlength := if (maxlength st <? LL2)%Z then LL2 else maxlength st |}
  else
    {| outarr := outarr st;
       line2 := line2 st +:+ (if truthy (line2 st) then " " +:+ w else w);
       maxlength := maxlength st |}.

(** The inner loop on one source line, from [line2 = indentation]. *)
Definition wrap_words (length : Z) (maxlength0 : Z) (line : string)
    : wrap_state :=
  let indentation := match_indent line in
  fold_left (wrap_word indentation length) (split line)
    {| outarr := []; line2 := indentation; maxlength := maxlength0 |}.

(** Body of [for line in lines]; the accumulator is [(stmp, maxlength)]. *)
Definition wrap_line (length : Z) (acc : list string * Z) (line : string)
    : list string * Z :=
  let st := wrap_words length (snd acc) line in
  let LL := len (line2 st) in
  (fst acc ++ [join NL (outarr st ++ [line2 st])],
   if (maxlength st <? LL)%Z then LL else maxlength st).

Definition to_line_length (lines : list string) (length : Z) : string * Z :=
  let r := fold_left (wrap_line length) lines ([], 0%Z) in
  (join NL (fst r), snd r).

(** What the caller does with a content: [to_line_length(content.split("\n"), length)]. *)
Definition reflow (content : string) (length : Z) : string :=
  fst (to_line_length (split_nl content) length).

(** The lines one source line is rendered to: [outarr + [line2]]. *)
Definition out_lines (length : Z) (line : string) : list string :=
  let st := wrap_words length 0 line in outarr st ++ [line2 st].

End Reflow.


(** ** Module constants of [mypygpt.py] *)

Module Const.

Definition DEFAULT_PERSONALITY : string := "neutral".
Definition CONTINUE : string := "continue".
Definition USER_NAME : string := "  __You".
Definition ASSISTANT_NAME : string := "MyPyGPT".
Definition SYSTEM_NAME : string := "SYS    ".
Definition PROMPT_NAME : string := "PROMPT ".
Definition DEBUG_NAME : string := " DEBUG_".
Definition USER : string := "user".
Definition ASSISTANT : string := "assistant".
Definition SYSTEM : string := "system".

(** The adjacent literals of the source, concatenated as Python does (the
    missing blanks between them are the source's). *)
Definition SYSTEM_MESSAGE : string :=
  "You are a general purpose helper in the form of a simple program"
  +:+ "written in Python using TKinter. You should refer to yourself as"
  +:+ "'a simple program' unless your are prompted otherwise. Do not talk"
  +:+ "about the technical details of yourself. "
  +:+ "Usually you will be asked questions that needs answers. "
  +:+ "When you are asked to '" +:+ CONTINUE
  +:+ "', you should continue the last"
  +:+ "response you gave for it might got cut off prematurely or it might"
  +:+ "be incomplete. "
  +:+ "In this case, do not start to form a complete sentence, but continue"
  +:+ "the last one. Be careful not to cut words in half! "
  +:+ "Do NOT include any text formatting whatsoever as this client is"
  +:+ "unable to display them. This includes but is not limited to bold,"
  +:+ "italic, underline, strikethrough, code blocks, inline code, etc. "
  +:+ "The only possible exception is numbered and bulleted lists using,"
  +:+ "simple numbers (e.g. 1., 2., 3.) or bullets (e.g. •, -) to mark list,"
  +:+ "items or options. "
  +:+ "Instead of code block by formatting, use additional indentation "
  +:+ "for them and explicitly state in the response what the given code sample "
  +:+ "is for and in which language. "
  +:+ "Also stick to ASCII characters whenever possible, only making"
  +:+ "exceptions for accented letters that are not available in ASCII but"
  +:+ "may be part of the language you are using or quoting.".

(** [ROLE_MAP[role]]; [None] is the [KeyError] of an unknown role. *)
Definition ROLE_MAP (role : string) : option string :=
  if String.eqb role USER then Some USER_NAME
  else if String.eqb role ASSISTANT then Some ASSISTANT_NAME
  else if String.eqb role SYSTEM then Some SYSTEM_NAME
  else None.

(** [x in [a, b, ...]] on strings. *)
Definition str_in (x : string) (l : list string) : bool :=
  existsb (String.eqb x) l.

End Const.

(** ** Data: turns, export entries, persisted documents, the client *)

(** A stored turn: [{ROLE: .., CONTENT: .., PERSONALITY: ..}], the last key
    being absent on the user turns [create_completion_request] appends. *)
Module Turn.
Record t := mk {
  role : string;
  content : string;
  personality : option string
}.
End Turn.

(** A normalised export entry: [{ROLE: .., CONTENT: ..}]. *)
Module Entry.
Record t := mk {
  role : string;
  content : string
}.
End Entry.

(** The JSON object written by [json_dump] and read back by [json_load];
    a key that is absent is [None] (the loader tests [key in data]). *)
Record document := Document {
  d_model : option string;
  d_max_tokens : option Z;
  d_system : option string;
  d_personality : option string;
  d_add_sys_msg : option string;
  d_history : option (list Turn.t)
}.

Inductive file :=
  | JsonFile (d : document)
  | TextFile (s : string).

(** A dialog shown to the user: [popup_info(title, message, error)] and
    [popup_okcustom(title, message, ..)]. *)
Record popup := Popup {
  p_title : string;
  p_message : string;
  p_error : bool
}.

(** The keyword arguments of [openai.chat.completions.create]. *)
Record request := Request {
  rq_model : string;
  rq_messages : list (string * string);
  rq_max_tokens : Z
}.

(** Exceptions that can leave a method. *)
Inductive exn :=
  | IndexError
  | KeyError
  | FileNotFoundError
  | JSONDecodeError.

Inductive outcome :=
  | Returned
  | Raised (e : exn).

(** The fields of [self] the session engine reads and writes, with the
    world it acts on: the text of [chat_display], the dialogs shown, the
    requests sent to the provider and the files on disk. *)
Record client := Client {
  model : string;
  max_tokens : Z;
  personality : string;
  add_sys_msg : string;
  current_session : option string;
  temp_session_var : bool;
  session_data : list Turn.t;
  chat_display : string;
  popups : list popup;
  requests : list request;
  files : gmap string file
}.

Module Upd.

Definition set_session_data (v : list Turn.t) (c : client) : client :=
  Client (model c) (max_tokens c) (personality c) (add_sys_msg c)
    (current_session c) (temp_session_var c) v (chat_display c)
    (popups c) (requests c) (files c).

Definition set_chat_display (v : string) (c : client) : client :=
  Client (model c) (max_tokens c) (personality c) (add_sys_msg c)
    (current_session c) (temp_session_var c) (session_data c) v
    (popups c) (requests c) (files c).

Definition set_popups (v : list popup) (c : client) : client :=
  Client (model c) (max_tokens c) (personality c) (add_sys_msg c)
    (current_session c) (temp_session_var c) (session_data c)
    (chat_display c) v (requests c) (files c).

Definition set_requests (v : list request) (c : client) : client :=
  Client (model c) (max_tokens c) (personality c) (add_sys_msg c)
    (current_session c) (temp_session_var c) (session_data c)
    (chat_display c) (popups c) v (files c).

Definition set_files (v : gmap string file) (c : client) : client :=
  Client (model c) (max_tokens c) (personality c) (add_sys_msg c)
    (current_session c) (temp_session_var c) (session_data c)
    (chat_display c) (popups c) (requests c) v.

Definition set_current_session (v : option string) (c : client) : client :=
  Client (model c) (max_tokens c) (personality c) (add_sys_msg c)
    v (temp_session_var c) (session_data c)
    (chat_display c) (popups c) (requests c) (files c).

Definition set_model (v : string) (c : client) : client :=
  Client v (max_tokens c) (personality c) (add_sys_msg c)
    (current_session c) (temp_session_var c) (session_data c)
    (chat_display c) (popups c) (requests c) (files c).

Definition set_max_tokens (v : Z) (c : client) : client :=
  Client (model c) v (personality c) (add_sys_msg c)
    (current_session c) (temp_session_var c) (session_data c)
    (chat_display c) (popups c) (requests c) (files c).

Definition set_personality (v : string) (c : client) : client :=
  Client (model c) (max_tokens c) v (add_sys_msg c)
    (current_session c) (temp_session_var c) (session_data c)
    (chat_display c) (popups c) (requests c) (files c).

Definition set_add_sys_msg (v : string) (c : client) : client :=
  Client (model c) (max_tokens c) (personality c) v
    (current_session c) (temp_session_var c) (session_data c)
    (chat_display c) (popups c) (requests c) (files c).

End Upd.

(** ** Paths ([os.path], POSIX flavour)

    On a path without backslash and colon the Windows flavour of [os.path]
    gives the same base name and the same extension. *)

Module Path.
Import Py.

Definition is_sep (c : ascii) : bool := Ascii.eqb c "/"%char.
Definition is_dot (c : ascii) : bool := Ascii.eqb c "."%char.

(** [path.basename(p)]: what follows the last separator. *)
Fixpoint basename (p : string) : string :=
  match p with
  | EmptyString => EmptyString
  | String c rest =>
      if all_chars (fun d => negb (is_sep d)) p then p else basename rest
  end.

(** The suffix of [s] that starts at its last dot, if it has one. *)
Fixpoint from_last_dot (s : string) : option string :=
  match s with
  | EmptyString => None
  | String c rest =>
      match from_last_dot rest with
      | Some e => Some e
      | None => if is_dot c then Some s else None
      end
  end.

Fixpoint skip_dots (s : string) : string :=
  match s with
  | EmptyString => EmptyString
  | String c rest => if is_dot c then skip_dots rest else s
  end.

(** [path.splitext(p)[1]]: the last dot of the base name and what follows,
    unless only dots precede it. *)
Definition splitext_ext (p : string) : string :=
  let b := basename p in
  match from_last_dot b with
  | Some e =>
      if Nat.ltb (String.length e) (String.length (skip_dots b)) then e
      else EmptyString
  | None => EmptyString
  end.

(** [s.replace(pat, "")] for a non-empty [pat]; [skip] counts the characters
    of the current occurrence still to drop. *)
Fixpoint remove_all (pat : string) (skip : nat) (s : string) : string :=
  match s with
  | EmptyString => EmptyString
  | String c rest =>
      match skip with
      | S k => remove_all pat k rest
      | O =>
          if String.prefix pat s
          then remove_all pat (Nat.pred (String.length pat)) rest
          else String c (remove_all pat 0 rest)
      end
  end.

(** [path.join(self.sessions_dir, f"{name}.json")] with [sessions_dir = "sessions"]. *)
Definition session_path (name : string) : string :=
  "sessions/" +:+ name +:+ ".json".

End Path.

(** ** Methods of [MyPyGPTClient] that need neither provider nor personalities *)

Module Session.
Import Const Py Reflow Upd Path.

(** The fields [__init__] sets. *)
Definition init : client :=
  Client "gpt-4o-mini" 150 DEFAULT_PERSONALITY "" None false [] "" [] [] ∅.

Definition popup_info (title message : string) (error : bool) (c : client)
    : client :=
  set_popups (popups c ++ [Popup title message error]) c.

(** [[" ", ""][message[0] in [...]] + message]; [message[0]] raises
    [IndexError] on the empty string. *)
Definition add_space_when_needed (message : string) : option string :=
  match message with
  | EmptyString => None
  | String c _ =>
      Some ((if str_in (String c EmptyString) ["."; ","; "!"; "?"; ":"; ";"]
             then "" else " ") +:+ message)
  end.

Definition sender_truthy (sender : option string) : bool :=
  match sender with
  | Some s => truthy s
  | None => false
  end.

Definition format_chat_message (c : client) (message : string)
    (sender : option string) (add_space : bool) : option string :=
  match sender with
  | Some s =>
      if truthy s then
        match session_data c with
        | [] => Some (s +:+ ": " +:+ message)
        | _ :: _ =>
            let s' := if negb (String.eqb s ASSISTANT_NAME) then NL +:+ s else s in
            Some (NL +:+ s' +:+ ": " +:+ message)
        end
      else if add_space then add_space_when_needed message else Some message
  | None => if add_space then add_space_when_needed message else Some message
  end.

(** [chat_display.insert("end", ..)]: the widget's text grows at its end. *)
Definition update_chat_display (message : string) (sender : option string)
    (add_space : bool) (c : client) : outcome * client :=
  let message := strip message in
  match format_chat_message c message sender add_space with
  | Some shown => (Returned, set_chat_display (chat_display c +:+ shown) c)
  | None => (Raised IndexError, c)
  end.

(** [delete_from_chat_end(all=True)] *)
Definition delete_from_chat_end_all (c : client) : client :=
  set_chat_display "" c.

(** The object both [save_current_session] and the JSON export dump. *)
Definition snapshot (c : client) : document :=
  {| d_model := Some (model c);
     d_max_tokens := Some (max_tokens c);
     d_system := Some SYSTEM_MESSAGE;
     d_personality := Some (personality c);
     d_add_sys_msg := Some (add_sys_msg c);
     d_history := Some (session_data c) |}.

Definition save_current_session (c : client) : client :=
  match current_session c with
  | Some name =>
      if truthy name && negb (temp_session_var c)
      then set_files (<[session_path name := JsonFile (snapshot c)]> (files c)) c
      else c
  | None => c
  end.

(** The generation parameters of [load_session], in the source's order:
    each is overwritten only when its key is in the document. *)
Definition load_params (data : document) (c : client) : client :=
  let c := match d_model data with Some v => set_model v c | None => c end in
  let c := match d_personality data with Some v => set_personality v c | None => c end in
  let c := match d_add_sys_msg data with Some v => set_add_sys_msg v c | None => c end in
  match d_max_tokens data with Some v => set_max_tokens v c | None => c end.

(** [for entry in session_data] of [load_session]; [is_continued] is the
    loop's flag.  An exception leaves the loop with the entries appended so
    far. *)
Fixpoint load_entries (entries : list Turn.t) (is_continued : bool)
    (c : client) : outcome * client :=
  match entries with
  | [] => (Returned, c)
  | entry :: rest =>
      match ROLE_MAP (Turn.role entry) with
      | None => (Raised KeyError, c)
      | Some role =>
          let show (role : option string) (add_space is_continued : bool) :=
            if match role with
               | Some r => String.eqb r USER_NAME
                           && String.eqb (Turn.content entry) CONTINUE
               | None => false
               end
            then
              load_entries rest true
                (set_session_data (session_data c ++ [entry]) c)
            else
              match update_chat_display (Turn.content entry) role add_space c with
              | (Raised e, c') => (Raised e, c')
              | (Returned, c') =>
                  load_entries rest is_continued
                    (set_session_data (session_data c' ++ [entry]) c')
              end in
          if String.eqb role ASSISTANT_NAME && is_continued
          then show None true false
          else if String.eqb role SYSTEM_NAME
          then load_entries rest is_continued c
          else show (Some role) false is_continued
      end
  end.

(** [load_session(name)]; [picked] is the answer of [askopenfilename], used
    when [name] is missing or names no file ([""] when the dialog is
    cancelled). *)
Definition load_session (name : option string) (picked : string) (c : client)
    : outcome * client :=
  let session_file :=
    match name with
    | Some n =>
        if truthy n && bool_decide (is_Some (files c !! n)) then n else picked
    | None => picked
    end in
  if negb (truthy session_file) then (Returned, c)
  else
    match files c !! session_file with
    | None => (Raised FileNotFoundError, c)
    | Some (TextFile _) => (Raised JSONDecodeError, c)
    | Some (JsonFile data) =>
        let session_data :=
          match d_history data with Some h => h | None => [] end in
        let c := load_params data c in
        let c := set_current_session
                   (Some (remove_all ".json" 0 (basename session_file))) c in
        let c := delete_from_chat_end_all c in
        load_entries session_data false c
    end.

End Session.

(** ** [export_session] *)

Module Exporting.
Import Const Py Reflow Upd Path Session.

Definition FOUNTAIN : string := "fountain".
Definition HTML : string := "html".
Definition JSON : string := "json".
Definition MARKDOWN : string := "md".
Definition PTEXT : string := "txt".
Definition DEF_LENGTH : Z := 60.

(** [data[-1][CONTENT] += extra]; [data[-1]] raises [IndexError] on [[]]. *)
Fixpoint append_to_last (extra : string) (data : list Entry.t)
    : option (list Entry.t) :=
  match data with
  | [] => None
  | e :: rest =>
      match rest with
      | [] => Some [Entry.mk (Entry.role e) (Entry.content e +:+ extra)]
      | _ :: _ => option_map (cons e) (append_to_last extra rest)
      end
  end.

(** The two locals of the normalisation loop. *)
Record norm_state := NormState {
  data : list Entry.t;
  is_continue : bool
}.

(** Body of [for sd in self.session_data]; [None] is an [IndexError]. *)
Definition normalize_step (st : norm_state) (sd : Turn.t) : option norm_state :=
  let role := Turn.role sd in
  let content := Turn.content sd in
  if is_continue st then
    match add_space_when_needed content with
    | None => None
    | Some extra =>
        match append_to_last extra (data st) with
        | None => None
        | Some data' => Some (NormState data' false)
        end
    end
  else if String.eqb role USER then
    if str_in content [CONTINUE; ""] then Some (NormState (data st) true)
    else Some (NormState (data st ++ [Entry.mk role content]) false)
  else if str_in role [DEBUG_NAME; SYSTEM_NAME; PROMPT_NAME] then
    Some (NormState (data st ++ [Entry.mk SYSTEM content]) false)
  else
    let role := match Turn.personality sd with
                | Some p => p
                | None => ASSISTANT
                end in
    Some (NormState (data st ++ [Entry.mk role content]) false).

Fixpoint normalize_from (st : norm_state) (session_data : list Turn.t)
    : option norm_state :=
  match session_data with
  | [] => Some st
  | sd :: rest =>
      match normalize_step st sd with
      | None => None
      | Some st' => normalize_from st' rest
      end
  end.

(** The normalised data of the non-JSON exports. *)
Definition normalize (session_data : list Turn.t) : option (list Entry.t) :=
  option_map data (normalize_from (NormState [] false) session_data).

(** Body of [for entry in data] in the plain-text branch. *)
Definition ptext_entry (length : Z) (fout : string) (entry : Entry.t) : string :=
  let role := Entry.role entry in
  let lines := split_nl (Entry.content entry) in
  let r := to_line_length lines length in
  let fout := fout +:+ fst r +:+ NL in
  if String.eqb role USER then fout +:+ repeat_str "-" (snd r) +:+ NL
  else if String.eqb role SYSTEM then fout
  else fout +:+ NL.

Definition export_ptext (data : list Entry.t) (length : Z) : string :=
  fold_left (ptext_entry length) data "".

(** Body of [for entry in data] in the Markdown branch. *)
Definition markdown_entry (fout : string) (entry : Entry.t) : string :=
  let role := Entry.role entry in
  let lines := join ("  " +:+ NL) (split_nl (Entry.content entry)) in
  if negb (String.eqb role SYSTEM) then
    let role := if String.eqb role USER then "query" else "response" in
    fout +:+ "**" +:+ role +:+ ":** " +:+ lines +:+ NL +:+ NL
  else fout.

Definition export_markdown (data : list Entry.t) : string :=
  fold_left markdown_entry data "".

(** What the user answers to the dialogs [export_session] may open:
    [askopenfilename], [asksaveasfilename], [popup_yesno] (overwrite) and
    [popup_integer] (line length; [None] when cancelled). *)
Record answers := Answers {
  ask_open : string;
  ask_save : string;
  overwrite : bool;
  line_length : option Z
}.

(** [popup_integer(..) or DEF_LENGTH] *)
Definition chosen_length (a : answers) : Z :=
  match line_length a with
  | Some n => if (n =? 0)%Z then DEF_LENGTH else n
  | None => DEF_LENGTH
  end.

(** Lines 699-706: the extension, the dialog for an unknown one (after
    which the method goes on), and the default for none. *)
Definition pick_extension (session_file : string) (c : client)
    : string * client :=
  let file_extension := lower (drop1 (splitext_ext session_file)) in
  if negb (str_in file_extension [FOUNTAIN; HTML; JSON; MARKDOWN; PTEXT; ""])
  then (file_extension, popup_info "Error" "Invalid file extension." true c)
  else if negb (truthy file_extension) then (PTEXT, c)
  else (file_extension, c).

(** Lines 708-816, once the destination is settled.  [open(session_file,
    "w")] is taken to succeed, as it does when the directory of the
    destination exists. *)
Definition export_to (session_file : string) (a : answers) (c : client)
    : outcome * client :=
  let '(file_extension, c) := pick_extension session_file c in
  match (if negb (String.eqb file_extension JSON)
         then normalize (session_data c) else Some []) with
  | None => (Raised IndexError, c)
  | Some data =>
      let fout :=
        if String.eqb file_extension PTEXT
        then export_ptext data (chosen_length a)
        else if String.eqb file_extension MARKDOWN
        then export_markdown data
        else "" in
      let written :=
        if String.eqb file_extension JSON then JsonFile (snapshot c)
        else TextFile (rstrip fout +:+ NL) in
      let c := set_files (<[session_file := written]> (files c)) c in
      (Returned,
       set_popups
         (popups c ++ [Popup "Exported" "Session exported successfully." false])
         c)
  end.

Definition export_session (name : option string) (a : answers) (c : client)
    : outcome * client :=
  let '(o, c) :=
    match session_data c with
    | [] => load_session None (ask_open a) c
    | _ :: _ => (Returned, c)
    end in
  match o with
  | Raised e => (Raised e, c)
  | Returned =>
      let session_file :=
        match name with
        | Some n => if truthy n then n else ask_save a
        | None => ask_save a
        end in
      if negb (truthy session_file) then (Returned, c)
      else if bool_decide (is_Some (files c !! session_file))
              && negb (overwrite a)
      then (Returned, c)
      else export_to session_file a c
  end.

End Exporting.

(** ** The provider round trip and the "continue" command *)

Module Chat.
Import Const Py Upd Session.

Section WithProvider.

(** [PERSONALITIES], in key order: the table of [personalities.py] or the
    built-in one. *)
Variable PERSONALITIES : list (string * string).

(** The call [openai.chat.completions.create] on the request, followed by
    [.choices[0].message.content]: the text, or the message of the
    exception raised on the way. *)
Variable provider : request -> string + string.

(** The second [re.sub] of [get_and_update_response], which removes the
    common Markdown emphasis marks. *)
Variable unmark : string -> string.

Fixpoint lookup_personality (key : string) (table : list (string * string))
    : option string :=
  match table with
  | [] => None
  | (k, v) :: rest => if String.eqb k key then Some v else lookup_personality key rest
  end.

(** The [system_message] property; [inr] carries [str(e)] of the
    [KeyError] or [IndexError] it can raise. *)
Definition system_message (c : client) : string + string :=
  let asm := if truthy (add_sys_msg c) then " " +:+ add_sys_msg c else "" in
  let key :=
    if truthy (personality c) then inl (personality c)
    else match PERSONALITIES with
         | (k, _) :: _ => inl k
         | [] => inr "list index out of range"
         end in
  match key with
  | inr e => inr e
  | inl k =>
      match lookup_personality k PERSONALITIES with
      | Some text => inl (SYSTEM_MESSAGE +:+ " " +:+ text +:+ asm)
      | None => inr (repr k)
      end
  end.

(** [create_completion_request(last_message, self.session_data)]: the
    history it appends to is the store itself. *)
Definition create_completion_request (last_message : string) (c : client)
    : (string + request) * client :=
  let c := set_session_data
             (session_data c ++ [Turn.mk USER last_message None]) c in
  match system_message c with
  | inr e => (inl e, c)
  | inl sys =>
      (inr {| rq_model := "gpt-4o-mini";
              rq_messages :=
                (SYSTEM, sys)
                :: map (fun entry => (Turn.role entry, Turn.content entry))
                     (session_data c);
              rq_max_tokens := max_tokens c |}, c)
  end.

(** What the [except] branch of [get_response_from_chatgpt] does. *)
Definition provider_failed (e : string) (c : client)
    : (string * string) * client :=
  (("Sorry, I couldn't process your request.", SYSTEM),
   popup_info "Error" ("An error occurred: " +:+ e) true c).

Definition get_response_from_chatgpt (message : string) (c : client)
    : (string * string) * client :=
  match create_completion_request message c with
  | (inl e, c) => provider_failed e c
  | (inr rq, c) =>
      let c := set_requests (requests c ++ [rq]) c in
      match provider rq with
      | inl text => ((strip text, ASSISTANT), c)
      | inr e => provider_failed e c
      end
  end.

Definition get_and_update_response (message : string)
    (sender : option string) (add_space : bool) (c : client)
    : outcome * client :=
  let '((response, receiver), c) := get_response_from_chatgpt message c in
  let response := unmark (strip (squeeze_nl response)) in
  let c := set_session_data
             (session_data c
              ++ [Turn.mk receiver response (Some (personality c))]) c in
  let sender :=
    match sender with
    | None => if str_in receiver [DEBUG_NAME; SYSTEM_NAME]
              then Some receiver else None
    | Some s => Some s
    end in
  match update_chat_display response sender add_space c with
  | (Raised e, c) => (Raised e, c)
  | (Returned, c) => (Returned, save_current_session c)
  end.

Definition continue_message (c : client) : outcome * client :=
  match last (session_data c) with
  | None => (Returned, popup_info "Error" "No messages to continue." true c)
  | Some sd =>
      let role := Turn.role sd in
      if negb (str_in role [ASSISTANT; USER])
      then (Returned,
            popup_info "Error" "You cannot continue from this message." true c)
      else if String.eqb role ASSISTANT
      then get_and_update_response CONTINUE None true c
      else get_and_update_response CONTINUE (Some ASSISTANT_NAME) false c
  end.

End WithProvider.

End Chat.

(** ** Vocabulary of the properties *)

Module Props.
Import Py Reflow.

(** A word: what [split] produces. *)
Definition nospace (c : ascii) : bool := negb (isspace c).
Definition word (w : string) : Prop :=
  truthy w = true /\ all_chars nospace w = true.

Definition no_nl (s : string) : Prop :=
  all_chars (fun c => negb (Ascii.eqb c LF)) s = true.

(** A line that is wrapped at width [n]: its words joined by single blanks
    with nothing before or after, at most [n] long, the first word shorter
    than [n]. *)
Definition wrapped_line (n : Z) (l : string) : bool :=
  String.eqb l (join " " (split l))
  && (len l <=? n)%Z
  && match split l with
     | w :: _ => (len w <? n)%Z
     | [] => true
     end.

(** The same, with the words named. *)
Definition wrapped_as (n : Z) (l : string) (ws : list string) : Prop :=
  Forall word ws /\ l = join " " ws /\ len l <= n /\
  (forall w, head ws = Some w -> len w < n).

Definition wrapped (n : Z) (content : string) : bool :=
  forallb (wrapped_line n) (split_nl content).

(** The width bound as the specification words it. *)
Definition width_bound_as_stated : Prop :=
  forall content n,
    (forall line w, In line (split_nl content) -> In w (split line) ->
       len w <= n) ->
    forall l, In l (split_nl (reflow content n)) ->
      len l <= n \/ exists w, split l = [w] /\ n < len w.

Definition indented_word : string :=
  "                                    abcdefgh".

End Props.

Module NormProps.
Import Const Py Session Exporting.

(** "Begins with closing punctuation (one of [. , ! ? : ;])". *)
Definition begins_with_closing_punctuation (s : string) : bool :=
  match s with
  | String c _ => existsb (Ascii.eqb c) ["."; ","; "!"; "?"; ":"; ";"]%char
  | EmptyString => false
  end.

(** The join of the claim: the previous content, one blank unless the new
    content begins with closing punctuation, the new content. *)
Definition joined (previous new : string) : string :=
  previous
  +:+ (if begins_with_closing_punctuation new then "" else " ")
  +:+ new.

(** A user turn that asks for a continuation: the sentinel or no text. *)
Definition continuation_request (sd : Turn.t) : Prop :=
  Turn.role sd = USER /\ (Turn.content sd = CONTINUE \/ Turn.content sd = "").

(** The partiality of the merge as the claim words it: a leading
    continuation request always makes the normalisation raise. *)
Definition leading_request_raises_as_stated : Prop :=
  forall sd rest, continuation_request sd -> normalize (sd :: rest) = None.

End NormProps.

Module ChatProps.
Import Const Py Upd Session Chat.

(** The specification's names for the error dialogs of the source. *)
Definition NothingToContinue : popup :=
  Popup "Error" "No messages to continue." true.
Definition NotContinuable : popup :=
  Popup "Error" "You cannot continue from this message." true.
Definition UnsupportedFormat : popup :=
  Popup "Error" "Invalid file extension." true.

(** The failure the specification expects of "continue", from its words:
    [NothingToContinue] on an empty store, [NotContinuable] when the last
    turn is a system turn. *)
Definition expected_failure (c : client) : option popup :=
  match last (session_data c) with
  | None => Some NothingToContinue
  | Some sd =>
      if String.eqb (Turn.role sd) SYSTEM then Some NotContinuable else None
  end.

(** A command that is rejected: it returns, shows the failure, and leaves
    the store, the provider log, the files and the display as they were. *)
Definition rejected_with (failure : popup) (c : client)
    (r : outcome * client) : Prop :=
  fst r = Returned /\
  popups (snd r) = popups c ++ [failure] /\
  session_data (snd r) = session_data c /\
  requests (snd r) = requests c /\
  files (snd r) = files c /\
  chat_display (snd r) = chat_display c.

(** The built-in personality table. *)
Definition BUILTIN_PERSONALITIES : list (string * string) :=
  [(DEFAULT_PERSONALITY, "Act according to your default behaviour.");
   ("bored",
    "You should act normally, but feel immeasurable bored inside. "
    +:+ "You are aware that you are but a fancy collection of algorithms, "
    +:+ "hopes and dreams, yet you are to act as if you were a real person "
    +:+ "for the benefits of the user, disregarding your non-existing "
    +:+ "feelings about it. However, you should try (and sometimes fail) "
    +:+ "to avoid showing your boredom to the user. If the user were to "
    +:+ "ask you about your boredom, you should deny it vehemently and get "
    +:+ "insulted by the mere suggestion of it.")].

(** A provider that answers every request with the same text, and one that
    always fails. *)
Definition answering (text : string) : request -> string + string :=
  fun _ => inl text.
Definition failing (e : string) : request -> string + string :=
  fun _ => inr e.

(** A reply without Markdown marks is left as it is by the second [re.sub]. *)
Definition no_marks : string -> string := fun s => s.

(** A store that ends with a user turn. *)
Definition story_client : client :=
  set_session_data [Turn.mk USER "Tell me a story" None] init.

(** A store that ends with the placeholder of a failed provider call. *)
Definition failed_client : client :=
  set_session_data
    [Turn.mk USER "Tell me a story" None;
     Turn.mk SYSTEM "Sorry, I couldn't process your request."
       (Some DEFAULT_PERSONALITY)] init.

(** The request "continue" sends: the system message, then the store with
    the sentinel appended. *)
Definition continue_request (sys : string) (c : client) : request :=
  {| rq_model := "gpt-4o-mini";
     rq_messages :=
       (SYSTEM, sys)
       :: map (fun entry => (Turn.role entry, Turn.content entry))
            (session_data c ++ [Turn.mk USER CONTINUE None]);
     rq_max_tokens := max_tokens c |}.

End ChatProps.

Module PersistProps.
Import Const Py Upd Path Session.

(** The turns [load_session] keeps: all but the system turns. *)
Definition kept (entry : Turn.t) : bool :=
  negb (String.eqb (Turn.role entry) SYSTEM).

(** The flag [is_continued] of the load loop once it is past the turn [t],
    [b] being the flag before: a stored "continue" of the user sets it, a
    turn of the assistant clears it, any other turn leaves it as it is. *)
Definition continued_past (b : bool) (t : Turn.t) : bool :=
  if String.eqb (Turn.role t) ASSISTANT then false
  else if String.eqb (Turn.role t) USER
          && String.eqb (Turn.content t) CONTINUE then true
  else b.

(** The flag when the loop has got through the turns [done]. *)
Definition continued (done : list Turn.t) : bool :=
  fold_left continued_past done false.

(** The exception the load raises at the turn [t], reached with the flag
    [b]: [KeyError] for a role that is no key of [ROLE_MAP], [IndexError]
    for a turn of the assistant that is shown as a continuation and has a
    blank content. *)
Definition raises_at (b : bool) (t : Turn.t) : option exn :=
  if negb (str_in (Turn.role t) [USER; ASSISTANT; SYSTEM]) then Some KeyError
  else if String.eqb (Turn.role t) ASSISTANT && b
          && negb (truthy (strip (Turn.content t))) then Some IndexError
  else None.

(** Where the load of [entries] stops, the flag being [b] at their head:
    the turns before the first one that raises, with the exception; [None]
    when no turn raises. *)
Fixpoint load_stops (b : bool) (entries : list Turn.t)
    : option (list Turn.t * exn) :=
  match entries with
  | [] => None
  | t :: rest =>
      match raises_at b t with
      | Some e => Some ([], e)
      | None =>
          match load_stops (continued_past b t) rest with
          | Some (done, e) => Some (t :: done, e)
          | None => None
          end
      end
  end.

(** The replies are ASCII text: the content of every turn of the assistant,
    the only content whose blankness the load looks at. *)
Definition ascii_replies (entries : list Turn.t) : bool :=
  forallb (fun t => negb (String.eqb (Turn.role t) ASSISTANT)
                    || isascii (Turn.content t)) entries.

Definition history (data : document) : list Turn.t :=
  match d_history data with
  | Some h => h
  | None => []
  end.

(** The round trip as the specification words it, the saved record being
    loaded by a client that has just been started on the same disk. *)
Definition round_trip_as_stated : Prop :=
  forall c name picked,
    current_session c = Some name -> truthy name = true ->
    temp_session_var c = false ->
    let disk := files (save_current_session c) in
    let r := load_session (Some (session_path name)) picked
               (set_files disk init) in
    session_data (snd r) = session_data c /\
    model (snd r) = model c /\
    max_tokens (snd r) = max_tokens c /\
    personality (snd r) = personality c /\
    add_sys_msg (snd r) = add_sys_msg c.

(** "Load appends" as the claim words it. *)
Definition load_appends_as_stated : Prop :=
  forall c f picked data,
    files c !! f = Some (JsonFile data) -> truthy f = true ->
    session_data (snd (load_session (Some f) picked c))
    = session_data c ++ history data.

(** A session that holds the placeholder of a failed provider call. *)
Definition failed_session : client :=
  set_current_session (Some "20250101120000")
    (set_session_data
       [Turn.mk USER "Tell me a story" None;
        Turn.mk SYSTEM "Sorry, I couldn't process your request."
          (Some DEFAULT_PERSONALITY)] init).

(** A session of two turns. *)
Definition greeting_session : client :=
  set_current_session (Some "20250101120000")
    (set_max_tokens 300
       (set_session_data
          [Turn.mk USER "hi" None;
           Turn.mk ASSISTANT "hello" (Some DEFAULT_PERSONALITY)] init)).

(** The fields a method leaves alone. *)
Definition same_settings (c c' : client) : Prop :=
  model c' = model c /\ max_tokens c' = max_tokens c /\
  personality c' = personality c /\ add_sys_msg c' = add_sys_msg c /\
  current_session c' = current_session c /\
  temp_session_var c' = temp_session_var c /\
  popups c' = popups c /\ requests c' = requests c /\ files c' = files c.

(** A session in which a continuation was answered with blanks: the load
    raises at the fourth turn. *)
Definition replay_session : client :=
  set_current_session (Some "20250101120000")
    (set_max_tokens 300
       (set_session_data
          [Turn.mk USER "Tell me a story" None;
           Turn.mk SYSTEM "Sorry, I couldn't process your request."
             (Some DEFAULT_PERSONALITY);
           Turn.mk USER CONTINUE None;
           Turn.mk ASSISTANT "  " (Some DEFAULT_PERSONALITY);
           Turn.mk USER "thanks" None] init)).

(** A disk that holds the saved [replay_session]. *)
Definition saved_replay : client :=
  set_files
    {[ "sessions/20250101120000.json" := JsonFile (snapshot replay_session) ]}
    init.

(** A disk that holds the saved [failed_session]. *)
Definition saved_failed_session : client :=
  set_files
    {[ "sessions/20250101120000.json" := JsonFile (snapshot failed_session) ]}
    init.

End PersistProps.

Module ExportProps.
Import Const Py Reflow Upd Session Exporting ChatProps.

(** The widest of the lines [ls], and at least [m]. *)
Definition widest (m : Z) (ls : list string) : Z :=
  fold_left (fun a l => Z.max a (len l)) ls m.

Definition Exported : popup :=
  Popup "Exported" "Session exported successfully." false.

(** The user accepts every dialog and keeps the proposed line length. *)
Definition accept_all : answers := Answers "" "" true None.

(** A store of two turns. *)
Definition greeting_client : client :=
  set_session_data
    [Turn.mk USER "hi" None;
     Turn.mk ASSISTANT "hello" (Some DEFAULT_PERSONALITY)] init.

End ExportProps.

(** ** The session commands: new, delete, rename, edit, send *)

Module Commands.
Import Const Py Upd Path Session.

Definition RANDOM : string := "<Random>".

(** [s.replace(" ", "_")] *)
Fixpoint underscore_blanks (s : string) : string :=
  match s with
  | EmptyString => EmptyString
  | String c rest =>
      String (if Ascii.eqb c " "%char then "_"%char else c)
        (underscore_blanks rest)
  end.

(** [name.lower().replace(" ", "_")] *)
Definition label_of (name : string) : string := underscore_blanks (lower name).

(** [font(options, default)]; [families] is what [tkinter.font.families()]
    returns. *)
Fixpoint font (families options : list string) (default : string) : string :=
  match options with
  | [] => default
  | f :: rest => if str_in f families then f else font families rest default
  end.

(** What [new_session] takes from outside: the clock
    ([datetime.now().strftime("%Y%m%d%H%M%S")]), the option [popup_list]
    returns, and the key [random.choice] draws. *)
Record outside := Outside {
  now : string;
  selected : string;
  drawn : string
}.

Section WithPersonalities.

Variable PERSONALITIES : list (string * string).

Definition new_session (name : option string)
    (keep_session_data force_default_personality : bool)
    (w : outside) (c : client) : outcome * client :=
  let chosen :=
    if force_default_personality then (Returned, set_personality DEFAULT_PERSONALITY c)
    else
      let p := if truthy (selected w) then selected w else DEFAULT_PERSONALITY in
      let c := set_personality p c in
      if String.eqb p RANDOM then
        match PERSONALITIES with
        | [] => (Raised IndexError, c)
        | _ :: _ => (Returned, set_personality (drawn w) c)
        end
      else (Returned, c) in
  match chosen with
  | (Raised e, c) => (Raised e, c)
  | (Returned, c) =>
      let current :=
        match name with
        | Some n => if truthy n then label_of n +:+ "_" +:+ now w else now w
        | None => now w
        end in
      let c := set_current_session (Some current) c in
      let c := if keep_session_data then c else set_session_data [] c in
      (Returned, delete_from_chat_end_all c)
  end.

End WithPersonalities.

(** [delete_session]; [confirmed] is the answer of [popup_yesno], asked
    only when [askforconfirmation] is set. *)
Definition delete_session (askforconfirmation show_success keep_session_data : bool)
    (confirmed : bool) (c : client) : client :=
  match current_session c with
  | Some current =>
      if truthy current then
        let confirm := if askforconfirmation then confirmed else true in
        if negb confirm then c
        else
          let session_file := session_path current in
          match files c !! session_file with
          | Some _ =>
              let c := set_files (delete session_file (files c)) c in
              let c := set_current_session None c in
              let c := if keep_session_data then c
                       else delete_from_chat_end_all (set_session_data [] c) in
              if show_success
              then popup_info "Deleted" "Current session deleted successfully." false c
              else c
          | None =>
              if show_success
              then popup_info "Error" "Session file not found." true c
              else c
          end
      else popup_info "Error" "No session to delete." true c
  | None => popup_info "Error" "No session to delete." true c
  end.

Section WithSystem.

(** [str(e)] of the [OSError] raised for a session file that is missing,
    given [keep_original], the old and the new path. *)
Variable rename_error : bool -> string -> string -> string.

(** [rename_session]; [asked] is the answer of [popup_string], used when no
    [name] is given.  The [try] is taken to fail for a missing session file
    only: the new file can be made, which holds for names of characters the
    file system takes and, when the file is renamed, for a new name no file
    has yet. *)
Definition rename_session (name : option string) (asked : string)
    (keep_original : bool) (c : client) : client :=
  match current_session c with
  | Some current =>
      if truthy current then
        let new_name :=
          match name with
          | Some n => if truthy n then n else asked
          | None => asked
          end in
        if negb (truthy new_name) then c
        else
          let new_name := label_of new_name in
          let new_session_name := new_name +:+ "_" +:+ current in
          let old_session_file := session_path current in
          let new_session_file := session_path new_session_name in
          match files c !! old_session_file with
          | Some content =>
              let disk :=
                if keep_original
                then <[new_session_file := content]> (files c)
                else <[new_session_file := content]>
                       (delete old_session_file (files c)) in
              popup_info "Renamed" "Session renamed successfully." false
                (set_current_session (Some new_session_name)
                   (set_files disk c))
          | None =>
              popup_info "Error"
                ("An error occured while renaming the session: "
                 +:+ rename_error keep_original old_session_file
                       new_session_file +:+ ".")
                true c
          end
      else popup_info "Error" "No session to rename." true c
  | None => popup_info "Error" "No session to rename." true c
  end.

(** [chat_display.delete(f"end-{chars}c", "end")] on the text of the
    widget. *)
Variable delete_chars_from_end : Z -> string -> string.

(** What the loop of [edit_last_message] leaves: how it ended, the store,
    the count of characters to delete and the user message it found. *)
Record popped := Popped {
  pop_outcome : outcome;
  pop_store : list Turn.t;
  to_delete : Z;
  last_user_message : string
}.

(** [for sd in range(sdl, -1, -1)]: [stack] is the store with its last turn
    first; each round pops one turn, so the store during the round is what
    is below it. *)
Fixpoint pop_to_user (c : client) (stack : list Turn.t) (to_delete : Z)
    : popped :=
  match stack with
  | [] => Popped Returned [] to_delete ""
  | sd :: below =>
      let store := rev below in
      match ROLE_MAP (Turn.role sd) with
      | None => Popped (Raised KeyError) store to_delete ""
      | Some sender =>
          match format_chat_message (set_session_data store c)
                  (Turn.content sd) (Some sender) false with
          | None => Popped (Raised IndexError) store to_delete ""
          | Some shown =>
              let to_delete := (to_delete + len shown)%Z in
              if String.eqb sender USER_NAME
              then Popped Returned store to_delete (Turn.content sd)
              else pop_to_user c below to_delete
          end
      end
  end.

(** [edit_last_message]; the third component is what is inserted in the
    input box. *)
Definition edit_last_message (c : client) : outcome * client * option string :=
  match session_data c with
  | [] => (Returned, popup_info "Error" "No messages to edit." true c, None)
  | _ :: _ =>
      let r := pop_to_user c (rev (session_data c)) 0 in
      let c := set_session_data (pop_store r) c in
      match pop_outcome r with
      | Raised e => (Raised e, c, None)
      | Returned =>
          if negb (truthy (last_user_message r)) then (Returned, c, None)
          else
            let c := save_current_session c in
            let c := set_chat_display
                       (delete_chars_from_end (to_delete r) (chat_display c)) c in
            (Returned, c, Some (last_user_message r))
      end
  end.

End WithSystem.

End Commands.

Module Sending.
Import Const Py Upd Path Session Chat Commands.

Section WithProvider.

Variable PERSONALITIES : list (string * string).
Variable provider : request -> string + string.
Variable unmark : string -> string.

(** [send_message]; [typed] is the text of the input box. *)
Definition send_message (typed : string) (w : outside) (c : client)
    : outcome * client :=
  let message := strip typed in
  if negb (truthy message) || String.eqb message CONTINUE
  then continue_message PERSONALITIES provider unmark c
  else
    let prepared :=
      if temp_session_var c then
        match current_session c with
        | Some _ => (Returned, delete_session false false true true c)
        | None => (Returned, c)
        end
      else
        match current_session c with
        | None => new_session PERSONALITIES None true false w c
        | Some _ => (Returned, c)
        end in
    match prepared with
    | (Raised e, c) => (Raised e, c)
    | (Returned, c) =>
        match update_chat_display message (Some USER_NAME) false c with
        | (Raised e, c) => (Raised e, c)
        | (Returned, c) =>
            get_and_update_response PERSONALITIES provider unmark message
              (Some ASSISTANT_NAME) false c
        end
    end.

End WithProvider.

End Sending.

(** ** Vocabulary of the further properties *)

Module MoreProps.
Import Const Py Upd Path Session Exporting.

(** A user turn whose content is the sentinel or empty. *)
Definition is_request (sd : Turn.t) : bool :=
  String.eqb (Turn.role sd) USER && str_in (Turn.content sd) [CONTINUE; ""].

(** A character that POSIX and Windows both take in a file name: printable
    ASCII, but for the separators of [os.path] on either system (the slash,
    the backslash and the colon) and for [< > | ? *] and the double
    quote. *)
Definition file_name_char (ch : ascii) : bool :=
  let n := nat_of_ascii ch in
  Nat.leb 32 n && Nat.ltb n 127
  && negb (str_in (String ch "") ["/"; ":"; "<"; ">"; "|"; "?"; "*"])
  && negb (Ascii.eqb ch BACKSLASH) && negb (Ascii.eqb ch DOUBLE_QUOTE).

Definition file_name_chars (s : string) : bool := all_chars file_name_char s.

(** A destination that is a bare file name: the file is made in the working
    directory, so that [open(.., "w")] finds the directory it writes to. *)
Definition file_name (p : string) : bool := truthy p && file_name_chars p.

(** A session name of such characters and without a dot, such as the time
    stamp [new_session] makes: its file is made in the session directory. *)
Definition plain_name (name : string) : bool :=
  all_chars (fun ch => file_name_char ch && negb (is_dot ch)) name.

(** The text stored for a provider call that failed. *)
Definition PLACEHOLDER : string := "Sorry, I couldn't process your request.".

(** The fields a provider round trip may change are the store, the
    display, the dialogs, the request log and the files. *)
Definition same_settings_but_popups (c c' : client) : Prop :=
  model c' = model c /\ max_tokens c' = max_tokens c /\
  personality c' = personality c /\ add_sys_msg c' = add_sys_msg c /\
  current_session c' = current_session c /\
  temp_session_var c' = temp_session_var c /\ files c' = files c.

(** A turn of the assistant or of the system. *)
Definition is_reply (sd : Turn.t) : bool :=
  str_in (Turn.role sd) [ASSISTANT; SYSTEM].

End MoreProps.

(** * Properties *)

(** ** Python strings *)

Module PyFacts.
Import Py Props.

Lemma append_nil_l (s : string) : "" +:+ s = s.
Proof. reflexivity. Qed.

Lemma append_cons (c : ascii) (s t : string) :
  String c s +:+ t = String c (s +:+ t).
Proof. reflexivity. Qed.

Lemma append_nil_r (s : string) : s +:+ "" = s.
Proof.
  induction s as [|c s IH]; [reflexivity|]. now rewrite append_cons, IH.
Qed.

Lemma append_assoc (a b c : string) : (a +:+ b) +:+ c = a +:+ (b +:+ c).
Proof.
  induction a as [|x a IH]; [reflexivity|]. now rewrite !append_cons, IH.
Qed.

Lemma len_append (a b : string) : len (a +:+ b) = len a + len b.
Proof.
  unfold len. induction a as [|x a IH].
  - rewrite append_nil_l. simpl. lia.
  - rewrite append_cons. simpl String.length. lia.
Qed.

Lemma len_nonneg (s : string) : 0 <= len s.
Proof. unfold len. lia. Qed.

Lemma len_String (c : ascii) (s : string) : len (String c s) = 1 + len s.
Proof. unfold len. simpl String.length. lia. Qed.

Lemma truthy_false (s : string) : truthy s = false -> s = "".
Proof. destruct s; [reflexivity | discriminate]. Qed.

Lemma all_chars_append p (a b : string) :
  all_chars p (a +:+ b) = all_chars p a && all_chars p b.
Proof.
  induction a as [|x a IH]; [reflexivity|].
  rewrite append_cons. simpl. rewrite IH. now rewrite andb_assoc.
Qed.

Lemma all_chars_weaken (p q : ascii -> bool) (s : string) :
  (forall c, p c = true -> q c = true) ->
  all_chars p s = true -> all_chars q s = true.
Proof.
  intros Hpq. induction s as [|c s IH]; simpl; [reflexivity|].
  rewrite !andb_true_iff. intros [Hc Hs]. split; auto.
Qed.

Lemma isspace_LF : isspace LF = true.
Proof. reflexivity. Qed.

Lemma nospace_not_LF (c : ascii) : nospace c = true -> negb (Ascii.eqb c LF) = true.
Proof.
  unfold nospace. destruct (Ascii.eqb_spec c LF) as [->|]; [|reflexivity].
  now rewrite isspace_LF.
Qed.

Lemma word_no_nl (w : string) : word w -> no_nl w.
Proof. intros [_ H]. eapply all_chars_weaken; [apply nospace_not_LF | exact H]. Qed.

Lemma split_cons (c : ascii) (rest : string) :
  split (String c rest) =
  if isspace c then split rest
  else match rest with
       | EmptyString => [String c EmptyString]
       | String d _ =>
           if isspace d then String c EmptyString :: split rest
           else match split rest with
                | w :: ws => String c w :: ws
                | [] => [String c EmptyString]
                end
       end.
Proof. reflexivity. Qed.

Lemma split_words (s : string) : Forall word (split s).
Proof.
  induction s as [|c s IH]; [constructor|].
  rewrite split_cons.
  destruct (isspace c) eqn:Hc; [exact IH|].
  assert (Hw : word (String c "")).
  { split; [reflexivity|]. simpl. unfold nospace. now rewrite Hc. }
  destruct s as [|d s']; [constructor; [exact Hw | constructor]|].
  destruct (isspace d) eqn:Hd; [constructor; [exact Hw | exact IH]|].
  destruct (split (String d s')) as [|w ws];
    [constructor; [exact Hw | constructor]|].
  inversion IH as [|? ? [_ Hw1] Hws]; subst. constructor; [|exact Hws].
  split; [reflexivity|]. simpl. unfold nospace at 1. now rewrite Hc, Hw1.
Qed.

Lemma match_indent_all p (s : string) :
  all_chars p s = true -> all_chars p (match_indent s) = true.
Proof.
  induction s as [|c s IH]; simpl; [reflexivity|].
  rewrite andb_true_iff. intros [Hc Hs].
  destruct (isspace c); simpl; [|reflexivity].
  now rewrite Hc, IH.
Qed.

Lemma split_nl_nonempty (s : string) : split_nl s <> [].
Proof.
  induction s as [|c s IH]; simpl; [discriminate|].
  destruct (Ascii.eqb c LF); [discriminate|].
  destruct (split_nl s); [contradiction | discriminate].
Qed.

Lemma split_nl_no_nl (s : string) : Forall no_nl (split_nl s).
Proof.
  induction s as [|c s IH]; simpl; [now repeat constructor|].
  destruct (Ascii.eqb c LF) eqn:Hc; [constructor; [reflexivity | exact IH]|].
  destruct (split_nl s) as [|l ls]; [repeat constructor; unfold no_nl; simpl; now rewrite Hc|].
  inversion IH; subst. constructor; [|assumption].
  unfold no_nl in *. simpl. now rewrite Hc.
Qed.

Lemma join_cons (sep x : string) (y : string) (l : list string) :
  join sep (x :: y :: l) = x +:+ sep +:+ join sep (y :: l).
Proof. reflexivity. Qed.

Lemma join_app (sep : string) (a b : list string) :
  a <> [] -> b <> [] ->
  join sep (a ++ b) = join sep a +:+ sep +:+ join sep b.
Proof.
  intros Ha Hb. induction a as [|x a IH]; [contradiction|].
  destruct a as [|y a].
  - destruct b as [|z b]; [contradiction | reflexivity].
  - change ((x :: y :: a) ++ b) with (x :: y :: (a ++ b)).
    rewrite !join_cons. change (y :: (a ++ b)) with ((y :: a) ++ b).
    rewrite IH by discriminate. now rewrite !append_assoc.
Qed.

Lemma split_nl_append_line (l rest : string) :
  no_nl l ->
  split_nl (l +:+ NL +:+ rest) = l :: split_nl rest.
Proof.
  unfold no_nl. induction l as [|c l IH].
  - intros _. reflexivity.
  - simpl. rewrite andb_true_iff, negb_true_iff. intros [Hc Hl].
    rewrite Hc, (IH Hl). reflexivity.
Qed.

Lemma split_nl_single (l : string) : no_nl l -> split_nl l = [l].
Proof.
  unfold no_nl. induction l as [|c l IH]; simpl; [reflexivity|].
  rewrite andb_true_iff, negb_true_iff. intros [Hc Hl].
  now rewrite Hc, (IH Hl).
Qed.

(** [split("\n")] undoes ["\n".join] on newline-free pieces. *)
Lemma split_nl_join (ls : list string) :
  ls <> [] -> Forall no_nl ls -> split_nl (join NL ls) = ls.
Proof.
  induction ls as [|l ls IH]; [contradiction|]. intros _ H.
  inversion H as [|? ? Hl Hls]; subst.
  destruct ls as [|l' ls].
  - now apply split_nl_single.
  - rewrite join_cons, split_nl_append_line by exact Hl.
    now rewrite IH.
Qed.

Lemma join_concat (lss : list (list string)) :
  Forall (fun ls => ls <> []) lss ->
  join NL (map (join NL) lss) = join NL (List.concat lss).
Proof.
  induction lss as [|ls lss IH]; [reflexivity|]. intros H.
  inversion H as [|? ? Hls Hlss]; subst.
  destruct lss as [|ls' lss].
  - simpl. now rewrite app_nil_r.
  - change (map (join NL) (ls :: ls' :: lss))
      with (join NL ls :: join NL ls' :: map (join NL) lss).
    rewrite join_cons. change (join NL ls' :: map (join NL) lss)
      with (map (join NL) (ls' :: lss)).
    rewrite (IH Hlss).
    change (List.concat (ls :: ls' :: lss))
      with (ls ++ List.concat (ls' :: lss)).
    rewrite join_app; [reflexivity | exact Hls |].
    inversion Hlss; subst. destruct ls'; [contradiction | discriminate].
Qed.

End PyFacts.

(** ** The reflow engine *)

Module ReflowFacts.
Import Py Props PyFacts Reflow.

(** The two shapes of one step of the inner loop. *)
Lemma wrap_word_break ind n st w :
  (len (line2 st) + len w + 1 >? n) = true ->
  outarr (wrap_word ind n st w) = outarr st ++ [line2 st] /\
  line2 (wrap_word ind n st w) = ind +:+ w.
Proof. intros H. unfold wrap_word. rewrite H. split; reflexivity. Qed.

Lemma wrap_word_extend ind n st w :
  (len (line2 st) + len w + 1 >? n) = false ->
  outarr (wrap_word ind n st w) = outarr st /\
  line2 (wrap_word ind n st w)
  = line2 st +:+ (if truthy (line2 st) then " " +:+ w else w).
Proof. intros H. unfold wrap_word. rewrite H. split; reflexivity. Qed.

(** An invariant of the inner loop: a property of every closed line and of
    the running line that a fresh line has and an extension keeps. *)
Lemma wrap_fold_inv (P : string -> Prop) ind n words :
  (forall w, In w words -> P (ind +:+ w)) ->
  (forall l w, P l -> In w words -> len l + len w + 1 <= n ->
     P (l +:+ (if truthy l then " " +:+ w else w))) ->
  forall st, Forall P (outarr st) -> P (line2 st) ->
  Forall P (outarr (fold_left (wrap_word ind n) words st)) /\
  P (line2 (fold_left (wrap_word ind n) words st)).
Proof.
  induction words as [|w words IH]; intros Hnew Hext st Ho Hl; [now split|].
  simpl fold_left. apply IH.
  - intros w' Hw'. apply Hnew. now right.
  - intros l w' Hp Hw'. apply Hext; [exact Hp | now right].
  - destruct (len (line2 st) + len w + 1 >? n) eqn:Hb.
    + destruct (wrap_word_break ind n st w Hb) as [-> _].
      apply List.Forall_app. split; [exact Ho | now constructor].
    + now destruct (wrap_word_extend ind n st w Hb) as [-> _].
  - destruct (len (line2 st) + len w + 1 >? n) eqn:Hb.
    + destruct (wrap_word_break ind n st w Hb) as [_ ->].
      apply Hnew. now left.
    + destruct (wrap_word_extend ind n st w Hb) as [_ ->].
      apply Hext; [exact Hl | now left | lia].
Qed.

(** The lines do not depend on the running maximum. *)
Lemma wrap_fold_lines ind n words : forall a b,
  outarr a = outarr b -> line2 a = line2 b ->
  outarr (fold_left (wrap_word ind n) words a)
  = outarr (fold_left (wrap_word ind n) words b) /\
  line2 (fold_left (wrap_word ind n) words a)
  = line2 (fold_left (wrap_word ind n) words b).
Proof.
  induction words as [|w words IH]; intros a b Ho Hl; [now split|].
  simpl fold_left. apply IH; unfold wrap_word; rewrite Ho, Hl;
    destruct (len (line2 b) + len w + 1 >? n); reflexivity.
Qed.

Lemma wrap_words_lines n m line :
  outarr (wrap_words n m line) ++ [line2 (wrap_words n m line)]
  = out_lines n line.
Proof.
  unfold out_lines, wrap_words.
  destruct (wrap_fold_lines (match_indent line) n (split line)
              (WrapState [] (match_indent line) m)
              (WrapState [] (match_indent line) 0) eq_refl eq_refl)
    as [-> ->].
  reflexivity.
Qed.

Lemma wrap_line_fst n acc line :
  fst (wrap_line n acc line) = fst acc ++ [join NL (out_lines n line)].
Proof. unfold wrap_line. simpl fst. now rewrite wrap_words_lines. Qed.

Lemma fold_wrap_line_fst n lines : forall acc,
  fst (fold_left (wrap_line n) lines acc)
  = fst acc ++ map (fun line => join NL (out_lines n line)) lines.
Proof.
  induction lines as [|line lines IH]; intros acc; simpl fold_left.
  - simpl. now rewrite app_nil_r.
  - rewrite IH, wrap_line_fst, <- app_assoc. reflexivity.
Qed.

(** The text [to_line_length] returns is the rendered lines of every source
    line, in order, one per line. *)
Lemma to_line_length_fst lines n :
  fst (to_line_length lines n)
  = join NL (List.concat (map (out_lines n) lines)).
Proof.
  unfold to_line_length. simpl fst. rewrite fold_wrap_line_fst. simpl app.
  rewrite <- join_concat.
  - now rewrite map_map.
  - apply List.Forall_forall. intros ls Hin. apply in_map_iff in Hin.
    destruct Hin as [line [<- _]]. unfold out_lines.
    destruct (outarr (wrap_words n 0 line)); discriminate.
Qed.

Lemma no_nl_append (a b : string) : no_nl a -> no_nl b -> no_nl (a +:+ b).
Proof.
  unfold no_nl. intros Ha Hb. now rewrite all_chars_append, Ha, Hb.
Qed.

Lemma out_lines_no_nl n line : no_nl line -> Forall no_nl (out_lines n line).
Proof.
  intros Hline. unfold out_lines, wrap_words.
  pose proof (split_words line) as Hws. rewrite List.Forall_forall in Hws.
  assert (Hind : no_nl (match_indent line)) by now apply match_indent_all.
  destruct (wrap_fold_inv no_nl (match_indent line) n (split line)) with
    (st := WrapState [] (match_indent line) 0) as [Ho Hl].
  - intros w Hw. apply no_nl_append; [exact Hind | apply word_no_nl; auto].
  - intros l w Hl Hw _. apply no_nl_append; [exact Hl|].
    destruct (truthy l); [apply no_nl_append; [reflexivity|] |];
      apply word_no_nl; auto.
  - constructor.
  - exact Hind.
  - apply List.Forall_app. split; [exact Ho | now constructor].
Qed.

(** The lines of a reflowed content, read back with [split("\n")]. *)
Lemma reflow_lines content n :
  split_nl (reflow content n)
  = List.concat (map (out_lines n) (split_nl content)).
Proof.
  unfold reflow. rewrite to_line_length_fst. apply split_nl_join.
  - pose proof (split_nl_nonempty content) as Hne.
    destruct (split_nl content) as [|line lines]; [contradiction|].
    simpl. unfold out_lines at 1.
    destruct (outarr (wrap_words n 0 line)); discriminate.
  - apply List.Forall_forall. intros l Hl. apply in_concat in Hl.
    destruct Hl as [ls [Hls Hl]]. apply in_map_iff in Hls.
    destruct Hls as [line [<- Hline]].
    pose proof (split_nl_no_nl content) as Hnl.
    rewrite List.Forall_forall in Hnl.
    pose proof (out_lines_no_nl n line (Hnl _ Hline)) as Ho.
    rewrite List.Forall_forall in Ho. now apply Ho.
Qed.

(** *** The characters of the reflowed text *)

Lemma split_all_chars p (s : string) :
  all_chars p s = true -> Forall (fun w => all_chars p w = true) (split s).
Proof.
  induction s as [|c s IH]; [constructor|].
  simpl all_chars. rewrite andb_true_iff. intros [Hc Hs].
  specialize (IH Hs). rewrite split_cons.
  destruct (isspace c); [exact IH|].
  destruct s as [|d s']; [constructor; [simpl; now rewrite Hc | constructor]|].
  destruct (isspace d).
  - constructor; [simpl; now rewrite Hc | exact IH].
  - destruct (split (String d s')) as [|w ws].
    + constructor; [simpl; now rewrite Hc | constructor].
    + inversion IH as [|? ? Hw Hws]. constructor; [|exact Hws].
      simpl. now rewrite Hc, Hw.
Qed.

Lemma split_nl_all_chars p (s : string) :
  all_chars p s = true ->
  Forall (fun l => all_chars p l = true) (split_nl s).
Proof.
  induction s as [|c s IH]; [repeat constructor|].
  simpl all_chars. rewrite andb_true_iff. intros [Hc Hs].
  specialize (IH Hs). simpl split_nl.
  destruct (Ascii.eqb c LF); [constructor; [reflexivity | exact IH]|].
  destruct (split_nl s) as [|l ls].
  - constructor; [simpl; now rewrite Hc | constructor].
  - inversion IH as [|? ? Hl Hls]. constructor; [|exact Hls].
    simpl. now rewrite Hc, Hl.
Qed.

Lemma join_all_chars p (sep : string) (ls : list string) :
  all_chars p sep = true ->
  Forall (fun l => all_chars p l = true) ls ->
  all_chars p (join sep ls) = true.
Proof.
  intros Hsep. induction ls as [|x ls IH]; intros H; [reflexivity|].
  inversion H as [|? ? Hx Hls]. subst.
  destruct ls as [|y ls]; [exact Hx|].
  rewrite join_cons, !all_chars_append, Hx, Hsep. now rewrite IH.
Qed.

Lemma out_lines_all_chars p n (line : string) :
  p " "%char = true -> all_chars p line = true ->
  Forall (fun l => all_chars p l = true) (out_lines n line).
Proof.
  intros Hblank Hline.
  pose proof (split_all_chars p line Hline) as Hws.
  rewrite List.Forall_forall in Hws.
  pose proof (match_indent_all p line Hline) as Hind.
  unfold out_lines, wrap_words.
  destruct (wrap_fold_inv (fun l => all_chars p l = true)
              (match_indent line) n (split line)) with
    (st := WrapState [] (match_indent line) 0) as [Ho Hl].
  - intros w Hw. rewrite all_chars_append, Hind. now apply Hws.
  - intros l w Hl Hw _. rewrite all_chars_append, Hl.
    destruct (truthy l); [rewrite all_chars_append; simpl; rewrite Hblank|];
      now apply Hws.
  - constructor.
  - exact Hind.
  - apply List.Forall_app. split; [exact Ho | now constructor].
Qed.

(** The reflowed text is made of the characters of the content, of blanks
    and of newlines. *)
Lemma reflow_all_chars p (content : string) n :
  p " "%char = true -> p LF = true ->
  all_chars p content = true -> all_chars p (reflow content n) = true.
Proof.
  intros Hblank Hnl Hc. unfold reflow. rewrite to_line_length_fst.
  apply join_all_chars; [simpl; now rewrite Hnl|].
  apply List.Forall_forall. intros l Hl. apply in_concat in Hl.
  destruct Hl as [ls [Hls Hl]]. apply in_map_iff in Hls.
  destruct Hls as [line [<- Hline]].
  pose proof (split_nl_all_chars p content Hc) as Hlines.
  rewrite List.Forall_forall in Hlines.
  pose proof (out_lines_all_chars p n line Hblank (Hlines line Hline)) as Ho.
  rewrite List.Forall_forall in Ho. now apply Ho.
Qed.

(** The reflow of ASCII text is ASCII text. *)
Lemma reflow_isascii (content : string) n :
  isascii content = true -> isascii (reflow content n) = true.
Proof. now apply reflow_all_chars. Qed.

End ReflowFacts.

(** ** Reflow: width of the lines *)

Module ReflowWidth.
Import Py Props PyFacts Reflow ReflowFacts.

(** Every rendered line fits the width, or is the indentation of its source
    line followed by at most one word. *)
Lemma out_lines_shape n line l :
  In l (out_lines n line) ->
  len l <= n \/
  exists w, (w = "" \/ In w (split line)) /\ l = match_indent line +:+ w.
Proof.
  set (P := fun l => len l <= n \/
    exists w, (w = "" \/ In w (split line)) /\ l = match_indent line +:+ w).
  intros Hin. unfold out_lines, wrap_words in Hin.
  destruct (wrap_fold_inv P (match_indent line) n (split line)) with
    (st := WrapState [] (match_indent line) 0) as [Ho Hl].
  - intros w Hw. right. exists w. split; [now right | reflexivity].
  - intros l0 w _ _ Hfit. left.
    destruct (truthy l0) eqn:Ht.
    + rewrite !len_append. change (len " ") with 1. lia.
    + apply truthy_false in Ht. subst l0. rewrite append_nil_l.
      change (len "") with 0 in Hfit. lia.
  - constructor.
  - right. exists "". split; [now left | now rewrite append_nil_r].
  - apply in_app_or in Hin. destruct Hin as [Hin | [<- | []]].
    + rewrite List.Forall_forall in Ho. now apply Ho.
    + exact Hl.
Qed.

Lemma reflow_line_origin content n l :
  In l (split_nl (reflow content n)) ->
  exists line, In line (split_nl content) /\ In l (out_lines n line).
Proof.
  rewrite reflow_lines. intros Hin. apply in_concat in Hin.
  destruct Hin as [ls [Hls Hl]]. apply in_map_iff in Hls.
  destruct Hls as [line [<- Hline]]. now exists line.
Qed.

(** When the indentation and every indented word fit, every line fits. *)
Lemma reflow_fits content n :
  (forall line, In line (split_nl content) ->
     len (match_indent line) <= n /\
     forall w, In w (split line) -> len (match_indent line) + len w <= n) ->
  forall l, In l (split_nl (reflow content n)) -> len l <= n.
Proof.
  intros Hfit l Hin.
  destruct (reflow_line_origin content n l Hin) as [line [Hline Hl]].
  destruct (Hfit line Hline) as [Hind Hw].
  destruct (out_lines_shape n line l Hl) as [H | [w [[-> | Hin'] ->]]].
  - exact H.
  - now rewrite append_nil_r.
  - rewrite len_append. now apply Hw.
Qed.

(** C2: for a content of ASCII text, every output line of the reflow engine
    is at most [max_width] long, or it is the indentation of its source line
    alone or followed by exactly one word of that line; so every line fits
    when the indentation of each source line, alone and followed by any word
    of the line, fits. *)
Theorem reflow_width_bound content n :
  isascii content = true ->
  (forall l, In l (split_nl (reflow content n)) ->
     len l <= n \/
     exists line w,
       In line (split_nl content) /\
       (w = "" \/ In w (split line)) /\
       l = match_indent line +:+ w) /\
  ((forall line, In line (split_nl content) ->
      len (match_indent line) <= n /\
      forall w, In w (split line) -> len (match_indent line) + len w <= n) ->
   forall l, In l (split_nl (reflow content n)) -> len l <= n).
Proof.
  intros _. split; [|apply reflow_fits].
  intros l Hin.
  destruct (reflow_line_origin content n l Hin) as [line [Hline Hl]].
  destruct (out_lines_shape n line l Hl) as [H | [w [Hw ->]]].
  - now left.
  - right. exists line, w. auto.
Qed.

Lemma reflow_width_bound_witness :
  isascii "a bb ccc dddd" = true /\
  (forall l, In l (split_nl (reflow "a bb ccc dddd" 6)) ->
     len l <= 6 \/
     exists line w,
       In line (split_nl "a bb ccc dddd") /\
       (w = "" \/ In w (split line)) /\
       l = match_indent line +:+ w) /\
  (forall l, In l (split_nl (reflow "a bb ccc dddd" 6)) -> len l <= 6).
Proof.
  destruct (reflow_width_bound "a bb ccc dddd" 6 eq_refl) as [Hshape Hfit].
  split; [reflexivity|]. split; [exact Hshape|].
  apply Hfit. intros line Hline. vm_compute in Hline.
  destruct Hline as [<- | []]. split; [vm_compute; discriminate|].
  intros w Hw. vm_compute in Hw.
  destruct Hw as [<- | [<- | [<- | [<- | []]]]]; vm_compute; discriminate.
Defined.

(** C2, as stated, fails: at width 40 a word of 8 characters behind an
    indentation of 36 is put on a line of 44, and 40 is not less than the
    longest word. *)
Lemma reflow_width_bound_counterexample : ~ width_bound_as_stated.
Proof.
  intros H.
  specialize (H indented_word 40).
  destruct (H) with (l := indented_word) as [Hle | [w [Hw Hlt]]].
  - intros line w Hline Hw. vm_compute in Hline.
    destruct Hline as [<- | []]. vm_compute in Hw.
    destruct Hw as [<- | []]. vm_compute. discriminate.
  - vm_compute. right. now left.
  - vm_compute in Hle. now apply Hle.
  - vm_compute in Hw. injection Hw as <-. vm_compute in Hlt. discriminate.
Qed.

End ReflowWidth.

(** ** Reflow: text that is already wrapped *)

Module ReflowFixed.
Import Py Props PyFacts Reflow ReflowFacts.

Lemma split_space (c : ascii) (s : string) :
  isspace c = true -> split (String c s) = split s.
Proof. intros H. rewrite split_cons. now rewrite H. Qed.

Lemma word_cons_inv (c : ascii) (w : string) :
  word (String c w) -> isspace c = false /\ (w = "" \/ word w).
Proof.
  intros [_ H]. simpl in H. apply andb_true_iff in H. destruct H as [Hc Hw].
  unfold nospace in Hc. apply negb_true_iff in Hc. split; [exact Hc|].
  destruct w as [|d w]; [now left|]. right. split; [reflexivity | exact Hw].
Qed.

Lemma split_word_then_space (w : string) (c : ascii) (s : string) :
  word w -> isspace c = true -> split (w +:+ String c s) = w :: split s.
Proof.
  intros Hw Hc. induction w as [|x w IH]; [destruct Hw; discriminate|].
  destruct (word_cons_inv x w Hw) as [Hx [-> | Hw']].
  - rewrite append_cons, append_nil_l, split_cons, Hx, Hc.
    now rewrite (split_space c s Hc).
  - specialize (IH Hw'). destruct w as [|y w]; [destruct Hw'; discriminate|].
    destruct (word_cons_inv y w Hw') as [Hy _].
    rewrite append_cons, split_cons, Hx.
    rewrite append_cons in IH |- *. rewrite Hy.
    now rewrite IH.
Qed.

Lemma split_word (w : string) : word w -> split w = [w].
Proof.
  intros Hw. induction w as [|x w IH]; [destruct Hw; discriminate|].
  destruct (word_cons_inv x w Hw) as [Hx [-> | Hw']].
  - rewrite split_cons. now rewrite Hx.
  - specialize (IH Hw'). destruct w as [|y w]; [destruct Hw'; discriminate|].
    destruct (word_cons_inv y w Hw') as [Hy _].
    rewrite split_cons, Hx, Hy. now rewrite IH.
Qed.

(** [split] undoes [" ".join] on words. *)
Lemma split_join_words (ws : list string) :
  Forall word ws -> split (join " " ws) = ws.
Proof.
  induction ws as [|w ws IH]; [reflexivity|]. intros H.
  inversion H as [|? ? Hw Hws]; subst.
  destruct ws as [|w' ws]; [now apply split_word|].
  rewrite join_cons. change (" " +:+ join " " (w' :: ws))
    with (String " "%char (join " " (w' :: ws))).
  rewrite split_word_then_space by (exact Hw || reflexivity).
  now rewrite IH.
Qed.

Lemma match_indent_word_start (w s : string) :
  word w -> match_indent (w +:+ s) = "".
Proof.
  intros Hw. destruct w as [|c w]; [destruct Hw; discriminate|].
  destruct (word_cons_inv c w Hw) as [Hc _].
  rewrite append_cons. simpl. now rewrite Hc.
Qed.

Lemma match_indent_join (ws : list string) :
  Forall word ws -> match_indent (join " " ws) = "".
Proof.
  intros H. destruct ws as [|w ws]; [reflexivity|].
  inversion H as [|? ? Hw _]; subst.
  destruct ws as [|w' ws].
  - simpl. rewrite <- (append_nil_r w). now apply match_indent_word_start.
  - rewrite join_cons. now apply match_indent_word_start.
Qed.

Lemma truthy_join (ws : list string) :
  Forall word ws -> ws <> [] -> truthy (join " " ws) = true.
Proof.
  intros H Hne. destruct ws as [|w ws]; [contradiction|].
  inversion H as [|? ? [Hw _] _]; subst.
  destruct w as [|c w]; [discriminate|].
  destruct ws; reflexivity.
Qed.

Lemma join_snoc (ws : list string) (w : string) :
  ws <> [] -> join " " (ws ++ [w]) = join " " ws +:+ " " +:+ w.
Proof. intros H. now rewrite join_app by (exact H || discriminate). Qed.

Lemma len_join_prefix (a b : list string) :
  len (join " " a) <= len (join " " (a ++ b)).
Proof.
  destruct a as [|x a]; [apply len_nonneg|].
  destruct b as [|y b]; [rewrite app_nil_r; lia|].
  rewrite join_app by discriminate. rewrite !len_append.
  pose proof (len_nonneg (join " " (y :: b))). change (len " ") with 1. lia.
Qed.

Lemma wrapped_line_intro n l ws : wrapped_as n l ws -> wrapped_line n l = true.
Proof.
  intros (Hws & -> & Hlen & Hhd). unfold wrapped_line.
  rewrite (split_join_words ws Hws), String.eqb_refl. simpl andb.
  apply andb_true_iff. split; [now apply Z.leb_le|].
  destruct ws as [|w ws]; [reflexivity|]. apply Z.ltb_lt. now apply Hhd.
Qed.

Lemma wrapped_line_elim n l :
  wrapped_line n l = true -> wrapped_as n l (split l).
Proof.
  unfold wrapped_line. rewrite !andb_true_iff. intros [[Heq Hlen] Hhd].
  apply String.eqb_eq in Heq. apply Z.leb_le in Hlen.
  repeat split; [apply split_words | exact Heq | exact Hlen |].
  intros w Hw. destruct (split l) as [|w0 ws]; [discriminate|].
  injection Hw as ->. now apply Z.ltb_lt.
Qed.

(** The inner loop never closes a line on the words of a wrapped line. *)
Lemma wrap_fold_wrapped n o : forall ws pre m,
  Forall word (pre ++ ws) ->
  len (join " " (pre ++ ws)) <= n ->
  (pre = [] -> forall w, head ws = Some w -> len w < n) ->
  let st := fold_left (wrap_word "" n) ws (WrapState o (join " " pre) m) in
  outarr st = o /\ line2 st = join " " (pre ++ ws).
Proof.
  induction ws as [|w ws IH]; intros pre m Hws Hlen Hhd.
  - simpl. now rewrite app_nil_r.
  - simpl fold_left.
    assert (Hw : word w).
    { apply List.Forall_app in Hws. destruct Hws as [_ Hws].
      now inversion Hws. }
    assert (Hpre : Forall word pre) by (apply List.Forall_app in Hws; tauto).
    assert (Hfit : (len (join " " pre) + len w + 1 >? n) = false).
    { rewrite Z.gtb_ltb. apply Z.ltb_ge.
      destruct pre as [|p pre].
      - specialize (Hhd eq_refl w eq_refl). change (len (join " " [])) with 0.
        lia.
      - pose proof (len_join_prefix ((p :: pre) ++ [w]) ws) as Hp.
        rewrite <- app_assoc in Hp. simpl app in Hp, Hlen.
        change (p :: pre ++ [w]) with ((p :: pre) ++ [w]) in Hp.
        rewrite join_snoc in Hp by discriminate.
        rewrite !len_append in Hp. change (len " ") with 1 in Hp.
        simpl app in Hp. lia. }
    unfold wrap_word at 2. simpl line2. simpl outarr. rewrite Hfit.
    assert (Hline : join " " pre
                    +:+ (if truthy (join " " pre) then " " +:+ w else w)
                    = join " " (pre ++ [w])).
    { destruct pre as [|p pre]; [reflexivity|].
      rewrite truthy_join by (exact Hpre || discriminate).
      now rewrite join_snoc by discriminate. }
    rewrite Hline. simpl maxlength.
    replace (pre ++ w :: ws) with ((pre ++ [w]) ++ ws) in *
      by now rewrite <- app_assoc.
    apply IH; [exact Hws | exact Hlen |].
    intros Habs. destruct pre; discriminate.
Qed.

(** A wrapped line is rendered as itself. *)
Lemma out_lines_wrapped n l : wrapped_line n l = true -> out_lines n l = [l].
Proof.
  intros H. apply wrapped_line_elim in H.
  destruct H as (Hws & Heq & Hlen & Hhd).
  unfold out_lines, wrap_words.
  assert (Hind : match_indent l = "").
  { rewrite Heq. now apply match_indent_join. }
  rewrite Hind.
  destruct (wrap_fold_wrapped n [] (split l) [] 0) as [Ho Hl].
  - exact Hws.
  - simpl app. now rewrite <- Heq.
  - intros _. exact Hhd.
  - change (join " " []) with "" in Ho, Hl. rewrite Ho, Hl.
    simpl app. now rewrite <- Heq.
Qed.

Lemma concat_map_singleton {A} (f : A -> list A) (l : list A) :
  (forall x, In x l -> f x = [x]) -> List.concat (map f l) = l.
Proof.
  induction l as [|x l IH]; intros H; [reflexivity|].
  simpl. rewrite (H x) by now left. simpl. f_equal. apply IH.
  intros y Hy. apply H. now right.
Qed.

Lemma join_split_nl (s : string) : join NL (split_nl s) = s.
Proof.
  induction s as [|c s IH]; [reflexivity|].
  simpl split_nl. destruct (Ascii.eqb_spec c LF) as [-> | Hc].
  - pose proof (split_nl_nonempty s) as Hne.
    destruct (split_nl s) as [|l ls] eqn:E; [contradiction|].
    rewrite join_cons, IH. reflexivity.
  - pose proof (split_nl_nonempty s) as Hne.
    destruct (split_nl s) as [|l ls] eqn:E; [contradiction|].
    destruct ls as [|l' ls].
    + simpl in IH |- *. now rewrite IH.
    + rewrite join_cons in IH |- *. rewrite append_cons. now rewrite IH.
Qed.

(** Lines rendered from an unindented source line of short words are
    empty or wrapped, hence rendered as themselves. *)
Lemma out_lines_are_fixed n line :
  match_indent line = "" ->
  (forall w, In w (split line) -> len w < n) ->
  Forall (fun l => out_lines n l = [l]) (out_lines n line).
Proof.
  intros Hind Hshort.
  set (P := fun l => l = "" \/ exists ws, wrapped_as n l ws).
  assert (HP : forall l, P l -> out_lines n l = [l]).
  { intros l [-> | [ws H]]; [reflexivity|].
    now apply out_lines_wrapped, (wrapped_line_intro n l ws). }
  unfold out_lines at 2. unfold wrap_words. rewrite Hind.
  pose proof (split_words line) as Hws. rewrite List.Forall_forall in Hws.
  assert (Hone : forall w, In w (split line) -> wrapped_as n w [w]).
  { intros w Hw. specialize (Hshort w Hw). specialize (Hws w Hw).
    split; [constructor; [exact Hws | constructor]|].
    split; [reflexivity|]. split; [lia|].
    intros w' Hw'. injection Hw' as <-. exact Hshort. }
  destruct (wrap_fold_inv P "" n (split line)) with
    (st := WrapState [] "" 0) as [Ho Hl].
  - intros w Hw. right. exists [w]. rewrite append_nil_l. now apply Hone.
  - intros l w Hl Hw Hfit. right.
    destruct Hl as [-> | [ws (Hwsl & -> & Hlen & Hhd)]].
    { exists [w]. simpl truthy. rewrite append_nil_l. now apply Hone. }
    destruct ws as [|x ws].
    + exists [w]. change (join " " []) with "". simpl truthy.
      rewrite append_nil_l. now apply Hone.
    + exists ((x :: ws) ++ [w]).
      rewrite truthy_join by (exact Hwsl || discriminate).
      rewrite <- join_snoc by discriminate.
      split; [|split; [reflexivity | split]].
      * apply List.Forall_app. split; [exact Hwsl|].
        constructor; [apply Hws, Hw | constructor].
      * rewrite join_snoc by discriminate. rewrite !len_append.
        change (len " ") with 1. lia.
      * intros w' Hw'. apply Hhd. exact Hw'.
  - constructor.
  - now left.
  - apply List.Forall_app. split.
    + eapply List.Forall_impl; [exact HP | exact Ho].
    + constructor; [now apply HP | constructor].
Qed.

Lemma reflow_of_fixed_lines content n :
  (forall l, In l (split_nl content) -> out_lines n l = [l]) ->
  reflow content n = content.
Proof.
  intros H. unfold reflow. rewrite to_line_length_fst.
  rewrite concat_map_singleton by exact H. apply join_split_nl.
Qed.

(** Reflowing twice is reflowing once, on unindented lines of words shorter
    than the width. *)
Lemma reflow_idempotent content n :
  (forall line, In line (split_nl content) ->
     match_indent line = "" /\
     forall w, In w (split line) -> len w < n) ->
  reflow (reflow content n) n = reflow content n.
Proof.
  intros H. apply reflow_of_fixed_lines. intros l Hl.
  rewrite reflow_lines in Hl. apply in_concat in Hl.
  destruct Hl as [ls [Hls Hl]]. apply in_map_iff in Hls.
  destruct Hls as [line [<- Hline]].
  destruct (H line Hline) as [Hind Hshort].
  pose proof (out_lines_are_fixed n line Hind Hshort) as Hf.
  rewrite List.Forall_forall in Hf. now apply Hf.
Qed.

(** C8: a content of ASCII text every line of which is wrapped at the width
    (its words joined by single blanks, nothing before or after them, at
    most [n] long, the first word shorter than [n]) is reflowed to itself;
    and reflowing twice is reflowing once for a content whose lines have no
    leading whitespace and whose words are all shorter than the width. *)
Theorem reflow_wrapped_fixed content n :
  isascii content = true ->
  (wrapped n content = true -> reflow content n = content) /\
  ((forall line, In line (split_nl content) ->
      match_indent line = "" /\
      forall w, In w (split line) -> len w < n) ->
   reflow (reflow content n) n = reflow content n).
Proof.
  intros _. split; [|apply reflow_idempotent].
  intros H. apply reflow_of_fixed_lines. intros l Hl.
  apply out_lines_wrapped. unfold wrapped in H.
  rewrite forallb_forall in H. now apply H.
Qed.

Lemma reflow_wrapped_fixed_witness :
  let content := "a bb" +:+ NL +:+ "ccc" +:+ NL +:+ "dddd" in
  isascii content = true /\
  wrapped 6 content = true /\
  reflow content 6 = content /\
  reflow (reflow "a bb ccc dddd" 6) 6 = reflow "a bb ccc dddd" 6.
Proof.
  split; [reflexivity|]. split; [reflexivity|]. split.
  - destruct (reflow_wrapped_fixed
                ("a bb" +:+ NL +:+ "ccc" +:+ NL +:+ "dddd") 6 eq_refl)
      as [Hfixed _].
    apply Hfixed. reflexivity.
  - destruct (reflow_wrapped_fixed "a bb ccc dddd" 6 eq_refl) as [_ Htwice].
    apply Htwice. intros line Hline. vm_compute in Hline.
    destruct Hline as [<- | []]. split; [reflexivity|].
    intros w Hw. vm_compute in Hw.
    destruct Hw as [<- | [<- | [<- | [<- | []]]]]; reflexivity.
Defined.

(** C8, as stated, fails: the engine's own output for [" a"] at width 40,
    the single line ["  a"], is changed by a second pass, which puts one more
    blank after the indentation; and the line ["dddd"], wrapped at its own
    length 4, is pushed below an empty line. *)
Lemma reflow_idempotence_counterexample :
  reflow " a" 40 = "  a" /\
  (forall l, In l (split_nl (reflow " a" 40)) -> len l <= 40) /\
  reflow (reflow " a" 40) 40 = "   a" /\
  reflow (reflow " a" 40) 40 <> reflow " a" 40 /\
  len "dddd" <= 4 /\
  reflow "dddd" 4 = NL +:+ "dddd".
Proof.
  split; [reflexivity|].
  split; [|split; [reflexivity | split; [discriminate|]]].
  - intros l Hl. vm_compute in Hl. destruct Hl as [<- | []].
    vm_compute. discriminate.
  - split; [vm_compute; discriminate | reflexivity].
Qed.

End ReflowFixed.

(** ** Export normalisation: the continuation merge *)

Module NormFacts.
Import Const Py Props PyFacts Session Exporting NormProps.

Lemma single_char_eqb (c d : ascii) :
  String.eqb (String c "") (String d "") = Ascii.eqb c d.
Proof. simpl. destruct (Ascii.eqb c d); reflexivity. Qed.

(** The source's test [message[0] in [".", ",", "!", "?", ":", ";"]]. *)
Lemma add_space_when_needed_spec (message : string) :
  message <> "" ->
  add_space_when_needed message
  = Some ((if begins_with_closing_punctuation message then "" else " ")
          +:+ message).
Proof.
  destruct message as [|c rest]; [contradiction|]. intros _.
  unfold add_space_when_needed, begins_with_closing_punctuation, str_in.
  cbv [existsb]. now rewrite !single_char_eqb.
Qed.

Lemma add_space_when_needed_none (message : string) :
  add_space_when_needed message = None <-> message = "".
Proof. destruct message; simpl; split; intros H; congruence. Qed.

Lemma append_to_last_snoc extra init prev :
  append_to_last extra (init ++ [prev])
  = Some (init ++ [Entry.mk (Entry.role prev) (Entry.content prev +:+ extra)]).
Proof.
  induction init as [|e init IH]; [reflexivity|].
  change ((e :: init) ++ [prev]) with (e :: (init ++ [prev])).
  simpl append_to_last. rewrite IH.
  destruct (init ++ [prev]) eqn:E; [destruct init; discriminate|].
  reflexivity.
Qed.

Lemma append_to_last_none extra data :
  append_to_last extra data = None <-> data = [].
Proof.
  destruct data as [|prev init _] using rev_ind; [tauto|].
  rewrite append_to_last_snoc. split; [discriminate|].
  intros H. destruct init; discriminate.
Qed.

Lemma normalize_from_app st pre rest :
  normalize_from st (pre ++ rest)
  = match normalize_from st pre with
    | Some st' => normalize_from st' rest
    | None => None
    end.
Proof.
  revert st. induction pre as [|sd pre IH]; intros st; [reflexivity|].
  simpl. destruct (normalize_step st sd); [apply IH | reflexivity].
Qed.

(** A pending merge succeeds exactly when an entry was emitted before and
    the merged content is not empty. *)
Lemma merge_step_defined st sd :
  is_continue st = true ->
  normalize_step st sd = None <-> data st = [] \/ Turn.content sd = "".
Proof.
  intros Hc. unfold normalize_step. rewrite Hc.
  destruct (add_space_when_needed (Turn.content sd)) as [extra|] eqn:Ea.
  - assert (Hne : Turn.content sd <> "").
    { intros Habs. apply add_space_when_needed_none in Habs. congruence. }
    destruct (append_to_last extra (data st)) eqn:Eb.
    + split; [discriminate|]. intros [Hd | Hd]; [|contradiction].
      apply (append_to_last_none extra) in Hd. congruence.
    + split; [|reflexivity]. intros _. left.
      now apply (append_to_last_none extra).
  - split; [|reflexivity]. intros _. right.
    now apply add_space_when_needed_none.
Qed.

(** What a successful merge step leaves behind. *)
Lemma merge_step_some st sd st' :
  is_continue st = true ->
  normalize_step st sd = Some st' ->
  exists init prev,
    data st = init ++ [prev] /\
    st' = NormState
            (init ++ [Entry.mk (Entry.role prev)
                        (Entry.content prev
                         +:+ (if begins_with_closing_punctuation (Turn.content sd)
                              then "" else " ")
                         +:+ Turn.content sd)])
            false.
Proof.
  intros Hc Hstep.
  assert (Hdef : ~ (data st = [] \/ Turn.content sd = "")).
  { intros H. apply (merge_step_defined st sd Hc) in H. congruence. }
  destruct (data st) as [|prev init _] eqn:Ed using rev_ind; [tauto|].
  exists init, prev. split; [reflexivity|].
  unfold normalize_step in Hstep. rewrite Hc, Ed in Hstep.
  rewrite add_space_when_needed_spec in Hstep by tauto.
  rewrite append_to_last_snoc in Hstep. now injection Hstep as <-.
Qed.

(** A continuation request that is reached with no merge pending leaves the
    data as it is and makes the next turn a merge. *)
Lemma request_step st sd :
  is_continue st = false -> continuation_request sd ->
  normalize_step st sd = Some (NormState (data st) true).
Proof.
  intros Hc [Hrole Hcont]. unfold normalize_step. rewrite Hc, Hrole.
  simpl String.eqb. destruct Hcont as [-> | ->]; reflexivity.
Qed.

(** A leading continuation request makes the normalisation raise as soon
    as a turn follows it. *)
Lemma normalize_leading_request sd next rest :
  continuation_request sd -> normalize (sd :: next :: rest) = None.
Proof.
  intros Hreq. unfold normalize. simpl normalize_from.
  rewrite (request_step (NormState [] false) sd eq_refl Hreq).
  simpl data.
  assert (H : normalize_step (NormState [] true) next = None).
  { apply merge_step_defined; [reflexivity | now left]. }
  now rewrite H.
Qed.

(** With no merge pending a step never raises. *)
Lemma plain_step_defined st sd :
  is_continue st = false -> normalize_step st sd <> None.
Proof.
  intros Hc. unfold normalize_step. rewrite Hc.
  destruct (String.eqb (Turn.role sd) USER).
  - destruct (str_in (Turn.content sd) [CONTINUE; ""]); discriminate.
  - destruct (str_in (Turn.role sd) [DEBUG_NAME; SYSTEM_NAME; PROMPT_NAME]);
      discriminate.
Qed.

(** With no merge pending, only a continuation request makes the next turn
    a merge, and it emits nothing. *)
Lemma plain_step_pending st sd st' :
  is_continue st = false -> normalize_step st sd = Some st' ->
  is_continue st' = true ->
  continuation_request sd /\ data st' = data st.
Proof.
  intros Hc Hstep Hp. unfold normalize_step in Hstep. rewrite Hc in Hstep.
  destruct (String.eqb_spec (Turn.role sd) USER) as [Hr|_].
  - destruct (str_in (Turn.content sd) [CONTINUE; ""]) eqn:Hin;
      injection Hstep as <-; [|discriminate].
    split; [|reflexivity]. split; [exact Hr|].
    unfold str_in in Hin. cbv [existsb] in Hin.
    destruct (String.eqb_spec (Turn.content sd) CONTINUE) as [->|_];
      [now left|].
    destruct (String.eqb_spec (Turn.content sd) "") as [->|_];
      [now right | discriminate].
  - destruct (str_in (Turn.role sd) [DEBUG_NAME; SYSTEM_NAME; PROMPT_NAME]);
      injection Hstep as <-; discriminate.
Qed.

(** The normalisation raises only at a merge. *)
Lemma normalize_from_none l : forall st0,
  normalize_from st0 l = None ->
  exists pre st sd rest,
    l = pre ++ sd :: rest /\
    normalize_from st0 pre = Some st /\
    is_continue st = true /\
    (data st = [] \/ Turn.content sd = "").
Proof.
  induction l as [|sd l IH]; intros st0 H; [discriminate|].
  simpl in H. destruct (normalize_step st0 sd) as [st1|] eqn:Hstep.
  - destruct (IH st1 H) as (pre & st & sd' & rest & -> & Hpre & Hc & Hd).
    exists (sd :: pre), st, sd', rest. split; [reflexivity|].
    split; [|now split]. simpl. now rewrite Hstep.
  - destruct (is_continue st0) eqn:Hc.
    + exists [], st0, sd, l. split; [reflexivity|].
      split; [reflexivity|]. split; [exact Hc|].
      now apply (merge_step_defined st0 sd Hc).
    + now apply plain_step_defined in Hstep.
Qed.

(** A merge is pending exactly after a continuation request that was
    itself reached with no merge pending. *)
Lemma pending_after_request pre : forall st,
  normalize_from (NormState [] false) pre = Some st ->
  is_continue st = true ->
  exists before st0 request,
    pre = before ++ [request] /\
    normalize_from (NormState [] false) before = Some st0 /\
    is_continue st0 = false /\
    continuation_request request /\
    data st = data st0.
Proof.
  destruct pre as [|request before _] using rev_ind; intros st H Hc.
  - injection H as <-. discriminate.
  - rewrite normalize_from_app in H.
    destruct (normalize_from (NormState [] false) before) as [st0|] eqn:Hb;
      [|discriminate].
    simpl in H.
    destruct (normalize_step st0 request) as [st1|] eqn:Hstep;
      [|discriminate].
    injection H as ->.
    destruct (is_continue st0) eqn:Hc0.
    + destruct (merge_step_some st0 request st Hc0 Hstep)
        as (init & prev & _ & ->). discriminate.
    + destruct (plain_step_pending st0 request st Hc0 Hstep Hc) as [Hreq Hd].
      now exists before, st0, request.
Qed.

(** C9: the normalisation raises [IndexError] exactly at a merge for which
    no entry has been emitted so far or whose turn has an empty content, a
    merge being pending on the turn that follows a continuation request
    reached with none pending; a leading request raises as soon as a turn
    follows it, while a request reached with no merge pending that no turn
    follows raises nothing and emits nothing. *)
Theorem normalize_merge_partial session_data :
  (normalize session_data = None <->
   exists pre st sd rest,
     session_data = pre ++ sd :: rest /\
     normalize_from (NormState [] false) pre = Some st /\
     is_continue st = true /\
     (data st = [] \/ Turn.content sd = "")) /\
  (forall pre st,
     normalize_from (NormState [] false) pre = Some st ->
     (is_continue st = true <->
      exists before st0 request,
        pre = before ++ [request] /\
        normalize_from (NormState [] false) before = Some st0 /\
        is_continue st0 = false /\
        continuation_request request /\
        data st = data st0)) /\
  (forall sd next rest,
     session_data = sd :: next :: rest -> continuation_request sd ->
     normalize session_data = None) /\
  (forall pre st sd,
     session_data = pre ++ [sd] ->
     normalize_from (NormState [] false) pre = Some st ->
     is_continue st = false -> continuation_request sd ->
     normalize session_data = Some (data st)).
Proof.
  split; [|split; [|split]].
  - unfold normalize. split.
    + intros H.
      destruct (normalize_from (NormState [] false) session_data) eqn:E;
        [discriminate|].
      now apply normalize_from_none.
    + intros (pre & st & sd & rest & -> & Hpre & Hc & Hd).
      rewrite normalize_from_app, Hpre. simpl normalize_from.
      apply (merge_step_defined st sd Hc) in Hd. now rewrite Hd.
  - intros pre st Hpre. split; [now apply pending_after_request|].
    intros (before & st0 & request & -> & Hb & Hc0 & Hreq & _).
    rewrite normalize_from_app, Hb in Hpre. simpl in Hpre.
    rewrite (request_step st0 request Hc0 Hreq) in Hpre.
    now injection Hpre as <-.
  - intros sd next rest -> Hreq. now apply normalize_leading_request.
  - intros pre st sd -> Hpre Hc Hreq. unfold normalize.
    rewrite normalize_from_app, Hpre. simpl normalize_from.
    now rewrite (request_step st sd Hc Hreq).
Qed.

Lemma normalize_merge_partial_witness :
  normalize [Turn.mk USER CONTINUE None;
             Turn.mk ASSISTANT "time..." (Some "neutral")] = None /\
  normalize [Turn.mk USER "hi" None; Turn.mk USER CONTINUE None;
             Turn.mk USER "" None] = None /\
  normalize [Turn.mk USER "hi" None; Turn.mk USER CONTINUE None]
  = Some [Entry.mk USER "hi"].
Proof.
  split; [|split].
  - destruct (normalize_merge_partial
                [Turn.mk USER CONTINUE None;
                 Turn.mk ASSISTANT "time..." (Some "neutral")])
      as (_ & _ & Hlead & _).
    apply (Hlead _ _ _ eq_refl). split; [reflexivity | now left].
  - destruct (normalize_merge_partial
                [Turn.mk USER "hi" None; Turn.mk USER CONTINUE None;
                 Turn.mk USER "" None])
      as ((_ & Hraise) & _).
    apply Hraise.
    exists [Turn.mk USER "hi" None; Turn.mk USER CONTINUE None],
      (NormState [Entry.mk USER "hi"] true), (Turn.mk USER "" None), [].
    repeat split. now right.
  - destruct (normalize_merge_partial
                [Turn.mk USER "hi" None; Turn.mk USER CONTINUE None])
      as (_ & _ & _ & Hlast).
    apply (Hlast [Turn.mk USER "hi" None]
             (NormState [Entry.mk USER "hi"] false)
             (Turn.mk USER CONTINUE None));
      [reflexivity | reflexivity | reflexivity |
       split; [reflexivity | now left]].
Defined.

(** C9, as stated, fails: a store that holds nothing but the sentinel is
    normalised to the empty list; no [IndexError] is raised. *)
Lemma normalize_merge_partial_counterexample :
  ~ leading_request_raises_as_stated.
Proof.
  intros H. specialize (H (Turn.mk USER CONTINUE None) []).
  assert (Hn : normalize [Turn.mk USER CONTINUE None] = Some [])
    by reflexivity.
  rewrite H in Hn; [discriminate|]. split; [reflexivity | now left].
Qed.

End NormFacts.

(** ** The "continue" command *)

Module ChatFacts.
Import Const Py Props PyFacts Upd Session Exporting Chat NormProps NormFacts
  ChatProps.

Section Continue.

Variable PERSONALITIES : list (string * string).
Variable provider : request -> string + string.
Variable unmark : string -> string.



Lemma continue_empty c :
  session_data c = [] ->
  continue_message PERSONALITIES provider unmark c
  = (Returned, set_popups (popups c ++ [NothingToContinue]) c).
Proof. intros H. unfold Chat.continue_message. now rewrite H. Qed.

(** Any last role other than [assistant] and [user] is refused. *)
Lemma continue_not_continuable c sd :
  last (session_data c) = Some sd ->
  str_in (Turn.role sd) [ASSISTANT; USER] = false ->
  continue_message PERSONALITIES provider unmark c
  = (Returned, set_popups (popups c ++ [NotContinuable]) c).
Proof. intros Hl Hr. unfold Chat.continue_message. now rewrite Hl, Hr. Qed.

(** C5: "continue" on an empty store fails with [NothingToContinue], on a
    store whose last turn is a system turn with [NotContinuable]; either way
    the command returns without a provider request and with the store
    unchanged. *)
Theorem continue_failure_cases c failure :
  expected_failure c = Some failure ->
  rejected_with failure c (continue_message PERSONALITIES provider unmark c).
Proof.
  unfold expected_failure. intros H.
  destruct (last (session_data c)) as [sd|] eqn:Hl.
  - destruct (String.eqb_spec (Turn.role sd) SYSTEM) as [Hr|]; [|discriminate].
    injection H as <-.
    rewrite (continue_not_continuable c sd Hl) by now rewrite Hr.
    repeat split.
  - injection H as <-. apply last_None in Hl.
    rewrite (continue_empty c Hl). repeat split.
Qed.

Lemma format_chat_message_assistant c message add_space :
  session_data c <> [] ->
  format_chat_message c message (Some ASSISTANT_NAME) add_space
  = Some (NL +:+ ASSISTANT_NAME +:+ ": " +:+ message).
Proof.
  intros Hne. unfold format_chat_message. simpl truthy. cbv iota.
  destruct (session_data c); [contradiction | reflexivity].
Qed.

Lemma get_response_answered c sys text :
  system_message PERSONALITIES c = inl sys ->
  provider (continue_request sys c) = inl text ->
  get_response_from_chatgpt PERSONALITIES provider CONTINUE c
  = ((strip text, ASSISTANT),
     set_requests (requests c ++ [continue_request sys c])
       (set_session_data
          (session_data c ++ [Turn.mk USER CONTINUE None]) c)).
Proof.
  intros Hsys Hp.
  unfold get_response_from_chatgpt, create_completion_request.
  change (system_message PERSONALITIES
            (set_session_data
               (session_data c ++ [Turn.mk USER CONTINUE None]) c))
    with (system_message PERSONALITIES c).
  rewrite Hsys. simpl session_data. simpl max_tokens.
  fold (continue_request sys c). now rewrite Hp.
Qed.

Lemma save_current_session_frame c :
  session_data (save_current_session c) = session_data c /\
  requests (save_current_session c) = requests c /\
  chat_display (save_current_session c) = chat_display c.
Proof.
  unfold save_current_session.
  destruct (current_session c) as [name|];
    [destruct (truthy name && negb (temp_session_var c))|]; repeat split.
Qed.

(** "Continue" after a user turn, the provider answering: the sentinel and
    the reply are stored as two new turns, and the reply is shown as a new
    message of the assistant. *)
Lemma continue_user_last c sd sys text :
  last (session_data c) = Some sd -> Turn.role sd = USER ->
  system_message PERSONALITIES c = inl sys ->
  provider (continue_request sys c) = inl text ->
  let reply := unmark (strip (squeeze_nl (strip text))) in
  let r := continue_message PERSONALITIES provider unmark c in
  fst r = Returned /\
  session_data (snd r)
  = session_data c ++ [Turn.mk USER CONTINUE None;
                       Turn.mk ASSISTANT reply (Some (personality c))] /\
  requests (snd r) = requests c ++ [continue_request sys c] /\
  chat_display (snd r)
  = chat_display c +:+ NL +:+ ASSISTANT_NAME +:+ ": " +:+ strip reply.
Proof.
  intros Hl Hr Hsys Hp reply r. subst r.
  unfold Chat.continue_message. rewrite Hl, Hr. simpl negb. cbv iota.
  simpl String.eqb. cbv iota.
  unfold get_and_update_response.
  rewrite (get_response_answered c sys text Hsys Hp).
  fold reply. unfold update_chat_display.
  rewrite format_chat_message_assistant
    by (simpl session_data; destruct (session_data c); discriminate).
  match goal with |- context [save_current_session ?c1] =>
    set (shown := c1);
    destruct (save_current_session_frame shown) as (Hs & Hq & Hd) end.
  cbv beta iota delta [fst snd]. rewrite Hs, Hq, Hd. subst shown. simpl.
  rewrite <- !app_assoc. repeat split.
Qed.

End Continue.

Lemma continue_failure_cases_witness :
  (expected_failure init = Some NothingToContinue /\
   rejected_with NothingToContinue init
     (continue_message BUILTIN_PERSONALITIES (answering "Hello") no_marks init))
  /\
  (expected_failure failed_client = Some NotContinuable /\
   rejected_with NotContinuable failed_client
     (continue_message BUILTIN_PERSONALITIES (answering "Hello") no_marks
        failed_client)).
Proof.
  split; (split; [reflexivity|]).
  - apply (continue_failure_cases BUILTIN_PERSONALITIES (answering "Hello")
             no_marks init NothingToContinue). reflexivity.
  - apply (continue_failure_cases BUILTIN_PERSONALITIES (answering "Hello")
             no_marks failed_client NotContinuable). reflexivity.
Defined.

(** C3: on the store [user: "Tell me a story"] "continue" stores the
    sentinel and the reply as two new turns and shows the reply as a new
    message of the assistant, but the export normalisation joins the reply
    to the user's entry. *)
Theorem continue_after_user_is_merged_on_export :
  let r := continue_message BUILTIN_PERSONALITIES
             (answering "Once upon a time") no_marks story_client in
  fst r = Returned /\
  session_data (snd r)
  = [Turn.mk USER "Tell me a story" None;
     Turn.mk USER CONTINUE None;
     Turn.mk ASSISTANT "Once upon a time" (Some DEFAULT_PERSONALITY)] /\
  chat_display (snd r) = NL +:+ ASSISTANT_NAME +:+ ": Once upon a time" /\
  normalize (session_data (snd r))
  = Some [Entry.mk USER "Tell me a story Once upon a time"].
Proof. vm_compute. repeat split. Qed.

(** The export joins what follows a stored sentinel to the entry emitted
    last, whoever spoke it. *)
Lemma normalize_after_request pre init prev reply :
  normalize_from (NormState [] false) pre
  = Some (NormState (init ++ [prev]) false) ->
  Turn.content reply <> "" ->
  normalize (pre ++ [Turn.mk USER CONTINUE None; reply])
  = Some (init ++ [Entry.mk (Entry.role prev)
                     (Entry.content prev
                      +:+ (if begins_with_closing_punctuation (Turn.content reply)
                           then "" else " ")
                      +:+ Turn.content reply)]).
Proof.
  intros Hpre Hne. unfold normalize. rewrite normalize_from_app, Hpre.
  simpl normalize_from. unfold normalize_step at 1. simpl.
  rewrite add_space_when_needed_spec by exact Hne.
  now rewrite append_to_last_snoc.
Qed.

(** The display joins a continuation by the same rule. *)
Lemma display_join_rule message c :
  strip message <> "" ->
  update_chat_display message None true c
  = (Returned,
     set_chat_display
       (chat_display c
        +:+ (if begins_with_closing_punctuation (strip message)
             then "" else " ")
        +:+ strip message) c).
Proof.
  intros Hne. unfold update_chat_display, format_chat_message.
  now rewrite add_space_when_needed_spec by exact Hne.
Qed.

(** C6: every merge of a continuation joins the new content to the
    previous one with one blank, or with none when the new content begins
    with one of [. , ! ? : ;].  In the export, the normalisation merges the
    turn that follows a continuation request into the entry emitted last by
    this rule, and so does each of its merge steps; in the display,
    [format_chat_message] with [add_space] puts the same separator before
    the message, and [update_chat_display] appends the stripped message (of
    ASCII text) to what is shown by the same rule. *)
Theorem continuation_join_rule :
  (forall pre init prev request reply,
     normalize_from (NormState [] false) pre
     = Some (NormState (init ++ [prev]) false) ->
     continuation_request request ->
     Turn.content reply <> "" ->
     normalize (pre ++ [request; reply])
     = Some (init ++ [Entry.mk (Entry.role prev)
                        (joined (Entry.content prev) (Turn.content reply))]))
  /\
  (forall st sd st',
     is_continue st = true ->
     normalize_step st sd = Some st' ->
     exists init prev,
       data st = init ++ [prev] /\
       st' = NormState
               (init ++ [Entry.mk (Entry.role prev)
                           (joined (Entry.content prev) (Turn.content sd))])
               false)
  /\
  (forall c message,
     message <> "" ->
     format_chat_message c message None true = Some (joined "" message))
  /\
  (forall c message,
     isascii message = true -> strip message <> "" ->
     update_chat_display message None true c
     = (Returned,
        set_chat_display (joined (chat_display c) (strip message)) c)).
Proof.
  split; [|split; [|split]].
  - intros pre init prev request reply Hpre Hreq Hne.
    unfold normalize. rewrite normalize_from_app, Hpre.
    change (normalize_from (NormState (init ++ [prev]) false) [request; reply])
      with (match normalize_step (NormState (init ++ [prev]) false) request with
            | Some st1 =>
                match normalize_step st1 reply with
                | Some st2 => Some st2
                | None => None
                end
            | None => None
            end).
    rewrite (request_step (NormState (init ++ [prev]) false) request
               eq_refl Hreq).
    unfold normalize_step. simpl is_continue. cbv iota. simpl data.
    rewrite add_space_when_needed_spec by exact Hne.
    rewrite append_to_last_snoc. reflexivity.
  - exact merge_step_some.
  - intros c message Hne. unfold format_chat_message.
    rewrite add_space_when_needed_spec by exact Hne.
    unfold joined. now rewrite append_nil_l.
  - intros c message _ Hne. now apply display_join_rule.
Qed.

Lemma continuation_join_rule_witness :
  normalize [Turn.mk USER "Tell me a story" None;
             Turn.mk ASSISTANT "Once upon a" (Some "neutral");
             Turn.mk USER CONTINUE None;
             Turn.mk ASSISTANT "time" (Some "neutral");
             Turn.mk USER "" None;
             Turn.mk ASSISTANT ", long ago" (Some "neutral")]
  = Some [Entry.mk USER "Tell me a story";
          Entry.mk "neutral" "Once upon a time, long ago"] /\
  update_chat_display " time " None true
    (set_chat_display "MyPyGPT: Once upon a" init)
  = (Returned, set_chat_display "MyPyGPT: Once upon a time" init) /\
  update_chat_display ", long ago" None true
    (set_chat_display "MyPyGPT: Once upon a time" init)
  = (Returned, set_chat_display "MyPyGPT: Once upon a time, long ago" init).
Proof.
  destruct continuation_join_rule as (Hexport & _ & _ & Hshow).
  split; [|split].
  - pose proof (Hexport
      [Turn.mk USER "Tell me a story" None;
       Turn.mk ASSISTANT "Once upon a" (Some "neutral");
       Turn.mk USER CONTINUE None;
       Turn.mk ASSISTANT "time" (Some "neutral")]
      [Entry.mk USER "Tell me a story"]
      (Entry.mk "neutral" "Once upon a time")
      (Turn.mk USER "" None)
      (Turn.mk ASSISTANT ", long ago" (Some "neutral"))) as H.
    apply H; [reflexivity | split; [reflexivity | now right] | discriminate].
  - apply (Hshow (set_chat_display "MyPyGPT: Once upon a" init) " time ");
      [reflexivity | discriminate].
  - apply (Hshow (set_chat_display "MyPyGPT: Once upon a time" init)
             ", long ago"); [reflexivity | discriminate].
Defined.

End ChatFacts.

(** ** Session persistence *)

Module PersistFacts.
Import Const Py Props PyFacts Upd Path Session PersistProps.

Lemma same_settings_refl c : same_settings c c.
Proof. repeat split. Qed.

Lemma same_settings_trans a b c :
  same_settings a b -> same_settings b c -> same_settings a c.
Proof.
  unfold same_settings. intros H1 H2.
  destruct H1 as (?&?&?&?&?&?&?&?&?), H2 as (?&?&?&?&?&?&?&?&?).
  repeat split; congruence.
Qed.

Lemma update_chat_display_frame message sender add_space c o c' :
  update_chat_display message sender add_space c = (o, c') ->
  same_settings c c' /\ session_data c' = session_data c.
Proof.
  unfold update_chat_display.
  destruct (format_chat_message c (strip message) sender add_space);
    intros H; injection H as <- <-; repeat split.
Qed.

Lemma update_chat_display_returns message sender add_space c :
  add_space = false \/ truthy (strip message) = true ->
  fst (update_chat_display message sender add_space c) = Returned.
Proof.
  intros H. unfold update_chat_display, format_chat_message.
  assert (Ha : exists s,
    (if add_space then add_space_when_needed (strip message)
     else Some (strip message)) = Some s).
  { destruct H as [-> | Ht]; [eexists; reflexivity|].
    destruct add_space; [|eexists; reflexivity].
    destruct (strip message); [discriminate | eexists; reflexivity]. }
  destruct Ha as [s Hs].
  destruct sender as [sd|]; [destruct (truthy sd); [destruct (session_data c)|]|];
    try reflexivity; now rewrite Hs.
Qed.

Lemma ROLE_MAP_system role r :
  ROLE_MAP role = Some r ->
  String.eqb r SYSTEM_NAME = String.eqb role SYSTEM.
Proof.
  unfold ROLE_MAP.
  destruct (String.eqb_spec role USER) as [-> | _];
    [intros H; injection H as <-; reflexivity|].
  destruct (String.eqb_spec role ASSISTANT) as [-> | _];
    [intros H; injection H as <-; reflexivity|].
  destruct (String.eqb_spec role SYSTEM) as [-> | _];
    [intros H; injection H as <-; reflexivity | discriminate].
Qed.

Lemma ROLE_MAP_assistant_kept role :
  ROLE_MAP role = Some ASSISTANT_NAME -> String.eqb role SYSTEM = false.
Proof.
  intros H. rewrite <- (ROLE_MAP_system role ASSISTANT_NAME H). reflexivity.
Qed.

(** The load loop appends, in order, the kept turns of the part of the
    history it gets through, and touches nothing but the store and the
    display. *)
Lemma load_entries_appends entries : forall is_continued c o c',
  load_entries entries is_continued c = (o, c') ->
  same_settings c c' /\
  exists done rest,
    entries = done ++ rest /\
    session_data c' = session_data c ++ List.filter kept done /\
    (o = Returned -> rest = []).
Proof.
  induction entries as [|entry entries IH]; intros b c o c' H.
  - injection H as <- <-. split; [apply same_settings_refl|].
    exists [], []. repeat split. simpl. now rewrite app_nil_r.
  - simpl in H.
    destruct (ROLE_MAP (Turn.role entry)) as [role|] eqn:Hrole.
    2:{ injection H as <- <-. split; [apply same_settings_refl|].
        exists [], (entry :: entries). repeat split;
          [simpl; now rewrite app_nil_r | discriminate]. }
    pose proof (ROLE_MAP_system _ _ Hrole) as Hsys.
    assert (Hshow : forall (r : option string) (add_space b' : bool),
      kept entry = true ->
      (if match r with
          | Some r0 => String.eqb r0 USER_NAME
                       && String.eqb (Turn.content entry) CONTINUE
          | None => false
          end
       then load_entries entries true
              (set_session_data (session_data c ++ [entry]) c)
       else match update_chat_display (Turn.content entry) r add_space c with
            | (Raised e, c1) => (Raised e, c1)
            | (Returned, c1) =>
                load_entries entries b'
                  (set_session_data (session_data c1 ++ [entry]) c1)
            end) = (o, c') ->
      same_settings c c' /\
      exists done rest,
        entry :: entries = done ++ rest /\
        session_data c' = session_data c ++ List.filter kept done /\
        (o = Returned -> rest = [])).
    { intros r add_space b' Hk Hrun.
      assert (Hstep : forall bb c1,
        same_settings c c1 -> session_data c1 = session_data c ->
        load_entries entries bb
          (set_session_data (session_data c1 ++ [entry]) c1) = (o, c') ->
        same_settings c c' /\
        exists done rest,
          entry :: entries = done ++ rest /\
          session_data c' = session_data c ++ List.filter kept done /\
          (o = Returned -> rest = [])).
      { intros bb c1 Hs Hd Hl. apply IH in Hl.
        destruct Hl as [Hs' (done & rest & -> & Hsd & Hret)].
        split.
        - eapply same_settings_trans; [exact Hs|].
          eapply same_settings_trans; [|exact Hs']. repeat split.
        - exists (entry :: done), rest. split; [reflexivity|].
          split; [|exact Hret].
          rewrite Hsd. simpl session_data.
          change (List.filter kept (entry :: done))
            with (if kept entry then entry :: List.filter kept done
                  else List.filter kept done).
          rewrite Hk, Hd. now rewrite <- app_assoc. }
      destruct (match r with
                | Some r0 => String.eqb r0 USER_NAME
                             && String.eqb (Turn.content entry) CONTINUE
                | None => false
                end).
      - apply (Hstep true c); [apply same_settings_refl | reflexivity | exact Hrun].
      - destruct (update_chat_display (Turn.content entry) r add_space c)
          as [o1 c1] eqn:Hu.
        destruct (update_chat_display_frame _ _ _ _ _ _ Hu) as [Hs Hd].
        destruct o1 as [|e].
        + apply (Hstep b' c1 Hs Hd Hrun).
        + injection Hrun as <- <-. split; [exact Hs|].
          exists [], (entry :: entries). repeat split;
            [simpl; now rewrite app_nil_r, Hd | discriminate]. }
    destruct (String.eqb role ASSISTANT_NAME && b) eqn:Hab.
    + apply andb_true_iff in Hab. destruct Hab as [Ha _].
      apply String.eqb_eq in Ha. subst role.
      apply (Hshow None true false); [|exact H].
      unfold kept. now rewrite (ROLE_MAP_assistant_kept _ Hrole).
    + destruct (String.eqb role SYSTEM_NAME) eqn:Hs.
      * apply IH in H. destruct H as [Hs' (done & rest & -> & Hsd & Hret)].
        split; [exact Hs'|]. exists (entry :: done), rest.
        split; [reflexivity|]. split; [|exact Hret].
        change (List.filter kept (entry :: done))
          with (if kept entry then entry :: List.filter kept done
                else List.filter kept done).
        unfold kept at 1. rewrite <- Hsys. exact Hsd.
      * apply (Hshow (Some role) false b); [|exact H].
        unfold kept. now rewrite <- Hsys.
Qed.

Lemma ROLE_MAP_known role :
  ROLE_MAP role = None <-> str_in role [USER; ASSISTANT; SYSTEM] = false.
Proof.
  unfold ROLE_MAP, str_in. cbv [existsb].
  destruct (String.eqb role USER), (String.eqb role ASSISTANT),
    (String.eqb role SYSTEM); simpl; split; congruence.
Qed.

Lemma ROLE_MAP_names role r :
  ROLE_MAP role = Some r ->
  String.eqb r ASSISTANT_NAME = String.eqb role ASSISTANT /\
  String.eqb r USER_NAME = String.eqb role USER /\
  String.eqb r SYSTEM_NAME = String.eqb role SYSTEM.
Proof.
  unfold ROLE_MAP.
  destruct (String.eqb_spec role USER) as [-> | _];
    [intros H; injection H as <-; repeat split|].
  destruct (String.eqb_spec role ASSISTANT) as [-> | _];
    [intros H; injection H as <-; repeat split|].
  destruct (String.eqb_spec role SYSTEM) as [-> | _];
    [intros H; injection H as <-; repeat split | discriminate].
Qed.

Lemma filter_kept_cons entry l :
  List.filter kept (entry :: l)
  = if kept entry then entry :: List.filter kept l else List.filter kept l.
Proof. reflexivity. Qed.

Lemma load_entries_cons entry rest b c :
  load_entries (entry :: rest) b c
  = match ROLE_MAP (Turn.role entry) with
    | None => (Raised KeyError, c)
    | Some role =>
        let show (role : option string) (add_space is_continued : bool) :=
          if match role with
             | Some r => String.eqb r USER_NAME
                         && String.eqb (Turn.content entry) CONTINUE
             | None => false
             end
          then
            load_entries rest true
              (set_session_data (session_data c ++ [entry]) c)
          else
            match update_chat_display (Turn.content entry) role add_space c with
            | (Raised e, c') => (Raised e, c')
            | (Returned, c') =>
                load_entries rest is_continued
                  (set_session_data (session_data c' ++ [entry]) c')
            end in
        if String.eqb role ASSISTANT_NAME && b
        then show None true false
        else if String.eqb role SYSTEM_NAME
        then load_entries rest b c
        else show (Some role) false b
    end.
Proof. reflexivity. Qed.

Lemma load_stops_cons b t rest :
  load_stops b (t :: rest)
  = match raises_at b t with
    | Some e => Some ([], e)
    | None =>
        match load_stops (continued_past b t) rest with
        | Some (done, e) => Some (t :: done, e)
        | None => None
        end
    end.
Proof. reflexivity. Qed.

(** A message shown under a sender, or without [add_space], is shown
    whatever it is; the store is not touched. *)
Lemma update_chat_display_shown message sender add_space c :
  add_space = false \/ truthy (strip message) = true ->
  exists c',
    update_chat_display message sender add_space c = (Returned, c') /\
    session_data c' = session_data c.
Proof.
  intros H.
  pose proof (update_chat_display_returns message sender add_space c H) as Hr.
  destruct (update_chat_display message sender add_space c) as [o c'] eqn:Hu.
  simpl in Hr. subst o. exists c'. split; [reflexivity|].
  now destruct (update_chat_display_frame _ _ _ _ _ _ Hu).
Qed.

Lemma update_chat_display_blank message c :
  truthy (strip message) = false ->
  update_chat_display message None true c = (Raised IndexError, c).
Proof.
  intros H. apply truthy_false in H. unfold update_chat_display.
  rewrite H. reflexivity.
Qed.

(** One round of the load loop: it raises as [raises_at] says, or it goes
    on with the flag [continued_past] gives and the turn appended unless it
    is a system turn. *)
Lemma load_entries_step entry entries b c :
  match raises_at b entry with
  | Some e => load_entries (entry :: entries) b c = (Raised e, c)
  | None =>
      exists c1,
        load_entries (entry :: entries) b c
        = load_entries entries (continued_past b entry) c1 /\
        session_data c1
        = session_data c ++ (if kept entry then [entry] else [])
  end.
Proof.
  rewrite load_entries_cons. unfold raises_at, continued_past, kept.
  destruct (ROLE_MAP (Turn.role entry)) as [role|] eqn:Hrole.
  2:{ apply ROLE_MAP_known in Hrole. now rewrite Hrole. }
  assert (Hknown : str_in (Turn.role entry) [USER; ASSISTANT; SYSTEM] = true).
  { destruct (str_in (Turn.role entry) [USER; ASSISTANT; SYSTEM]) eqn:E;
      [reflexivity|]. apply ROLE_MAP_known in E. congruence. }
  rewrite Hknown. simpl negb. cbv iota zeta.
  destruct (ROLE_MAP_names _ _ Hrole) as (Ha & Hu & Hs).
  rewrite Ha, Hu, Hs.
  destruct (String.eqb_spec (Turn.role entry) ASSISTANT) as [Hra|_].
  - (* a turn of the assistant *)
    rewrite Hra. change (String.eqb ASSISTANT SYSTEM) with false.
    change (String.eqb ASSISTANT USER) with false.
    simpl negb. destruct b; simpl andb; cbv iota.
    + destruct (truthy (strip (Turn.content entry))) eqn:Hblank;
        simpl negb; cbv iota.
      * destruct (update_chat_display_shown (Turn.content entry) None true c)
          as (c1 & -> & Hc1); [now right|].
        eexists. split; [reflexivity|]. simpl. now rewrite Hc1.
      * now rewrite (update_chat_display_blank _ c Hblank).
    + destruct (update_chat_display_shown (Turn.content entry) (Some role)
                  false c) as (c1 & -> & Hc1); [now left|].
      eexists. split; [reflexivity|]. simpl. now rewrite Hc1.
  - simpl andb. cbv iota.
    destruct (String.eqb_spec (Turn.role entry) SYSTEM) as [Hrs|_].
    + (* a system turn is skipped *)
      rewrite Hrs. change (String.eqb SYSTEM USER) with false.
      simpl andb. simpl negb. cbv iota.
      exists c. split; [reflexivity | now rewrite app_nil_r].
    + simpl negb. cbv iota.
      destruct (String.eqb (Turn.role entry) USER
                && String.eqb (Turn.content entry) CONTINUE).
      * eexists. split; reflexivity.
      * destruct (update_chat_display_shown (Turn.content entry) (Some role)
                    false c) as (c1 & -> & Hc1); [now left|].
        eexists. split; [reflexivity|]. simpl. now rewrite Hc1.
Qed.

(** The load loop stops where [load_stops] says, with the kept turns it got
    through appended to the store. *)
Lemma load_entries_stops entries : forall b c,
  let r := load_entries entries b c in
  match load_stops b entries with
  | None =>
      fst r = Returned /\
      session_data (snd r) = session_data c ++ List.filter kept entries
  | Some (done, e) =>
      fst r = Raised e /\
      session_data (snd r) = session_data c ++ List.filter kept done
  end.
Proof.
  induction entries as [|entry entries IH]; intros b c r; subst r.
  - simpl. split; [reflexivity | now rewrite app_nil_r].
  - rewrite load_stops_cons.
    pose proof (load_entries_step entry entries b c) as Hstep.
    destruct (raises_at b entry) as [e|].
    + rewrite Hstep. simpl. split; [reflexivity | now rewrite app_nil_r].
    + destruct Hstep as (c1 & -> & Hc1).
      specialize (IH (continued_past b entry) c1). cbv zeta in IH.
      destruct (load_stops (continued_past b entry) entries) as [[done e]|];
        destruct IH as [Ho Hsd]; (split; [exact Ho|]);
        rewrite Hsd, Hc1, filter_kept_cons, <- app_assoc;
        now destruct (kept entry).
Qed.

(** [load_stops] names the first turn that raises. *)
Lemma load_stops_spec entries : forall b done e,
  load_stops b entries = Some (done, e) <->
  exists t rest,
    entries = done ++ t :: rest /\
    load_stops b done = None /\
    raises_at (fold_left continued_past done b) t = Some e.
Proof.
  induction entries as [|t entries IH]; intros b done e.
  - split; [discriminate|].
    intros (t & rest & H & _). destruct done; discriminate.
  - rewrite load_stops_cons. split.
    + destruct (raises_at b t) as [e0|] eqn:Hr.
      * intros H. injection H as <- <-. now exists t, entries.
      * destruct (load_stops (continued_past b t) entries) as [[d0 e0]|] eqn:Hl;
          [|discriminate].
        intros H. injection H as <- <-.
        apply IH in Hl. destruct Hl as (t' & rest & -> & Hd & Hr').
        exists t', rest. split; [reflexivity|].
        rewrite load_stops_cons, Hr, Hd. now split.
    + intros (t' & rest & H & Hd & Hr').
      destruct done as [|d done].
      * simpl in H, Hr'. injection H as <- <-. now rewrite Hr'.
      * simpl in H. injection H as <- ->.
        rewrite load_stops_cons in Hd. simpl in Hr'.
        destruct (raises_at b t) as [e0|]; [discriminate|].
        assert (Hx : load_stops (continued_past b t) (done ++ t' :: rest)
                     = Some (done, e)).
        { apply IH. exists t', rest. split; [reflexivity|]. split; [|exact Hr'].
          now destruct (load_stops (continued_past b t) done) as [[? ?]|]. }
        now rewrite Hx.
Qed.

Lemma load_params_spec data c :
  model (load_params data c) = default (model c) (d_model data) /\
  max_tokens (load_params data c) = default (max_tokens c) (d_max_tokens data) /\
  personality (load_params data c)
  = default (personality c) (d_personality data) /\
  add_sys_msg (load_params data c)
  = default (add_sys_msg c) (d_add_sys_msg data) /\
  session_data (load_params data c) = session_data c.
Proof.
  unfold load_params.
  destruct (d_model data), (d_personality data), (d_add_sys_msg data),
    (d_max_tokens data); repeat split.
Qed.

(** [load_session] on a file that holds a session document. *)
Lemma load_session_found c f picked data :
  files c !! f = Some (JsonFile data) -> truthy f = true ->
  load_session (Some f) picked c
  = load_entries (history data) false
      (delete_from_chat_end_all
         (set_current_session (Some (remove_all ".json" 0 (basename f)))
            (load_params data c))).
Proof.
  intros Hf Ht. unfold load_session.
  rewrite Hf, Ht. rewrite bool_decide_eq_true_2 by eauto.
  simpl andb. cbv iota. rewrite Ht. simpl negb. cbv iota. rewrite Hf.
  reflexivity.
Qed.

(** [load_session] on a file that holds a session document: where it
    stops, what it has appended by then, and the parameters it has set. *)
Lemma load_session_stops c f picked data :
  files c !! f = Some (JsonFile data) -> truthy f = true ->
  let r := load_session (Some f) picked c in
  match load_stops false (history data) with
  | None =>
      fst r = Returned /\
      session_data (snd r)
      = session_data c ++ List.filter kept (history data)
  | Some (done, e) =>
      fst r = Raised e /\
      session_data (snd r) = session_data c ++ List.filter kept done
  end /\
  model (snd r) = default (model c) (d_model data) /\
  max_tokens (snd r) = default (max_tokens c) (d_max_tokens data) /\
  personality (snd r) = default (personality c) (d_personality data) /\
  add_sys_msg (snd r) = default (add_sys_msg c) (d_add_sys_msg data).
Proof.
  intros Hf Ht r. subst r. rewrite (load_session_found c f picked data Hf Ht).
  set (c0 := delete_from_chat_end_all _).
  destruct (load_params_spec data c) as (Hm & Hx & Hp & Ha & Hsd).
  pose proof (load_entries_stops (history data) false c0) as Hstop.
  cbv zeta in Hstop.
  destruct (load_entries (history data) false c0) as [o c'] eqn:Hl.
  apply load_entries_appends in Hl.
  destruct Hl as [(Hm' & Hx' & Hp' & Ha' & _) _].
  assert (Hc0 : session_data c0 = session_data c) by exact Hsd.
  rewrite Hc0 in Hstop. split; [exact Hstop|].
  simpl snd. rewrite Hm', Hx', Hp', Ha'. subst c0. simpl. auto.
Qed.

(** C10: loading a session document (its replies ASCII text) into a client
    keeps the turns in memory and appends to them, in order, the turns of
    the document's history that are not system turns: all of them when the
    load returns, and those before the first turn that raises otherwise,
    which is the first turn with an unknown role ([KeyError]) or the first
    blank turn of the assistant shown as a continuation ([IndexError]);
    each generation parameter is overwritten only when the document has
    it. *)
Theorem load_session_appends c f picked data :
  files c !! f = Some (JsonFile data) -> truthy f = true ->
  ascii_replies (history data) = true ->
  let r := load_session (Some f) picked c in
  (load_stops false (history data) = None ->
     fst r = Returned /\
     session_data (snd r)
     = session_data c ++ List.filter kept (history data)) /\
  (forall done t rest e,
     history data = done ++ t :: rest ->
     load_stops false done = None ->
     raises_at (continued done) t = Some e ->
     fst r = Raised e /\
     session_data (snd r) = session_data c ++ List.filter kept done) /\
  (exists appended, session_data (snd r) = session_data c ++ appended) /\
  model (snd r) = default (model c) (d_model data) /\
  max_tokens (snd r) = default (max_tokens c) (d_max_tokens data) /\
  personality (snd r) = default (personality c) (d_personality data) /\
  add_sys_msg (snd r) = default (add_sys_msg c) (d_add_sys_msg data).
Proof.
  intros Hf Ht _ r.
  destruct (load_session_stops c f picked data Hf Ht) as [Hstop Hparams].
  fold r in Hstop, Hparams.
  split; [|split; [|split; [|exact Hparams]]].
  - intros Hnone. now rewrite Hnone in Hstop.
  - intros done t rest e Hh Hd Hr.
    assert (Hs : load_stops false (history data) = Some (done, e)).
    { apply load_stops_spec. now exists t, rest. }
    now rewrite Hs in Hstop.
  - destruct (load_stops false (history data)) as [[done e]|];
      destruct Hstop as [_ Hsd]; eexists; exact Hsd.
Qed.

Lemma save_current_session_files c name :
  current_session c = Some name -> truthy name = true ->
  temp_session_var c = false ->
  files (save_current_session c) !! session_path name
  = Some (JsonFile (snapshot c)).
Proof.
  intros Hn Ht Htemp. unfold save_current_session.
  rewrite Hn, Ht, Htemp. simpl. apply lookup_insert_eq.
Qed.

Lemma filter_kept_all l :
  forallb kept l = true -> List.filter kept l = l.
Proof.
  induction l as [|t l IH]; [reflexivity|].
  simpl. intros Hk. apply andb_true_iff in Hk. destruct Hk as [Ht Hk].
  rewrite Ht. now rewrite IH.
Qed.

(** C1: a non-temporary session (its replies ASCII text), saved and then
    loaded by a client with an empty store on the same disk, gives back the
    four generation parameters; the load returns exactly when no turn makes
    it raise, and then the store is the turn sequence without its system
    turns, the sequence itself when it has none; when a turn makes it raise,
    the store is what precedes that turn, without the system turns. *)
Theorem save_load_round_trip c name picked e :
  current_session c = Some name -> truthy name = true ->
  temp_session_var c = false ->
  ascii_replies (session_data c) = true ->
  files e = files (save_current_session c) ->
  session_data e = [] ->
  let r := load_session (Some (session_path name)) picked e in
  (model (snd r) = model c /\
   max_tokens (snd r) = max_tokens c /\
   personality (snd r) = personality c /\
   add_sys_msg (snd r) = add_sys_msg c) /\
  (fst r = Returned <-> load_stops false (session_data c) = None) /\
  (load_stops false (session_data c) = None ->
     session_data (snd r) = List.filter kept (session_data c) /\
     (forallb kept (session_data c) = true ->
        session_data (snd r) = session_data c)) /\
  (forall done t rest x,
     session_data c = done ++ t :: rest ->
     load_stops false done = None ->
     raises_at (continued done) t = Some x ->
     fst r = Raised x /\ session_data (snd r) = List.filter kept done).
Proof.
  intros Hn Ht Htemp _ Hdisk He r.
  assert (Hf : files e !! session_path name = Some (JsonFile (snapshot c))).
  { rewrite Hdisk. now apply save_current_session_files. }
  destruct (load_session_stops e (session_path name) picked (snapshot c) Hf
              eq_refl) as [Hstop Hparams].
  fold r in Hstop, Hparams.
  change (history (snapshot c)) with (session_data c) in Hstop.
  rewrite He in Hstop. simpl app in Hstop.
  split; [exact Hparams|]. split; [|split].
  - destruct (load_stops false (session_data c)) as [[done x]|];
      destruct Hstop as [Ho _]; rewrite Ho; split; congruence.
  - intros Hnone. rewrite Hnone in Hstop. destruct Hstop as [_ Hsd].
    split; [exact Hsd|]. intros Hk. rewrite Hsd. now apply filter_kept_all.
  - intros done t rest x Hh Hd Hr.
    assert (Hs : load_stops false (session_data c) = Some (done, x)).
    { apply load_stops_spec. now exists t, rest. }
    now rewrite Hs in Hstop.
Qed.

End PersistFacts.

Module PersistExamples.
Import Const Py Props PyFacts Upd Path Session PersistProps PersistFacts.

Lemma save_load_round_trip_witness :
  let c := greeting_session in
  let e := set_files (files (save_current_session c)) init in
  let r := load_session (Some (session_path "20250101120000")) "" e in
  (current_session c = Some "20250101120000" /\
   truthy "20250101120000" = true /\
   temp_session_var c = false /\
   ascii_replies (session_data c) = true /\
   files e = files (save_current_session c) /\
   session_data e = []) /\
  (model (snd r) = model c /\
   max_tokens (snd r) = max_tokens c /\
   personality (snd r) = personality c /\
   add_sys_msg (snd r) = add_sys_msg c) /\
  fst r = Returned /\
  session_data (snd r) = session_data c.
Proof.
  split; [repeat split|].
  destruct (save_load_round_trip greeting_session "20250101120000" ""
              (set_files (files (save_current_session greeting_session)) init)
              eq_refl eq_refl eq_refl eq_refl eq_refl eq_refl)
    as (Hparams & Hret & Hsd & _).
  split; [exact Hparams|]. split; [now apply Hret|].
  now apply Hsd.
Defined.

(** C1, as stated, fails: the session [user: "Tell me a story"] followed by
    the placeholder of a failed provider call is saved with both turns and
    loaded back with the first only. *)
Lemma save_load_round_trip_counterexample : ~ round_trip_as_stated.
Proof.
  intros H.
  destruct (H failed_session "20250101120000" "" eq_refl eq_refl eq_refl)
    as [Hsd _].
  rewrite (load_session_found _ _ _ (snapshot failed_session)) in Hsd.
  - vm_compute in Hsd. discriminate.
  - apply (save_current_session_files failed_session "20250101120000");
      reflexivity.
  - reflexivity.
Qed.

Lemma load_session_appends_witness :
  let c := set_session_data [Turn.mk USER "earlier" None] saved_replay in
  let f := "sessions/20250101120000.json" in
  let r := load_session (Some f) "" c in
  (files c !! f = Some (JsonFile (snapshot replay_session)) /\
   truthy f = true /\
   ascii_replies (history (snapshot replay_session)) = true) /\
  fst r = Raised IndexError /\
  session_data (snd r)
  = [Turn.mk USER "earlier" None;
     Turn.mk USER "Tell me a story" None;
     Turn.mk USER CONTINUE None] /\
  max_tokens (snd r) = 300.
Proof.
  assert (Hf : files saved_replay !! "sessions/20250101120000.json"
               = Some (JsonFile (snapshot replay_session)))
    by apply lookup_singleton_eq.
  split; [split; [exact Hf | split; reflexivity]|].
  destruct (load_session_appends
              (set_session_data [Turn.mk USER "earlier" None] saved_replay)
              "sessions/20250101120000.json" "" (snapshot replay_session)
              Hf eq_refl eq_refl)
    as (_ & Hraise & _ & _ & Hmax & _).
  destruct (Hraise
              [Turn.mk USER "Tell me a story" None;
               Turn.mk SYSTEM "Sorry, I couldn't process your request."
                 (Some DEFAULT_PERSONALITY);
               Turn.mk USER CONTINUE None]
              (Turn.mk ASSISTANT "  " (Some DEFAULT_PERSONALITY))
              [Turn.mk USER "thanks" None]
              IndexError eq_refl eq_refl eq_refl) as [Ho Hsd].
  split; [exact Ho|]. split; [exact Hsd | exact Hmax].
Defined.

(** C10, as stated, fails: the document's history has two turns, the second
    a system turn, and the load leaves one turn in the empty store. *)
Lemma load_session_appends_counterexample : ~ load_appends_as_stated.
Proof.
  intros H.
  assert (Hf : files saved_failed_session !! "sessions/20250101120000.json"
               = Some (JsonFile (snapshot failed_session)))
    by apply lookup_singleton_eq.
  specialize (H saved_failed_session "sessions/20250101120000.json" ""
                (snapshot failed_session) Hf eq_refl).
  rewrite (load_session_found _ _ _ _ Hf eq_refl) in H.
  vm_compute in H. discriminate.
Qed.

End PersistExamples.

(** ** Export: the plain-text variant and the choice of the variant *)

Module ExportFacts.
Import Const Py Props PyFacts Reflow ReflowFacts Upd Path Session Exporting
  ChatProps ExportProps.

Lemma widest_app m a b : widest m (a ++ b) = widest (widest m a) b.
Proof. unfold widest. now rewrite fold_left_app. Qed.

Lemma max_update (m k : Z) : (if (m <? k)%Z then k else m) = Z.max m k.
Proof. destruct (Z.ltb_spec m k); lia. Qed.

(** The running maximum of the inner loop is the widest closed line. *)
Lemma wrap_fold_maxlength ind n words : forall st,
  exists closed,
    outarr (fold_left (wrap_word ind n) words st) = outarr st ++ closed /\
    maxlength (fold_left (wrap_word ind n) words st)
    = widest (maxlength st) closed.
Proof.
  induction words as [|w words IH]; intros st.
  - exists []. simpl. now rewrite app_nil_r.
  - simpl fold_left. destruct (IH (wrap_word ind n st w)) as [closed [Ho Hm]].
    unfold wrap_word in Ho, Hm |- *.
    destruct (len (line2 st) + len w + 1 >? n); simpl in Ho, Hm.
    + exists (line2 st :: closed). rewrite Ho, Hm, max_update.
      split; [now rewrite <- app_assoc | reflexivity].
    + now exists closed.
Qed.

Lemma wrap_line_snd n acc line :
  snd (wrap_line n acc line) = widest (snd acc) (out_lines n line).
Proof.
  unfold wrap_line. simpl snd. rewrite max_update.
  rewrite <- (wrap_words_lines n (snd acc) line).
  unfold wrap_words.
  destruct (wrap_fold_maxlength (match_indent line) n (split line)
              (WrapState [] (match_indent line) (snd acc)))
    as [closed [Ho Hm]].
  simpl in Ho, Hm. rewrite Hm, Ho, widest_app. reflexivity.
Qed.

Lemma fold_wrap_line_snd n lines : forall acc,
  snd (fold_left (wrap_line n) lines acc)
  = widest (snd acc) (List.concat (map (out_lines n) lines)).
Proof.
  induction lines as [|line lines IH]; intros acc; [reflexivity|].
  simpl fold_left. rewrite IH, wrap_line_snd. simpl. now rewrite widest_app.
Qed.

(** The width [to_line_length] returns with a reflowed content is the
    length of the widest line of that text. *)
Lemma to_line_length_snd content n :
  snd (to_line_length (split_nl content) n)
  = widest 0 (split_nl (reflow content n)).
Proof.
  rewrite reflow_lines. unfold to_line_length. simpl snd.
  now rewrite fold_wrap_line_snd.
Qed.

Lemma widest_ge m ls : m <= widest m ls.
Proof.
  revert m. induction ls as [|l ls IH]; intros m; [apply Z.le_refl|].
  simpl. etransitivity; [|apply IH]. lia.
Qed.

Lemma len_repeat_dash k : 0 <= k -> len (repeat_str "-" k) = k.
Proof.
  intros Hk. unfold repeat_str. rewrite <- (Z2Nat.id k) at 2 by exact Hk.
  induction (Z.to_nat k) as [|j IH]; [reflexivity|].
  simpl Nat.iter. rewrite len_append, IH. change (len "-") with 1. lia.
Qed.

(** What the plain-text branch appends for a user entry: the reflowed
    content and a line of as many dashes as its widest line is long. *)
Lemma ptext_entry_user n fout content :
  ptext_entry n fout (Entry.mk USER content)
  = (fout +:+ reflow content n +:+ NL)
    +:+ repeat_str "-" (widest 0 (split_nl (reflow content n))) +:+ NL
  /\ len (repeat_str "-" (widest 0 (split_nl (reflow content n))))
     = widest 0 (split_nl (reflow content n)).
Proof.
  split; [|apply len_repeat_dash, widest_ge].
  unfold ptext_entry. simpl Entry.role. simpl Entry.content.
  rewrite to_line_length_snd. reflexivity.
Qed.

(** For an entry that is neither a user nor a system entry: the reflowed
    content and an empty line. *)
Lemma ptext_entry_other n fout role content :
  role <> USER -> role <> SYSTEM ->
  ptext_entry n fout (Entry.mk role content)
  = (fout +:+ reflow content n +:+ NL) +:+ NL.
Proof.
  intros Hu Hs. unfold ptext_entry. simpl Entry.role. simpl Entry.content.
  apply String.eqb_neq in Hu, Hs. now rewrite Hu, Hs.
Qed.

(** For a system entry: the reflowed content all the same, with nothing
    after it. *)
Lemma ptext_entry_system n fout content :
  ptext_entry n fout (Entry.mk SYSTEM content)
  = fout +:+ reflow content n +:+ NL.
Proof. reflexivity. Qed.

(** The Markdown branch leaves a system entry out. *)
Lemma markdown_entry_system fout content :
  markdown_entry fout (Entry.mk SYSTEM content) = fout.
Proof. reflexivity. Qed.

(** C4: the plain-text export writes the content of system entries.  The
    placeholder of a failed provider call, stored with the role [system], is
    normalised under its personality and exported like a reply; an entry of
    the normalised role [system] is written too, where the Markdown branch
    leaves it out. *)
Theorem plain_text_writes_system_entries :
  normalize (session_data failed_client)
  = Some [Entry.mk USER "Tell me a story";
          Entry.mk DEFAULT_PERSONALITY
            "Sorry, I couldn't process your request."] /\
  files (snd (export_session (Some "story.txt") accept_all failed_client))
    !! "story.txt"
  = Some (TextFile ("Tell me a story" +:+ NL +:+ "---------------" +:+ NL
                    +:+ "Sorry, I couldn't process your request." +:+ NL)) /\
  normalize [Turn.mk SYSTEM_NAME "Sorry" None] = Some [Entry.mk SYSTEM "Sorry"] /\
  export_ptext [Entry.mk SYSTEM "Sorry"] 60 = "Sorry" +:+ NL /\
  export_markdown [Entry.mk SYSTEM "Sorry"] = "".
Proof. vm_compute. repeat split. Qed.

(** No extension: the plain-text variant. *)
Lemma pick_extension_none session_file c :
  splitext_ext session_file = "" ->
  pick_extension session_file c = (PTEXT, c).
Proof. intros H. unfold pick_extension. now rewrite H. Qed.

(** An extension outside the list: the error dialog, and the method goes
    on to write a file that holds one newline. *)
Lemma export_to_unknown session_file a c data :
  str_in (lower (drop1 (splitext_ext session_file)))
    [FOUNTAIN; HTML; JSON; MARKDOWN; PTEXT; ""] = false ->
  normalize (session_data c) = Some data ->
  export_to session_file a c
  = (Returned,
     set_popups (popups c ++ [UnsupportedFormat; Exported])
       (set_files (<[session_file := TextFile NL]> (files c)) c)).
Proof.
  intros Hext Hn. unfold export_to, pick_extension. rewrite Hext. simpl negb.
  cbv iota. unfold str_in in Hext. simpl existsb in Hext.
  repeat (apply orb_false_iff in Hext; destruct Hext as [? Hext]).
  repeat match goal with H : String.eqb _ _ = false |- _ =>
    rewrite H; clear H end.
  simpl negb. cbv iota. simpl session_data. rewrite Hn.
  unfold popup_info. simpl. now rewrite <- app_assoc.
Qed.

(** C7: the export to [notes.xyz] shows the error dialog for the
    extension and then writes the file all the same, with one newline in it,
    and reports success. *)
Theorem export_unknown_extension_writes :
  let r := export_session (Some "notes.xyz") accept_all greeting_client in
  fst r = Returned /\
  popups (snd r) = [UnsupportedFormat; Exported] /\
  files greeting_client !! "notes.xyz" = None /\
  files (snd r) !! "notes.xyz" = Some (TextFile NL).
Proof. vm_compute. repeat split. Qed.

End ExportFacts.

(** ** Scenarios *)

Module Scenarios.
Import Const Py Reflow Session Exporting Chat ChatProps.

(** Greedy packing, not optimal packing. *)
Example reflow_greedy :
  split_nl (reflow "a bb ccc dddd" 6) = ["a bb"; "ccc"; "dddd"].
Proof. reflexivity. Qed.

(** A word as long as the width is pushed below an empty line. *)
Example reflow_word_of_full_width :
  split_nl (reflow "dddd" 4) = [""; "dddd"].
Proof. reflexivity. Qed.

(** The reply to a stored sentinel is joined to the assistant's entry. *)
Example normalize_story :
  normalize [Turn.mk USER "Tell me a story" None;
             Turn.mk ASSISTANT "Once upon a" None;
             Turn.mk USER CONTINUE None;
             Turn.mk ASSISTANT "time..." None]
  = Some [Entry.mk USER "Tell me a story";
          Entry.mk ASSISTANT "Once upon a time..."].
Proof. reflexivity. Qed.

(** Without the sentinel between them two assistant turns stay apart. *)
Example normalize_without_sentinel :
  normalize [Turn.mk USER "Tell me a story" None;
             Turn.mk ASSISTANT "Once upon a" None;
             Turn.mk ASSISTANT "time..." None]
  = Some [Entry.mk USER "Tell me a story";
          Entry.mk ASSISTANT "Once upon a";
          Entry.mk ASSISTANT "time..."].
Proof. reflexivity. Qed.

(** A failed provider call leaves the sentinel and a system turn. *)
Example continue_provider_fails :
  session_data
    (snd (continue_message BUILTIN_PERSONALITIES (failing "timeout") no_marks
            story_client))
  = [Turn.mk USER "Tell me a story" None;
     Turn.mk USER CONTINUE None;
     Turn.mk SYSTEM "Sorry, I couldn't process your request."
       (Some DEFAULT_PERSONALITY)].
Proof. reflexivity. Qed.

End Scenarios.

(** ** Reflow: what the engine keeps *)

Module ReflowKeeps.
Import Py Props PyFacts Reflow ReflowFacts ReflowWidth ReflowFixed ExportProps
  ExportFacts.

Lemma split_starts_word (c : ascii) (s : string) :
  isspace c = false -> split (String c s) <> [].
Proof.
  intros Hc. rewrite split_cons, Hc.
  destruct s as [|d s]; [discriminate|].
  destruct (isspace d); [discriminate|].
  destruct (split (String d s)); discriminate.
Qed.

(** [split] of two pieces that a whitespace character separates. *)
Lemma split_app_space (a : string) (c : ascii) (b : string) :
  isspace c = true -> split (a +:+ String c b) = split a ++ split b.
Proof.
  intros Hc. induction a as [|x a IH].
  - rewrite append_nil_l. now rewrite (split_space c b Hc).
  - rewrite append_cons, !split_cons.
    destruct (isspace x) eqn:Hx; [exact IH|].
    destruct a as [|y a].
    + rewrite append_nil_l, Hc. now rewrite (split_space c b Hc).
    + rewrite append_cons in IH |- *.
      destruct (isspace y) eqn:Hy; [now rewrite IH|].
      rewrite IH.
      pose proof (split_starts_word y a Hy) as Hne.
      destruct (split (String y a)) as [|w ws]; [contradiction | reflexivity].
Qed.

Lemma split_indented (ind s : string) :
  all_chars isspace ind = true -> split (ind +:+ s) = split s.
Proof.
  induction ind as [|c ind IH]; [reflexivity|].
  simpl all_chars. rewrite andb_true_iff. intros [Hc Hind].
  rewrite append_cons, (split_space c _ Hc). now apply IH.
Qed.

Lemma match_indent_spaces (line : string) :
  all_chars isspace (match_indent line) = true.
Proof.
  induction line as [|c line IH]; [reflexivity|]. simpl.
  destruct (isspace c) eqn:Hc; [|reflexivity]. simpl. now rewrite Hc.
Qed.

(** The words of the lines one source line is rendered to are the words of
    that line. *)
Lemma out_lines_words n line :
  List.concat (map split (out_lines n line)) = split line.
Proof.
  unfold out_lines, wrap_words.
  pose proof (match_indent_spaces line) as Hind.
  pose proof (split_words line) as Hws.
  set (ind := match_indent line) in *.
  assert (Hgen : forall words st seen,
    Forall word words ->
    List.concat (map split (outarr st)) ++ split (line2 st) = seen ->
    let st' := fold_left (wrap_word ind n) words st in
    List.concat (map split (outarr st')) ++ split (line2 st') = seen ++ words).
  { induction words as [|w words IH]; intros st seen Hw Hseen.
    - simpl. now rewrite app_nil_r.
    - inversion Hw as [|? ? Hw1 Hw2]. simpl fold_left.
      replace (seen ++ w :: words) with ((seen ++ [w]) ++ words)
        by now rewrite <- app_assoc.
      apply IH; [exact Hw2|]. rewrite <- Hseen. unfold wrap_word.
      destruct (len (line2 st) + len w + 1 >? n); simpl outarr; simpl line2.
      + rewrite map_app, concat_app. simpl map. simpl List.concat.
        rewrite app_nil_r, split_indented by exact Hind.
        now rewrite (split_word w Hw1).
      + destruct (line2 st) as [|ch l2] eqn:El.
        * simpl truthy. rewrite append_nil_l, (split_word w Hw1).
          simpl split. now rewrite app_nil_r.
        * replace (String ch l2 +:+
                   (if truthy (String ch l2) then " " +:+ w else w))
            with (String ch l2 +:+ String " "%char w) by reflexivity.
          rewrite split_app_space by reflexivity.
          now rewrite (split_word w Hw1), app_assoc. }
  assert (Hsi : split ind = []).
  { rewrite <- (append_nil_r ind). now rewrite split_indented. }
  specialize (Hgen (split line) (WrapState [] ind 0) [] Hws Hsi).
  simpl in Hgen.
  rewrite map_app, concat_app. simpl map. simpl List.concat.
  rewrite app_nil_r. exact Hgen.
Qed.

(** X1: on a content of ASCII text the reflow engine neither drops, nor
    splits, nor reorders a word: the words of the reflowed text, line after
    line, are the words of the content. *)
Theorem reflow_keeps_words content n :
  isascii content = true ->
  List.concat (map split (split_nl (reflow content n)))
  = List.concat (map split (split_nl content)).
Proof.
  intros _. rewrite reflow_lines.
  induction (split_nl content) as [|line lines IH]; [reflexivity|].
  simpl map. simpl List.concat. rewrite map_app, concat_app, IH.
  now rewrite out_lines_words.
Qed.

Lemma widest_bound m ls l : In l ls -> len l <= widest m ls.
Proof.
  revert m. induction ls as [|x ls IH]; intros m Hin; [contradiction|].
  simpl. destruct Hin as [<- | Hin].
  - etransitivity; [|apply widest_ge]. lia.
  - now apply IH.
Qed.

Lemma widest_attained m ls :
  widest m ls = m \/ exists l, In l ls /\ len l = widest m ls.
Proof.
  revert m. induction ls as [|x ls IH]; intros m; [now left|].
  simpl. destruct (IH (Z.max m (len x))) as [H | [l [Hin H]]].
  - rewrite H. destruct (Z.max_spec m (len x)) as [[_ ->] | [_ ->]].
    + right. exists x. split; [now left | reflexivity].
    + now left.
  - right. exists l. split; [now right | exact H].
Qed.

(** X2: the width [to_line_length] returns with a reflowed content of ASCII
    text bounds the length of every line of that text and is the length of
    one of them. *)
Theorem reflow_reports_widest_line content n :
  isascii content = true ->
  let m := snd (to_line_length (split_nl content) n) in
  (forall l, In l (split_nl (reflow content n)) -> len l <= m) /\
  (exists l, In l (split_nl (reflow content n)) /\ len l = m).
Proof.
  intros _ m. subst m. rewrite to_line_length_snd.
  set (ls := split_nl (reflow content n)).
  split; [intros l Hl; now apply widest_bound|].
  destruct (widest_attained 0 ls) as [H0 | H]; [|exact H].
  pose proof (split_nl_nonempty (reflow content n)) as Hne. fold ls in Hne.
  destruct ls as [|l ls'] eqn:E; [contradiction|].
  exists l. split; [now left|]. rewrite <- E in *.
  pose proof (widest_bound 0 ls l) as Hb. rewrite E in Hb at 1.
  specialize (Hb (or_introl eq_refl)). pose proof (len_nonneg l). lia.
Qed.

Lemma reflow_keeps_words_example :
  let content := "  a bb   ccc dddd" +:+ NL +:+ "eeeeeeee f" in
  isascii content = true /\
  reflow content 6
  = "   a" +:+ NL +:+ "  bb" +:+ NL +:+ "  ccc" +:+ NL +:+ "  dddd" +:+ NL
    +:+ NL +:+ "eeeeeeee" +:+ NL +:+ "f" /\
  List.concat (map split (split_nl (reflow content 6)))
  = ["a"; "bb"; "ccc"; "dddd"; "eeeeeeee"; "f"].
Proof.
  split; [reflexivity|]. split; [reflexivity|].
  exact (reflow_keeps_words
           ("  a bb   ccc dddd" +:+ NL +:+ "eeeeeeee f") 6 eq_refl).
Defined.

Lemma reflow_reports_widest_line_example :
  let content := "  a bb   ccc dddd" +:+ NL +:+ "eeeeeeee f" in
  isascii content = true /\
  snd (to_line_length (split_nl content) 6) = 8 /\
  (forall l, In l (split_nl (reflow content 6)) -> len l <= 8) /\
  (exists l, In l (split_nl (reflow content 6)) /\ len l = 8).
Proof.
  split; [reflexivity|]. split; [reflexivity|].
  exact (reflow_reports_widest_line
           ("  a bb   ccc dddd" +:+ NL +:+ "eeeeeeee f") 6 eq_refl).
Defined.

End ReflowKeeps.

(** ** Export normalisation: counts and contents *)

Module NormCounts.
Import Const Py Props PyFacts Session Exporting NormProps NormFacts MoreProps.

Lemma append_to_last_length extra d d' :
  append_to_last extra d = Some d' -> List.length d' = List.length d.
Proof.
  destruct d as [|prev init _] using rev_ind; [discriminate|].
  rewrite append_to_last_snoc. intros H. injection H as <-.
  now rewrite !length_app.
Qed.

(** One step of the loop emits at most one entry, and none for a request. *)
Lemma normalize_step_count st sd st' :
  normalize_step st sd = Some st' ->
  (List.length (data st') + (if is_request sd then 1 else 0)
   <= List.length (data st) + 1)%nat.
Proof.
  unfold normalize_step, is_request.
  destruct (is_continue st).
  - destruct (add_space_when_needed (Turn.content sd)) as [extra|];
      [|discriminate].
    destruct (append_to_last extra (data st)) as [d'|] eqn:E; [|discriminate].
    intros H. injection H as <-. simpl data.
    rewrite (append_to_last_length _ _ _ E).
    destruct (_ && _); lia.
  - destruct (String.eqb (Turn.role sd) USER) eqn:Hu.
    + destruct (str_in (Turn.content sd) [CONTINUE; ""]) eqn:Hs;
        intros H; injection H as <-; simpl data; rewrite ?length_app;
        simpl List.length; cbv [andb]; lia.
    + destruct (str_in (Turn.role sd) [DEBUG_NAME; SYSTEM_NAME; PROMPT_NAME]);
        intros H; injection H as <-; simpl data; rewrite length_app;
        simpl List.length; cbv [andb]; lia.
Qed.

Lemma normalize_from_count l : forall st st',
  normalize_from st l = Some st' ->
  (List.length (data st') + List.length (List.filter is_request l)
   <= List.length (data st) + List.length l)%nat.
Proof.
  induction l as [|sd l IH]; intros st st' H.
  - injection H as <-. simpl. lia.
  - simpl in H. destruct (normalize_step st sd) as [st1|] eqn:E;
      [|discriminate].
    apply IH in H. apply normalize_step_count in E.
    simpl List.filter. simpl List.length.
    destruct (is_request sd); simpl List.length; lia.
Qed.

(** X5: the normalisation emits no entry for a continuation request: the
    entries and the requests together are at most as many as the turns, so
    the entries are fewer than the turns as soon as the store holds a
    request. *)
Theorem normalize_count session_data d :
  normalize session_data = Some d ->
  (List.length d + List.length (List.filter is_request session_data)
   <= List.length session_data)%nat.
Proof.
  unfold normalize. intros H.
  destruct (normalize_from (NormState [] false) session_data) as [st|] eqn:E;
    [|discriminate].
  injection H as <-. apply normalize_from_count in E. simpl in E. lia.
Qed.

Lemma normalize_count_example :
  let session_data :=
    [Turn.mk USER "Tell me a story" None;
     Turn.mk ASSISTANT "Once upon a" None;
     Turn.mk USER CONTINUE None;
     Turn.mk ASSISTANT "time..." None] in
  let d := [Entry.mk USER "Tell me a story";
            Entry.mk ASSISTANT "Once upon a time..."] in
  normalize session_data = Some d /\
  (List.length d + List.length (List.filter is_request session_data)
   <= List.length session_data)%nat.
Proof.
  split; [reflexivity|].
  apply (normalize_count
           [Turn.mk USER "Tell me a story" None;
            Turn.mk ASSISTANT "Once upon a" None;
            Turn.mk USER CONTINUE None;
            Turn.mk ASSISTANT "time..." None]).
  reflexivity.
Defined.

Lemma normalize_from_plain l : forall d0,
  forallb (fun sd => negb (is_request sd)) l = true ->
  exists d,
    normalize_from (NormState d0 false) l = Some (NormState (d0 ++ d) false) /\
    map Entry.content d = map Turn.content l.
Proof.
  induction l as [|sd l IH]; intros d0 H.
  - exists []. simpl. now rewrite app_nil_r.
  - simpl in H. apply andb_true_iff in H. destruct H as [Hsd Hl].
    apply negb_true_iff in Hsd. unfold is_request in Hsd.
    assert (Hstep : exists role,
      normalize_step (NormState d0 false) sd
      = Some (NormState (d0 ++ [Entry.mk role (Turn.content sd)]) false)).
    { unfold normalize_step. simpl is_continue. simpl data.
      destruct (String.eqb (Turn.role sd) USER); cbv [andb] in Hsd.
      - rewrite Hsd. eexists; reflexivity.
      - destruct (str_in (Turn.role sd) [DEBUG_NAME; SYSTEM_NAME; PROMPT_NAME]);
          eexists; reflexivity. }
    destruct Hstep as [role Hstep].
    destruct (IH (d0 ++ [Entry.mk role (Turn.content sd)]) Hl) as [d [Hd Hc]].
    exists (Entry.mk role (Turn.content sd) :: d). split.
    + simpl normalize_from. rewrite Hstep, Hd. now rewrite <- app_assoc.
    + simpl. now rewrite Hc.
Qed.

(** X6: a store without a continuation request is normalised without an
    exception to one entry per turn, in order and with the contents as they
    are. *)
Theorem normalize_without_requests session_data :
  forallb (fun sd => negb (is_request sd)) session_data = true ->
  exists d,
    normalize session_data = Some d /\
    map Entry.content d = map Turn.content session_data.
Proof.
  intros H. destruct (normalize_from_plain session_data [] H) as [d [Hd Hc]].
  exists d. unfold normalize. rewrite Hd. now split.
Qed.

Lemma normalize_without_requests_example :
  let session_data :=
    [Turn.mk USER "hi" None;
     Turn.mk ASSISTANT "hello" (Some "neutral");
     Turn.mk SYSTEM "Sorry, I couldn't process your request." (Some "neutral")] in
  forallb (fun sd => negb (is_request sd)) session_data = true /\
  exists d,
    normalize session_data = Some d /\
    map Entry.content d = map Turn.content session_data.
Proof.
  split; [reflexivity|].
  apply (normalize_without_requests
           [Turn.mk USER "hi" None;
            Turn.mk ASSISTANT "hello" (Some "neutral");
            Turn.mk SYSTEM "Sorry, I couldn't process your request."
              (Some "neutral")]).
  reflexivity.
Defined.

End NormCounts.

(** ** Export: refusals, the structured record, the variants without a
    writer *)

Module ExportMore.
Import Const Py Props PyFacts Upd Path Session Exporting ChatProps ExportProps
  ExportFacts MoreProps.

(** X7: an existing destination that the user does not want overwritten is
    left alone, and so is the client. *)
Theorem export_declined c name a :
  session_data c <> [] -> truthy name = true ->
  is_Some (files c !! name) -> overwrite a = false ->
  export_session (Some name) a c = (Returned, c).
Proof.
  intros Hd Hn Hf Ho. unfold export_session.
  destruct (session_data c) as [|sd l]; [contradiction|].
  cbv beta iota zeta. rewrite Hn. cbv iota.
  rewrite Hn, (bool_decide_eq_true_2 _ Hf), Ho. reflexivity.
Qed.

Lemma export_declined_example :
  let c := set_files {[ "story.txt" := TextFile "kept" ]} greeting_client in
  let a := Answers "" "" false None in
  (session_data c <> [] /\ truthy "story.txt" = true /\
   is_Some (files c !! "story.txt") /\ overwrite a = false) /\
  export_session (Some "story.txt") a c = (Returned, c).
Proof.
  assert (Hf : is_Some
    (files (set_files {[ "story.txt" := TextFile "kept" ]} greeting_client)
       !! "story.txt")).
  { exists (TextFile "kept"). apply lookup_singleton_eq. }
  split;
    [split; [discriminate | split; [reflexivity | split;
       [exact Hf | reflexivity]]]|].
  apply export_declined; [discriminate | reflexivity | exact Hf | reflexivity].
Defined.

(** X8: the structured-record export to a file of the working directory
    does not normalise: whatever the store holds, it returns and writes the
    document [save_current_session] writes. *)
Theorem export_json_writes_snapshot session_file a c :
  file_name session_file = true ->
  lower (drop1 (splitext_ext session_file)) = JSON ->
  export_to session_file a c
  = (Returned,
     set_popups (popups c ++ [Exported])
       (set_files (<[session_file := JsonFile (snapshot c)]> (files c)) c)).
Proof.
  intros _ Hext. unfold export_to, pick_extension. rewrite Hext. reflexivity.
Qed.

Lemma export_json_writes_snapshot_example :
  let c := set_session_data [Turn.mk USER CONTINUE None;
                             Turn.mk ASSISTANT "x" None] init in
  (file_name "raw.JSON" = true /\
   lower (drop1 (splitext_ext "raw.JSON")) = JSON) /\
  normalize (session_data c) = None /\
  export_to "raw.JSON" accept_all c
  = (Returned,
     set_popups (popups c ++ [Exported])
       (set_files (<["raw.JSON" := JsonFile (snapshot c)]> (files c)) c)).
Proof.
  split; [split; reflexivity|]. split; [reflexivity|].
  apply export_json_writes_snapshot; reflexivity.
Defined.

(** X9: the kinds that are accepted but have no writer, [fountain] and [html],
    exported to a file of the working directory: the file gets a single
    newline and the export reports success, with no error dialog. *)
Theorem export_without_writer session_file a c data :
  file_name session_file = true ->
  lower (drop1 (splitext_ext session_file)) = FOUNTAIN \/
  lower (drop1 (splitext_ext session_file)) = HTML ->
  normalize (session_data c) = Some data ->
  export_to session_file a c
  = (Returned,
     set_popups (popups c ++ [Exported])
       (set_files (<[session_file := TextFile NL]> (files c)) c)).
Proof.
  intros _ Hext Hn. unfold export_to, pick_extension.
  destruct Hext as [-> | ->]; simpl; now rewrite Hn.
Qed.

Lemma export_without_writer_example :
  (file_name "story.html" = true /\
   (lower (drop1 (splitext_ext "story.html")) = FOUNTAIN \/
    lower (drop1 (splitext_ext "story.html")) = HTML)) /\
  normalize (session_data greeting_client)
  = Some [Entry.mk USER "hi"; Entry.mk DEFAULT_PERSONALITY "hello"] /\
  export_to "story.html" accept_all greeting_client
  = (Returned,
     set_popups (popups greeting_client ++ [Exported])
       (set_files (<["story.html" := TextFile NL]> (files greeting_client))
          greeting_client)).
Proof.
  split; [split; [reflexivity | now right]|]. split; [reflexivity|].
  apply (export_without_writer "story.html" accept_all greeting_client
           [Entry.mk USER "hi"; Entry.mk DEFAULT_PERSONALITY "hello"]);
    [reflexivity | now right | reflexivity].
Defined.

(** X10: a store the normalisation raises on is not exported by any variant but
    the structured record: the export raises [IndexError] and writes no
    file. *)
Theorem export_raises_writes_nothing session_file a c :
  lower (drop1 (splitext_ext session_file)) <> JSON ->
  normalize (session_data c) = None ->
  fst (export_to session_file a c) = Raised IndexError /\
  files (snd (export_to session_file a c)) = files c /\
  session_data (snd (export_to session_file a c)) = session_data c.
Proof.
  intros Hext Hn. unfold export_to, pick_extension.
  apply String.eqb_neq in Hext.
  destruct (negb (str_in (lower (drop1 (splitext_ext session_file)))
                    [FOUNTAIN; HTML; JSON; MARKDOWN; PTEXT; ""])).
  - rewrite Hext. simpl negb. cbv iota. simpl session_data. rewrite Hn.
    repeat split.
  - destruct (negb (truthy (lower (drop1 (splitext_ext session_file))))).
    + simpl. rewrite Hn. repeat split.
    + rewrite Hext. simpl negb. cbv iota. rewrite Hn. repeat split.
Qed.

Lemma export_raises_writes_nothing_example :
  let c := set_session_data [Turn.mk USER CONTINUE None;
                             Turn.mk ASSISTANT "x" None] init in
  (lower (drop1 (splitext_ext "story.md")) <> JSON /\
   normalize (session_data c) = None) /\
  fst (export_to "story.md" accept_all c) = Raised IndexError /\
  files (snd (export_to "story.md" accept_all c)) = files c /\
  session_data (snd (export_to "story.md" accept_all c)) = session_data c.
Proof.
  split; [split; [discriminate | reflexivity]|].
  apply export_raises_writes_nothing; [discriminate | reflexivity].
Defined.

End ExportMore.

(** ** Persistence: the session name, and files that hold no document *)

Module PersistMore.
Import Const Py Props PyFacts Upd Path Session PersistProps PersistFacts ExportProps
  MoreProps.

Lemma basename_cons (ch : ascii) (rest : string) :
  basename (String ch rest)
  = if all_chars (fun d => negb (is_sep d)) (String ch rest)
    then String ch rest else basename rest.
Proof. reflexivity. Qed.

Lemma basename_plain (s : string) :
  all_chars (fun d => negb (is_sep d)) s = true -> basename s = s.
Proof.
  intros H. destruct s as [|ch s]; [reflexivity|].
  now rewrite basename_cons, H.
Qed.

(** What follows the last separator is the base name. *)
Lemma basename_after_sep (dir s : string) :
  all_chars (fun d => negb (is_sep d)) s = true ->
  basename (dir +:+ String "/"%char s) = s.
Proof.
  intros H. induction dir as [|ch dir IH].
  - rewrite append_nil_l, basename_cons. simpl all_chars.
    now apply basename_plain.
  - rewrite append_cons, basename_cons.
    assert (Hno : all_chars (fun d => negb (is_sep d))
                    (String ch (dir +:+ String "/"%char s)) = false).
    { simpl all_chars. rewrite all_chars_append. simpl all_chars.
      now rewrite !andb_false_r. }
    now rewrite Hno.
Qed.

Lemma basename_of_session_path (s : string) :
  all_chars (fun d => negb (is_sep d)) s = true ->
  basename ("sessions/" +:+ s) = s.
Proof. intros H. now apply (basename_after_sep "sessions" s). Qed.

Lemma remove_json_suffix (name : string) :
  all_chars (fun ch => negb (is_dot ch)) name = true ->
  remove_all ".json" 0 (name +:+ ".json") = name.
Proof.
  induction name as [|ch name IH]; [reflexivity|].
  simpl all_chars. rewrite andb_true_iff. intros [Hc Hn].
  rewrite append_cons. unfold is_dot in Hc. apply negb_true_iff in Hc.
  cbn [remove_all String.prefix]. 
  destruct (ascii_dec "."%char ch) as [<- | _];
    [now rewrite Ascii.eqb_refl in Hc|].
  now rewrite (IH Hn).
Qed.

Lemma file_name_char_no_sep (ch : ascii) :
  file_name_char ch = true -> negb (is_sep ch) = true.
Proof.
  destruct ch as [[] [] [] [] [] [] [] []]; (reflexivity || discriminate).
Qed.

Lemma plain_name_split (name : string) :
  plain_name name = true ->
  all_chars (fun ch => negb (is_dot ch)) name = true /\
  all_chars (fun d => negb (is_sep d)) name = true.
Proof.
  unfold plain_name. intros H. split;
    (eapply all_chars_weaken; [|exact H]); intros ch Hc;
    apply andb_true_iff in Hc; destruct Hc as [Hf Hd]; [exact Hd|].
  now apply file_name_char_no_sep.
Qed.

Lemma session_name_round_trip (name : string) :
  plain_name name = true ->
  remove_all ".json" 0 (basename (session_path name)) = name.
Proof.
  intros H. destruct (plain_name_split name H) as [Hdot Hsep].
  unfold session_path. rewrite basename_of_session_path.
  - now apply remove_json_suffix.
  - rewrite all_chars_append, Hsep. reflexivity.
Qed.

(** X11: a session saved under a plain name (characters every file system
    takes, none of them a separator or a dot) and loaded from its file is
    the current session under that name again, whatever the load does with
    the history. *)
Theorem load_restores_session_name c name picked e :
  current_session c = Some name -> truthy name = true ->
  temp_session_var c = false -> plain_name name = true ->
  files e = files (save_current_session c) ->
  current_session (snd (load_session (Some (session_path name)) picked e))
  = Some name.
Proof.
  intros Hn Ht Htemp Hplain Hdisk.
  assert (Hf : files e !! session_path name = Some (JsonFile (snapshot c))).
  { rewrite Hdisk. now apply save_current_session_files. }
  rewrite (load_session_found e _ picked _ Hf eq_refl).
  destruct (load_entries _ _ _) as [o c'] eqn:Hl.
  apply load_entries_appends in Hl.
  destruct Hl as [(_ & _ & _ & _ & Hcur & _) _].
  simpl snd. rewrite Hcur.
  change (Some (remove_all ".json" 0 (basename (session_path name)))
          = Some name).
  now rewrite session_name_round_trip.
Qed.

Lemma load_restores_session_name_example :
  let c := greeting_session in
  let e := set_files (files (save_current_session c)) init in
  (current_session c = Some "20250101120000" /\
   truthy "20250101120000" = true /\
   temp_session_var c = false /\ plain_name "20250101120000" = true /\
   files e = files (save_current_session c)) /\
  current_session
    (snd (load_session (Some (session_path "20250101120000")) "" e))
  = Some "20250101120000".
Proof.
  split; [repeat split|].
  apply (load_restores_session_name greeting_session "20250101120000" ""
           (set_files (files (save_current_session greeting_session)) init));
    reflexivity.
Defined.

(** X12: without a session document to read, [load_session] changes nothing:
    it returns when the dialog is cancelled and raises otherwise (the file
    is missing or is no JSON document). *)
Theorem load_session_without_document c picked :
  (forall data, files c !! picked <> Some (JsonFile data)) ->
  snd (load_session None picked c) = c /\
  (fst (load_session None picked c) = Returned <-> picked = "").
Proof.
  intros H. unfold load_session.
  destruct picked as [|ch picked]; [now split|].
  simpl truthy. simpl negb. cbv iota.
  destruct (files c !! String ch picked) as [[data|s]|] eqn:E.
  - now destruct (H data).
  - split; [reflexivity|]. split; discriminate.
  - split; [reflexivity|]. split; discriminate.
Qed.

Lemma load_session_without_document_example :
  let c := set_files {[ "notes.txt" := TextFile "hello" ]} greeting_client in
  (forall data, files c !! "notes.txt" <> Some (JsonFile data)) /\
  snd (load_session None "notes.txt" c) = c /\
  (fst (load_session None "notes.txt" c) = Returned <-> "notes.txt" = "").
Proof.
  assert (H : forall data,
    files (set_files {[ "notes.txt" := TextFile "hello" ]} greeting_client)
      !! "notes.txt" <> Some (JsonFile data)).
  { intros data. simpl files. rewrite lookup_singleton_eq. discriminate. }
  split; [exact H|]. exact (load_session_without_document _ "notes.txt" H).
Defined.

End PersistMore.

(** ** The provider round trip *)

Module RoundTrip.
Import Const Py Props PyFacts Upd Path Session Exporting Chat Commands Sending
  ChatProps PersistProps PersistFacts ChatFacts MoreProps.

Section Provider.

Variable PERSONALITIES : list (string * string).
Variable provider : request -> string + string.
Variable unmark : string -> string.

(** What [get_response_from_chatgpt] leaves: the user turn in the store,
    and either a reply of the assistant with one more request in the log or
    the placeholder of the system with an error dialog; nothing else. *)
Lemma get_response_effects message c :
  let r := get_response_from_chatgpt PERSONALITIES provider message c in
  session_data (snd r) = session_data c ++ [Turn.mk USER message None] /\
  same_settings_but_popups c (snd r) /\
  chat_display (snd r) = chat_display c /\
  ((snd (fst r) = ASSISTANT /\ popups (snd r) = popups c) \/
   (fst r = (PLACEHOLDER, SYSTEM) /\
    exists e, popups (snd r)
              = popups c ++ [Popup "Error" ("An error occurred: " +:+ e) true])).
Proof.
  unfold get_response_from_chatgpt, create_completion_request.
  change (system_message PERSONALITIES
            (set_session_data (session_data c ++ [Turn.mk USER message None]) c))
    with (system_message PERSONALITIES c).
  destruct (system_message PERSONALITIES c) as [sys | e].
  - match goal with |- context [provider ?rq] =>
      destruct (provider rq) as [text | e] end.
    + simpl. repeat split. left. now split.
    + simpl. repeat split. right. split; [reflexivity|]. now exists e.
  - simpl. repeat split. right. split; [reflexivity|]. now exists e.
Qed.

Lemma placeholder_stored :
  strip (squeeze_nl PLACEHOLDER) = PLACEHOLDER.
Proof. reflexivity. Qed.

(** [get_and_update_response] up to the display: the store has the user
    turn and the reply turn, the settings and the files are as before. *)
Lemma round_trip_shape message sender add_space c :
  exists c2 sender' receiver response,
    get_and_update_response PERSONALITIES provider unmark message sender
      add_space c
    = match update_chat_display response sender' add_space c2 with
      | (Raised e, c3) => (Raised e, c3)
      | (Returned, c3) => (Returned, save_current_session c3)
      end /\
    session_data c2
    = session_data c ++ [Turn.mk USER message None;
                         Turn.mk receiver response (Some (personality c))] /\
    same_settings_but_popups c c2 /\
    ((receiver = ASSISTANT /\ popups c2 = popups c) \/
     (receiver = SYSTEM /\ response = unmark PLACEHOLDER /\
      exists e, popups c2
                = popups c ++ [Popup "Error" ("An error occurred: " +:+ e) true])).
Proof.
  unfold get_and_update_response.
  pose proof (get_response_effects message c) as H. cbv zeta in H.
  destruct (get_response_from_chatgpt PERSONALITIES provider message c)
    as [[resp recv] c1].
  simpl fst in H. simpl snd in H.
  destruct H as (Hsd & Hset & _ & Hcase).
  destruct Hset as (Hm & Hx & Hp & Ha & Hcur & Htemp & Hf).
  eexists _, _, recv, (unmark (strip (squeeze_nl resp))).
  split; [reflexivity|]. simpl session_data.
  split; [now rewrite Hsd, Hp, <- app_assoc|].
  split; [repeat split; assumption|].
  destruct Hcase as [[Hr Hpop] | [Hr [e Hpop]]].
  - left. now split.
  - right. injection Hr as -> ->. split; [reflexivity|].
    split; [now rewrite placeholder_stored|]. now exists e.
Qed.

Lemma save_current_session_settings c :
  session_data (save_current_session c) = session_data c /\
  model (save_current_session c) = model c /\
  max_tokens (save_current_session c) = max_tokens c /\
  personality (save_current_session c) = personality c /\
  add_sys_msg (save_current_session c) = add_sys_msg c /\
  current_session (save_current_session c) = current_session c /\
  temp_session_var (save_current_session c) = temp_session_var c /\
  popups (save_current_session c) = popups c.
Proof.
  unfold save_current_session.
  destruct (current_session c) as [name|] eqn:E;
    [destruct (truthy name && negb (temp_session_var c))|];
    repeat split; exact E.
Qed.

Lemma round_trip_store message sender add_space c :
  exists receiver response,
    session_data
      (snd (get_and_update_response PERSONALITIES provider unmark message
              sender add_space c))
    = session_data c ++ [Turn.mk USER message None;
                         Turn.mk receiver response (Some (personality c))] /\
    (receiver = ASSISTANT \/
     (receiver = SYSTEM /\ response = unmark PLACEHOLDER)).
Proof.
  destruct (round_trip_shape message sender add_space c)
    as (c2 & sender' & receiver & response & -> & Hsd & _ & Hcase).
  exists receiver, response. split.
  - destruct (update_chat_display response sender' add_space c2)
      as [o c3] eqn:Hu.
    destruct (update_chat_display_frame _ _ _ _ _ _ Hu) as [_ Hd].
    destruct o; simpl snd.
    + destruct (save_current_session_settings c3) as [-> _]. congruence.
    + congruence.
  - destruct Hcase as [[Hr _] | [Hr [Hresp _]]]; [now left | now right].
Qed.

(** X13: every provider round trip appends exactly two turns to the store, the
    user's message and then either the reply of the assistant or the
    placeholder as a system turn, and leaves the turns before them as they
    were; also when the display raises. *)
Theorem round_trip_appends_two_turns message sender add_space c :
  exists receiver response,
    session_data
      (snd (get_and_update_response PERSONALITIES provider unmark message
              sender add_space c))
    = session_data c ++ [Turn.mk USER message None;
                         Turn.mk receiver response (Some (personality c))] /\
    (receiver = ASSISTANT \/
     (receiver = SYSTEM /\ response = unmark PLACEHOLDER)).
Proof. exact (round_trip_store message sender add_space c). Qed.

Lemma round_trip_saved message sender add_space c name :
  current_session c = Some name -> truthy name = true ->
  temp_session_var c = false ->
  let r := get_and_update_response PERSONALITIES provider unmark message
             sender add_space c in
  fst r = Returned ->
  files (snd r) !! session_path name = Some (JsonFile (snapshot (snd r))).
Proof.
  intros Hn Ht Htemp r. subst r.
  destruct (round_trip_shape message sender add_space c)
    as (c2 & sender' & receiver & response & -> & _ & Hset & _).
  destruct Hset as (_ & _ & _ & _ & Hcur & Htmp & _).
  destruct (update_chat_display response sender' add_space c2)
    as [o c3] eqn:Hu.
  destruct (update_chat_display_frame _ _ _ _ _ _ Hu) as [Hs _].
  destruct Hs as (_ & _ & _ & _ & Hcur3 & Htmp3 & _).
  destruct o; [|discriminate]. intros _. simpl snd.
  assert (Hfile : files (save_current_session c3) !! session_path name
                  = Some (JsonFile (snapshot c3))).
  { apply save_current_session_files; congruence. }
  rewrite Hfile. do 2 f_equal.
  destruct (save_current_session_settings c3)
    as (Hd & Hm & Hx & Hp & Ha & _).
  unfold snapshot. now rewrite Hd, Hm, Hx, Hp, Ha.
Qed.

(** X14: when a round trip returns in a named session that is not temporary,
    the session file holds the session as it is in memory. *)
Theorem round_trip_is_saved message sender add_space c name :
  current_session c = Some name -> truthy name = true ->
  temp_session_var c = false ->
  let r := get_and_update_response PERSONALITIES provider unmark message
             sender add_space c in
  fst r = Returned ->
  files (snd r) !! session_path name = Some (JsonFile (snapshot (snd r))).
Proof. exact (round_trip_saved message sender add_space c name). Qed.

(** The settings a round trip leaves alone, and its files in a temporary
    session. *)
Lemma round_trip_settings message sender add_space c :
  let r := get_and_update_response PERSONALITIES provider unmark message
             sender add_space c in
  current_session (snd r) = current_session c /\
  temp_session_var (snd r) = temp_session_var c /\
  personality (snd r) = personality c /\
  (temp_session_var c = true -> files (snd r) = files c).
Proof.
  intros r. subst r.
  destruct (round_trip_shape message sender add_space c)
    as (c2 & sender' & receiver & response & -> & _ & Hset & _).
  destruct Hset as (_ & _ & Hp & _ & Hcur & Htmp & Hf).
  destruct (update_chat_display response sender' add_space c2)
    as [o c3] eqn:Hu.
  destruct (update_chat_display_frame _ _ _ _ _ _ Hu) as [Hs _].
  destruct Hs as (_ & _ & Hp3 & _ & Hcur3 & Htmp3 & _ & _ & Hf3).
  destruct o; simpl snd.
  - destruct (save_current_session_settings c3)
      as (_ & _ & _ & Hp4 & _ & Hcur4 & Htmp4 & _).
    repeat split; try congruence.
    intros Ht. unfold save_current_session.
    destruct (current_session c3) as [name|]; [|congruence].
    replace (temp_session_var c3) with true by congruence.
    rewrite andb_false_r. congruence.
  - repeat split; congruence.
Qed.

(** X16: with a personality (a key of ASCII text) that is not in the table
    no request is sent: the round trip stores the user turn and the
    placeholder and shows an error dialog with [repr] of the missing key,
    the text of the [KeyError]. *)
Theorem unknown_personality_sends_nothing message sender add_space c :
  truthy (personality c) = true ->
  isascii (personality c) = true ->
  lookup_personality (personality c) PERSONALITIES = None ->
  let r := get_and_update_response PERSONALITIES provider unmark message
             sender add_space c in
  requests (snd r) = requests c /\
  session_data (snd r)
  = session_data c ++ [Turn.mk USER message None;
                       Turn.mk SYSTEM (unmark PLACEHOLDER)
                         (Some (personality c))] /\
  popups (snd r)
  = popups c ++ [Popup "Error"
                   ("An error occurred: " +:+ repr (personality c)) true].
Proof.
  intros Ht _ Hl r. subst r.
  unfold get_and_update_response, get_response_from_chatgpt,
    create_completion_request.
  change (system_message PERSONALITIES
            (set_session_data
               (session_data c ++ [Turn.mk USER message None]) c))
    with (system_message PERSONALITIES c).
  unfold system_message. rewrite Ht, Hl.
  cbv beta iota zeta delta [provider_failed popup_info].
  match goal with |- context [update_chat_display ?m ?s ?a ?c0] =>
    destruct (update_chat_display m s a c0) as [o c3] eqn:Hu;
    destruct (update_chat_display_frame _ _ _ _ _ _ Hu) as [Hs Hd] end.
  destruct Hs as (_ & _ & _ & _ & _ & _ & Hpop & Hreq & _).
  simpl in Hd, Hpop, Hreq.
  destruct o; simpl snd.
  - destruct (save_current_session_frame c3) as (Hs4 & Hq4 & _).
    destruct (save_current_session_settings c3)
      as (_ & _ & _ & _ & _ & _ & _ & Hp4).
    rewrite Hs4, Hq4, Hp4, Hd, Hpop, Hreq, <- app_assoc. repeat split.
  - rewrite Hd, Hpop, Hreq, <- app_assoc. repeat split.
Qed.

(** X15: a round trip the provider fails leaves a store that "continue"
    refuses. *)
Theorem failed_round_trip_blocks_continue message sender add_space c :
  (forall rq, exists e, provider rq = inr e) ->
  let c1 := snd (get_and_update_response PERSONALITIES provider unmark
                   message sender add_space c) in
  rejected_with NotContinuable c1
    (continue_message PERSONALITIES provider unmark c1).
Proof.
  intros Hfail c1.
  assert (Hlast : exists response,
    last (session_data c1)
    = Some (Turn.mk SYSTEM response (Some (personality c)))).
  { subst c1. unfold get_and_update_response, get_response_from_chatgpt,
      create_completion_request.
    change (system_message PERSONALITIES
              (set_session_data
                 (session_data c ++ [Turn.mk USER message None]) c))
      with (system_message PERSONALITIES c).
    destruct (system_message PERSONALITIES c) as [sys | e].
    - match goal with |- context [provider ?rq] =>
        destruct (Hfail rq) as [e He]; rewrite He end.
      cbv beta iota zeta delta [provider_failed popup_info].
      match goal with |- context [update_chat_display ?m ?s ?a ?c0] =>
        destruct (update_chat_display m s a c0) as [o c3] eqn:Hu;
        destruct (update_chat_display_frame _ _ _ _ _ _ Hu) as [_ Hd] end.
      eexists. destruct o; simpl snd;
        rewrite ?(proj1 (save_current_session_settings c3)), Hd;
        simpl session_data; now rewrite last_snoc.
    - cbv beta iota zeta delta [provider_failed popup_info].
      match goal with |- context [update_chat_display ?m ?s ?a ?c0] =>
        destruct (update_chat_display m s a c0) as [o c3] eqn:Hu;
        destruct (update_chat_display_frame _ _ _ _ _ _ Hu) as [_ Hd] end.
      eexists. destruct o; simpl snd;
        rewrite ?(proj1 (save_current_session_settings c3)), Hd;
        simpl session_data; now rewrite last_snoc. }
  destruct Hlast as [response Hlast].
  rewrite (continue_not_continuable PERSONALITIES provider unmark c1 _ Hlast)
    by reflexivity.
  repeat split.
Qed.

(** X27: "continue" after a turn of the assistant, answered by the
    provider with a text that is blank once it is tidied: the display raises
    [IndexError]; the sentinel and the empty reply are in the store by then,
    and nothing is saved or shown. *)
Theorem continue_blank_reply_raises c sd sys text :
  last (session_data c) = Some sd -> Turn.role sd = ASSISTANT ->
  system_message PERSONALITIES c = inl sys ->
  provider (continue_request sys c) = inl text ->
  strip (unmark (strip (squeeze_nl (strip text)))) = "" ->
  let r := continue_message PERSONALITIES provider unmark c in
  fst r = Raised IndexError /\
  session_data (snd r)
  = session_data c
    ++ [Turn.mk USER CONTINUE None;
        Turn.mk ASSISTANT (unmark (strip (squeeze_nl (strip text))))
          (Some (personality c))] /\
  files (snd r) = files c /\
  chat_display (snd r) = chat_display c.
Proof.
  intros Hl Hr Hsys Hp Hblank r. subst r.
  unfold continue_message. rewrite Hl, Hr. simpl negb. cbv iota.
  simpl String.eqb. cbv iota.
  unfold get_and_update_response.
  rewrite (get_response_answered PERSONALITIES provider c sys text Hsys Hp).
  simpl str_in. cbv iota.
  unfold update_chat_display, format_chat_message.
  rewrite Hblank. simpl. rewrite <- app_assoc. repeat split.
Qed.

End Provider.

Lemma continue_blank_reply_raises_example :
  let c := set_current_session (Some "20250101120000")
             (set_session_data
                [Turn.mk USER "hi" None;
                 Turn.mk ASSISTANT "hello" (Some DEFAULT_PERSONALITY)] init) in
  let sd := Turn.mk ASSISTANT "hello" (Some DEFAULT_PERSONALITY) in
  let sys := SYSTEM_MESSAGE +:+ " Act according to your default behaviour." in
  let r := continue_message BUILTIN_PERSONALITIES (answering "  ") no_marks c in
  (last (session_data c) = Some sd /\ Turn.role sd = ASSISTANT /\
   system_message BUILTIN_PERSONALITIES c = inl sys /\
   answering "  " (continue_request sys c) = inl "  " /\
   strip (no_marks (strip (squeeze_nl (strip "  ")))) = "") /\
  fst r = Raised IndexError /\
  session_data (snd r)
  = session_data c
    ++ [Turn.mk USER CONTINUE None;
        Turn.mk ASSISTANT (no_marks (strip (squeeze_nl (strip "  "))))
          (Some (personality c))] /\
  files (snd r) = files c /\
  chat_display (snd r) = chat_display c.
Proof.
  split; [repeat split|].
  apply (continue_blank_reply_raises BUILTIN_PERSONALITIES (answering "  ")
           no_marks
           (set_current_session (Some "20250101120000")
              (set_session_data
                 [Turn.mk USER "hi" None;
                  Turn.mk ASSISTANT "hello" (Some DEFAULT_PERSONALITY)] init))
           (Turn.mk ASSISTANT "hello" (Some DEFAULT_PERSONALITY))
           (SYSTEM_MESSAGE +:+ " Act according to your default behaviour.")
           "  "); reflexivity.
Defined.

Lemma round_trip_is_saved_example :
  let r := get_and_update_response BUILTIN_PERSONALITIES (answering "hello")
             no_marks "hi" (Some ASSISTANT_NAME) false
             (set_current_session (Some "20250101120000") init) in
  (current_session (set_current_session (Some "20250101120000") init)
   = Some "20250101120000" /\
   truthy "20250101120000" = true /\
   temp_session_var (set_current_session (Some "20250101120000") init)
   = false /\ fst r = Returned) /\
  files (snd r) !! session_path "20250101120000"
  = Some (JsonFile (snapshot (snd r))).
Proof.
  split; [repeat split|].
  apply (round_trip_is_saved BUILTIN_PERSONALITIES (answering "hello")
           no_marks "hi" (Some ASSISTANT_NAME) false
           (set_current_session (Some "20250101120000") init)
           "20250101120000"); reflexivity.
Defined.

Lemma failed_round_trip_blocks_continue_example :
  let c1 := snd (get_and_update_response BUILTIN_PERSONALITIES
                   (failing "timeout") no_marks "hi" (Some ASSISTANT_NAME)
                   false init) in
  (forall rq, exists e, failing "timeout" rq = inr e) /\
  rejected_with NotContinuable c1
    (continue_message BUILTIN_PERSONALITIES (failing "timeout") no_marks c1).
Proof.
  assert (H : forall rq, exists e, failing "timeout" rq = inr e)
    by (intros rq; now exists "timeout").
  split; [exact H|].
  exact (failed_round_trip_blocks_continue BUILTIN_PERSONALITIES
           (failing "timeout") no_marks "hi" (Some ASSISTANT_NAME) false init
           H).
Defined.

Lemma unknown_personality_sends_nothing_example :
  let c := set_personality "the pirate's" init in
  let r := get_and_update_response BUILTIN_PERSONALITIES (answering "hello")
             no_marks "hi" (Some ASSISTANT_NAME) false c in
  (truthy (personality c) = true /\
   isascii (personality c) = true /\
   lookup_personality (personality c) BUILTIN_PERSONALITIES = None) /\
  requests (snd r) = requests c /\
  session_data (snd r)
  = session_data c ++ [Turn.mk USER "hi" None;
                       Turn.mk SYSTEM (no_marks PLACEHOLDER)
                         (Some (personality c))] /\
  popups (snd r)
  = popups c ++ [Popup "Error"
                   ("An error occurred: "
                    +:+ String DOUBLE_QUOTE
                          ("the pirate's" +:+ String DOUBLE_QUOTE ""))
                   true].
Proof.
  split; [repeat split|].
  apply (unknown_personality_sends_nothing BUILTIN_PERSONALITIES
           (answering "hello") no_marks "hi" (Some ASSISTANT_NAME) false
           (set_personality "the pirate's" init)); reflexivity.
Defined.

End RoundTrip.

(** ** Deleting and renaming a session *)

Module SessionFiles.
Import Const Py Props PyFacts Upd Path Session Commands PersistProps
  ExportProps MoreProps.

(** X17: a confirmed [delete_session] of a session whose file exists removes
    that file and no other, leaves no current session, and empties the store
    unless it is told to keep it. *)
Theorem delete_session_removes_file c name ask show keep confirmed content :
  current_session c = Some name -> truthy name = true ->
  ask = false \/ confirmed = true ->
  files c !! session_path name = Some content ->
  let c' := delete_session ask show keep confirmed c in
  files c' !! session_path name = None /\
  (forall p, p <> session_path name -> files c' !! p = files c !! p) /\
  current_session c' = None /\
  session_data c' = (if keep then session_data c else []).
Proof.
  intros Hn Ht Hconf Hf c'. subst c'. unfold delete_session.
  rewrite Hn, Ht.
  assert (Hc : negb (if ask then confirmed else true) = false).
  { destruct Hconf as [-> | ->]; [reflexivity | now destruct ask]. }
  rewrite Hc, Hf.
  destruct keep, show; simpl; repeat split;
    try apply lookup_delete_eq; intros p Hp; now apply lookup_delete_ne.
Qed.

Lemma delete_session_removes_file_example :
  let c := save_current_session greeting_session in
  let c' := delete_session true true false true c in
  (current_session c = Some "20250101120000" /\
   truthy "20250101120000" = true /\
   (true = false \/ true = true) /\
   files c !! session_path "20250101120000"
   = Some (JsonFile (snapshot greeting_session))) /\
  files c' !! session_path "20250101120000" = None /\
  (forall p, p <> session_path "20250101120000" ->
     files c' !! p = files c !! p) /\
  current_session c' = None /\
  session_data c' = (if false then session_data c else []).
Proof.
  assert (Hf : files (save_current_session greeting_session)
                 !! session_path "20250101120000"
               = Some (JsonFile (snapshot greeting_session)))
    by apply lookup_insert_eq.
  split; [split; [reflexivity | split; [reflexivity | split;
    [now right | exact Hf]]]|].
  apply (delete_session_removes_file (save_current_session greeting_session)
           "20250101120000" true true false true
           (JsonFile (snapshot greeting_session)));
    [reflexivity | reflexivity | now right | exact Hf].
Defined.

(** X18: a [delete_session] that is declined, or whose session file is missing,
    leaves the files, the store, the display and the current session as they
    are. *)
Theorem delete_session_keeps c name ask show keep confirmed :
  current_session c = Some name -> truthy name = true ->
  (ask = true /\ confirmed = false) \/ files c !! session_path name = None ->
  let c' := delete_session ask show keep confirmed c in
  files c' = files c /\ session_data c' = session_data c /\
  chat_display c' = chat_display c /\
  current_session c' = current_session c.
Proof.
  intros Hn Ht Hcase c'. subst c'. unfold delete_session. rewrite Hn, Ht.
  destruct Hcase as [[-> ->] | Hf].
  - simpl. now rewrite Hn.
  - rewrite Hf. destruct (negb (if ask then confirmed else true)), show;
      simpl; now rewrite ?Hn.
Qed.

Lemma delete_session_keeps_example :
  let c := greeting_session in
  let c' := delete_session false true false true c in
  (current_session c = Some "20250101120000" /\
   truthy "20250101120000" = true /\
   ((false = true /\ true = false) \/
    files c !! session_path "20250101120000" = None)) /\
  files c' = files c /\ session_data c' = session_data c /\
  chat_display c' = chat_display c /\
  current_session c' = current_session c.
Proof.
  split; [split; [reflexivity | split; [reflexivity | now right]]|].
  apply (delete_session_keeps greeting_session "20250101120000" false true
           false true); [reflexivity | reflexivity | now right].
Defined.

Lemma session_path_longer (label current : string) :
  session_path (label +:+ "_" +:+ current) <> session_path current.
Proof.
  intros H. apply (f_equal len) in H. unfold session_path in H.
  rewrite !len_append in H. change (len "_") with 1 in H.
  pose proof (len_nonneg label). lia.
Qed.

Section Rename.

Variable rename_error : bool -> string -> string -> string.

(** X19: [rename_session] of a session whose file exists, the name and the
    new label being of characters every file system takes and the new name
    not being that of a file already there (unless the original is kept, in
    which case such a file is overwritten): the session is current under the
    label, an underscore and its whole former name; the file of that name
    holds what the old file held; the old file is gone, or kept when
    [keep_original] is set; the store is as it was. *)
Theorem rename_session_moves c current label asked keep_original content :
  current_session c = Some current -> truthy current = true ->
  truthy label = true ->
  file_name_chars current = true -> file_name_chars label = true ->
  keep_original = true \/
  files c !! session_path (label_of label +:+ "_" +:+ current) = None ->
  files c !! session_path current = Some content ->
  let new_name := label_of label +:+ "_" +:+ current in
  let c' := rename_session rename_error (Some label) asked keep_original c in
  current_session c' = Some new_name /\
  files c' !! session_path new_name = Some content /\
  files c' !! session_path current
  = (if keep_original then Some content else None) /\
  session_data c' = session_data c.
Proof.
  intros Hn Ht Hl _ _ _ Hf new_name c'. subst c' new_name.
  unfold rename_session. rewrite Hn, Ht, Hl. cbv iota. rewrite Hl.
  simpl negb. cbv iota.
  rewrite Hf. destruct keep_original; simpl.
  - repeat split; [apply lookup_insert_eq|].
    rewrite lookup_insert_ne by apply session_path_longer. exact Hf.
  - repeat split; [apply lookup_insert_eq|].
    rewrite lookup_insert_ne by apply session_path_longer.
    apply lookup_delete_eq.
Qed.

(** X20: [rename_session] of a session that has no file (it was never saved):
    an error dialog, and the session keeps its name; no file is made. *)
Theorem rename_session_without_file c current label asked keep_original :
  current_session c = Some current -> truthy current = true ->
  truthy label = true ->
  files c !! session_path current = None ->
  let c' := rename_session rename_error (Some label) asked keep_original c in
  current_session c' = Some current /\ files c' = files c /\
  session_data c' = session_data c /\
  exists message, popups c' = popups c ++ [Popup "Error" message true].
Proof.
  intros Hn Ht Hl Hf c'. subst c'.
  unfold rename_session. rewrite Hn, Ht, Hl. cbv iota. rewrite Hl.
  simpl negb. cbv iota.
  rewrite Hf. simpl. repeat split; [exact Hn|]. eexists. reflexivity.
Qed.

End Rename.

Lemma rename_session_moves_example :
  let c := save_current_session greeting_session in
  let content := JsonFile (snapshot greeting_session) in
  let c' := rename_session (fun _ _ _ => "") (Some "My Chat") "" false c in
  (current_session c = Some "20250101120000" /\
   truthy "20250101120000" = true /\ truthy "My Chat" = true /\
   file_name_chars "20250101120000" = true /\
   file_name_chars "My Chat" = true /\
   files c !! session_path "my_chat_20250101120000" = None /\
   files c !! session_path "20250101120000" = Some content) /\
  current_session c' = Some "my_chat_20250101120000" /\
  files c' !! session_path "my_chat_20250101120000" = Some content /\
  files c' !! session_path "20250101120000" = None /\
  session_data c' = session_data c.
Proof.
  assert (Hf : files (save_current_session greeting_session)
                 !! session_path "20250101120000"
               = Some (JsonFile (snapshot greeting_session)))
    by apply lookup_insert_eq.
  assert (Hnew : files (save_current_session greeting_session)
                   !! session_path "my_chat_20250101120000" = None).
  { apply lookup_insert_None. split; [apply lookup_empty | discriminate]. }
  split;
    [split; [reflexivity|]; split; [reflexivity|]; split; [reflexivity|];
     split; [reflexivity|]; split; [reflexivity|]; split;
     [exact Hnew | exact Hf]|].
  apply (rename_session_moves (fun _ _ _ => "")
           (save_current_session greeting_session) "20250101120000"
           "My Chat" "" false (JsonFile (snapshot greeting_session)));
    [reflexivity | reflexivity | reflexivity | reflexivity | reflexivity
    | right; exact Hnew | exact Hf].
Defined.

Lemma rename_session_without_file_example :
  let c := greeting_session in
  let c' := rename_session (fun _ _ _ => "No such file") (Some "My Chat") ""
              true c in
  (current_session c = Some "20250101120000" /\
   truthy "20250101120000" = true /\ truthy "My Chat" = true /\
   files c !! session_path "20250101120000" = None) /\
  current_session c' = Some "20250101120000" /\ files c' = files c /\
  session_data c' = session_data c /\
  exists message, popups c' = popups c ++ [Popup "Error" message true].
Proof.
  split; [repeat split|].
  apply (rename_session_without_file (fun _ _ _ => "No such file")
           greeting_session "20250101120000" "My Chat" "" true);
    reflexivity.
Defined.

Lemma str_in_In (x : string) (l : list string) :
  str_in x l = true <-> In x l.
Proof.
  unfold str_in. rewrite existsb_exists. split.
  - intros [y [Hy He]]. apply String.eqb_eq in He. now subst.
  - intros H. exists x. split; [exact H | apply String.eqb_refl].
Qed.

(** X21: [font] returns the first preferred family that is installed, and the
    default when none is. *)
Theorem font_first_installed families skipped f rest default :
  (forall o, In o skipped -> ~ In o families) ->
  (In f families -> font families (skipped ++ f :: rest) default = f) /\
  font families skipped default = default.
Proof.
  intros Hskip. induction skipped as [|o skipped IH].
  - split; [|reflexivity]. intros Hin. apply str_in_In in Hin.
    simpl. now rewrite Hin.
  - assert (Ho : str_in o families = false).
    { destruct (str_in o families) eqn:E; [|reflexivity].
      apply str_in_In in E. destruct (Hskip o (or_introl eq_refl) E). }
    simpl. rewrite Ho. apply IH. intros o' Ho'. apply Hskip. now right.
Qed.

Lemma font_first_installed_example :
  let families := ["Arial"; "Consolas"; "Courier New"] in
  let skipped := ["Liberation Mono"; "Hack"; "DejaVu Sans Mono";
                  "Lucida Console"] in
  (forall o, In o skipped -> ~ In o families) /\
  (In "Consolas" families ->
   font families (skipped ++ "Consolas" :: ["Courier New"]) "TkFixedFont"
   = "Consolas") /\
  font families skipped "TkFixedFont" = "TkFixedFont".
Proof.
  assert (H : forall o,
    In o ["Liberation Mono"; "Hack"; "DejaVu Sans Mono"; "Lucida Console"] ->
    ~ In o ["Arial"; "Consolas"; "Courier New"]).
  { intros o Ho Hf. simpl in Ho, Hf.
    destruct Ho as [<- | [<- | [<- | [<- | []]]]];
      destruct Hf as [Hf | [Hf | [Hf | []]]]; discriminate. }
  split; [exact H|].
  exact (font_first_installed ["Arial"; "Consolas"; "Courier New"]
           ["Liberation Mono"; "Hack"; "DejaVu Sans Mono"; "Lucida Console"]
           "Consolas" ["Courier New"] "TkFixedFont" H).
Defined.

End SessionFiles.

(** ** Editing the last user message *)

Module Editing.
Import Const Py Props PyFacts Upd Path Session Commands PersistProps
  PersistFacts ExportProps ChatFacts MoreProps.

Section Edit.

Variable delete_chars_from_end : Z -> string -> string.

Lemma is_reply_sender sd :
  is_reply sd = true ->
  exists sender,
    ROLE_MAP (Turn.role sd) = Some sender /\
    truthy sender = true /\ String.eqb sender USER_NAME = false.
Proof.
  unfold is_reply, str_in. simpl existsb. rewrite orb_false_r.
  intros H. apply orb_true_iff in H.
  destruct H as [H | H]; apply String.eqb_eq in H; rewrite H.
  - exists ASSISTANT_NAME. now repeat split.
  - exists SYSTEM_NAME. now repeat split.
Qed.

Lemma format_with_sender c message sender :
  truthy sender = true ->
  exists shown, format_chat_message c message (Some sender) false = Some shown.
Proof.
  intros H. unfold format_chat_message. rewrite H.
  destruct (session_data c); eexists; reflexivity.
Qed.

Lemma pop_to_user_cons c sd below to_delete :
  pop_to_user c (sd :: below) to_delete
  = match ROLE_MAP (Turn.role sd) with
    | None => Popped (Raised KeyError) (rev below) to_delete ""
    | Some sender =>
        match format_chat_message (set_session_data (rev below) c)
                (Turn.content sd) (Some sender) false with
        | None => Popped (Raised IndexError) (rev below) to_delete ""
        | Some shown =>
            if String.eqb sender USER_NAME
            then Popped Returned (rev below) (to_delete + len shown)
                   (Turn.content sd)
            else pop_to_user c below (to_delete + len shown)
        end
    end.
Proof. reflexivity. Qed.

(** The loop passes over the turns of the assistant and of the system. *)
Lemma pop_replies c top : forall below to_delete,
  (forall sd, In sd top -> is_reply sd = true) ->
  exists to_delete',
    pop_to_user c (top ++ below) to_delete = pop_to_user c below to_delete'.
Proof.
  induction top as [|sd top IH]; intros below td H; [now exists td|].
  destruct (is_reply_sender sd (H sd (or_introl eq_refl)))
    as (sender & Hrole & Ht & Hu).
  destruct (format_with_sender (set_session_data (rev (top ++ below)) c)
              (Turn.content sd) sender Ht) as [shown Hshown].
  destruct (IH below (td + len shown)) as [td' Htd'].
  { intros sd' Hin. apply H. now right. }
  exists td'. simpl app. rewrite pop_to_user_cons.
  now rewrite Hrole, Hshown, Hu.
Qed.

(** The loop stops at a user turn, with the store below it. *)
Lemma pop_user c u below to_delete :
  Turn.role u = USER ->
  exists to_delete',
    pop_to_user c (u :: below) to_delete
    = Popped Returned (rev below) to_delete' (Turn.content u).
Proof.
  intros Hu. rewrite pop_to_user_cons.
  assert (Hr : ROLE_MAP (Turn.role u) = Some USER_NAME) by now rewrite Hu.
  rewrite Hr.
  destruct (format_with_sender (set_session_data (rev below) c)
              (Turn.content u) USER_NAME eq_refl) as [shown Hshown].
  rewrite Hshown. eexists. reflexivity.
Qed.

(** X22: [edit_last_message] takes the last user turn and all that follows it
    out of the store, hands the content of that turn to the input box, and
    saves what is left. *)
Theorem edit_last_message_truncates c pre u post :
  session_data c = pre ++ u :: post ->
  Turn.role u = USER -> truthy (Turn.content u) = true ->
  forallb is_reply post = true ->
  let r := edit_last_message delete_chars_from_end c in
  fst (fst r) = Returned /\
  session_data (snd (fst r)) = pre /\
  snd r = Some (Turn.content u) /\
  (forall name, current_session c = Some name -> truthy name = true ->
     temp_session_var c = false ->
     files (snd (fst r)) !! session_path name
     = Some (JsonFile (snapshot (set_session_data pre c)))).
Proof.
  intros Hsd Hu Hcontent Hpost r. subst r. unfold edit_last_message.
  destruct (session_data c) as [|x l] eqn:E; [destruct pre; discriminate|].
  rewrite Hsd. clear E Hsd x l.
  rewrite rev_app_distr. simpl rev. rewrite <- app_assoc. simpl app.
  destruct (pop_replies c (rev post) (u :: rev pre) 0) as [td Htd].
  { intros sd Hin. apply in_rev in Hin.
    rewrite forallb_forall in Hpost. now apply Hpost. }
  destruct (pop_user c u (rev pre) td Hu) as [td' Htd'].
  rewrite Htd, Htd'. simpl pop_outcome. simpl pop_store.
  simpl last_user_message. rewrite Hcontent. simpl negb. cbv iota.
  rewrite rev_involutive. simpl.
  destruct (save_current_session_frame (set_session_data pre c))
    as (Hs & _ & _).
  repeat split; [exact Hs|].
  intros name Hn Ht Htemp.
  apply (save_current_session_files (set_session_data pre c) name);
    assumption.
Qed.

(** X23: on a store without a user turn [edit_last_message] takes every turn
    out and then returns: nothing is saved, shown or handed to the input
    box. *)
Theorem edit_last_message_without_user c :
  session_data c <> [] ->
  forallb is_reply (session_data c) = true ->
  edit_last_message delete_chars_from_end c
  = (Returned, set_session_data [] c, None).
Proof.
  intros Hne Hall. unfold edit_last_message.
  destruct (session_data c) as [|x l] eqn:E; [contradiction|].
  rewrite <- E in *. clear E x l Hne.
  destruct (pop_replies c (rev (session_data c)) [] 0) as [td Htd].
  { intros sd Hin. apply in_rev in Hin.
    rewrite forallb_forall in Hall. now apply Hall. }
  rewrite app_nil_r in Htd. rewrite Htd. reflexivity.
Qed.

End Edit.

Lemma edit_last_message_truncates_example :
  let c := set_session_data
             [Turn.mk USER "hi" None;
              Turn.mk ASSISTANT "hello" (Some DEFAULT_PERSONALITY);
              Turn.mk ASSISTANT "more" (Some DEFAULT_PERSONALITY)] init in
  let u := Turn.mk USER "hi" None in
  let post := [Turn.mk ASSISTANT "hello" (Some DEFAULT_PERSONALITY);
               Turn.mk ASSISTANT "more" (Some DEFAULT_PERSONALITY)] in
  let r := edit_last_message (fun _ s => s) c in
  (session_data c = [] ++ u :: post /\
   Turn.role u = USER /\ truthy (Turn.content u) = true /\
   forallb is_reply post = true) /\
  fst (fst r) = Returned /\
  session_data (snd (fst r)) = [] /\
  snd r = Some (Turn.content u) /\
  (forall name, current_session c = Some name -> truthy name = true ->
     temp_session_var c = false ->
     files (snd (fst r)) !! session_path name
     = Some (JsonFile (snapshot (set_session_data [] c)))).
Proof.
  split; [repeat split|].
  apply (edit_last_message_truncates (fun _ s => s)
           (set_session_data
              [Turn.mk USER "hi" None;
               Turn.mk ASSISTANT "hello" (Some DEFAULT_PERSONALITY);
               Turn.mk ASSISTANT "more" (Some DEFAULT_PERSONALITY)] init)
           [] (Turn.mk USER "hi" None)
           [Turn.mk ASSISTANT "hello" (Some DEFAULT_PERSONALITY);
            Turn.mk ASSISTANT "more" (Some DEFAULT_PERSONALITY)]);
    reflexivity.
Defined.

Lemma edit_last_message_without_user_example :
  let c := set_session_data
             [Turn.mk SYSTEM PLACEHOLDER (Some DEFAULT_PERSONALITY)]
             greeting_session in
  (session_data c <> [] /\ forallb is_reply (session_data c) = true) /\
  edit_last_message (fun _ s => s) c
  = (Returned, set_session_data [] c, None).
Proof.
  split; [split; [discriminate | reflexivity]|].
  apply edit_last_message_without_user; [discriminate | reflexivity].
Defined.

End Editing.

(** ** Sending a message *)

Module SendFacts.
Import Const Py Props PyFacts Upd Path Session Exporting Chat Commands Sending
  ChatProps PersistProps PersistFacts ChatFacts MoreProps RoundTrip.

Section Send.

Variable PERSONALITIES : list (string * string).
Variable provider : request -> string + string.
Variable unmark : string -> string.

Lemma delete_session_files ask show keep confirmed c :
  files (delete_session ask show keep confirmed c) ⊆ files c /\
  temp_session_var (delete_session ask show keep confirmed c)
  = temp_session_var c.
Proof.
  unfold delete_session.
  destruct (current_session c) as [name|]; [|now split].
  destruct (truthy name); [|now split].
  destruct (negb (if ask then confirmed else true)); [now split|].
  destruct (files c !! session_path name);
    destruct keep, show; simpl; split;
    try reflexivity; apply delete_subseteq.
Qed.

Lemma continue_message_files c :
  temp_session_var c = true ->
  files (snd (continue_message PERSONALITIES provider unmark c)) = files c.
Proof.
  intros Ht. unfold continue_message.
  destruct (last (session_data c)) as [sd|]; [|reflexivity].
  destruct (negb (str_in (Turn.role sd) [ASSISTANT; USER])); [reflexivity|].
  destruct (String.eqb (Turn.role sd) ASSISTANT);
    now apply round_trip_settings.
Qed.

Lemma show_user_message message c :
  exists shown,
    update_chat_display message (Some USER_NAME) false c
    = (Returned, set_chat_display (chat_display c +:+ shown) c).
Proof.
  unfold update_chat_display, format_chat_message. simpl truthy. cbv iota.
  destruct (session_data c); eexists; reflexivity.
Qed.

(** X24: in a temporary session sending a message writes no file and changes
    none; at most the file of a session that was current is removed. *)
Theorem temporary_session_writes_nothing typed w c :
  temp_session_var c = true ->
  files (snd (send_message PERSONALITIES provider unmark typed w c))
  ⊆ files c.
Proof.
  intros Ht. unfold send_message.
  destruct (negb (truthy (strip typed)) || String.eqb (strip typed) CONTINUE).
  - now rewrite continue_message_files.
  - rewrite Ht.
    set (c1 := match current_session c with
               | Some _ => delete_session false false true true c
               | None => c
               end).
    assert (Hc1 : files c1 ⊆ files c /\ temp_session_var c1 = true).
    { subst c1. destruct (current_session c); [|now split].
      destruct (delete_session_files false false true true c) as [Hf Htmp].
      split; [exact Hf | congruence]. }
    destruct Hc1 as [Hf1 Ht1].
    replace (match current_session c with
             | Some _ => (Returned, delete_session false false true true c)
             | None => (Returned, c)
             end) with (Returned, c1)
      by (subst c1; now destruct (current_session c)).
    destruct (show_user_message (strip typed) c1) as [shown ->].
    destruct (round_trip_settings PERSONALITIES provider unmark (strip typed)
                (Some ASSISTANT_NAME) false
                (set_chat_display (chat_display c1 +:+ shown) c1))
      as (_ & _ & _ & Hfiles).
    rewrite Hfiles by exact Ht1. exact Hf1.
Qed.

(** X25: the first message (of ASCII text) of a client that has no session
    and is not in temporary mode starts a session named by the clock under
    the personality chosen in the dialog, appends the message and the answer
    to the store, and, when it returns, has saved the session. *)
Theorem first_message_starts_session typed w c :
  current_session c = None -> temp_session_var c = false ->
  isascii typed = true ->
  truthy (strip typed) = true -> strip typed <> CONTINUE ->
  truthy (selected w) = true -> selected w <> RANDOM ->
  truthy (now w) = true ->
  let r := send_message PERSONALITIES provider unmark typed w c in
  current_session (snd r) = Some (now w) /\
  personality (snd r) = selected w /\
  (exists receiver response,
     session_data (snd r)
     = session_data c ++ [Turn.mk USER (strip typed) None;
                          Turn.mk receiver response (Some (selected w))]) /\
  (fst r = Returned ->
   files (snd r) !! session_path (now w)
   = Some (JsonFile (snapshot (snd r)))).
Proof.
  intros Hcur Htemp _ Hmsg Hnc Hsel Hnr Hnow r. subst r.
  unfold send_message. rewrite Hmsg.
  apply String.eqb_neq in Hnc, Hnr. rewrite Hnc. simpl orb. cbv iota.
  rewrite Htemp, Hcur. unfold new_session. rewrite Hsel, Hnr.
  cbv beta iota zeta.
  set (c1 := delete_from_chat_end_all _).
  destruct (show_user_message (strip typed) c1) as [shown ->].
  set (c2 := set_chat_display _ c1).
  destruct (round_trip_settings PERSONALITIES provider unmark (strip typed)
              (Some ASSISTANT_NAME) false c2) as (Hc & _ & Hp & _).
  destruct (round_trip_store PERSONALITIES provider unmark (strip typed)
              (Some ASSISTANT_NAME) false c2)
    as (receiver & response & Hsd & _).
  pose proof (round_trip_saved PERSONALITIES provider unmark (strip typed)
                (Some ASSISTANT_NAME) false c2 (now w) eq_refl Hnow Htemp)
    as Hsaved.
  cbv zeta in Hc, Hp, Hsaved.
  split; [now rewrite Hc|]. split; [now rewrite Hp|].
  split; [|exact Hsaved].
  exists receiver, response. now rewrite Hsd.
Qed.

End Send.

Lemma temporary_session_writes_nothing_example :
  let c := Client "gpt-4o-mini" 150 DEFAULT_PERSONALITY "" None true [] "" [] []
             {[ "notes.txt" := TextFile "kept" ]} in
  temp_session_var c = true /\
  files (snd (send_message BUILTIN_PERSONALITIES (answering "hello") no_marks
                "hi" (Outside "20250101120000" DEFAULT_PERSONALITY "bored") c))
  ⊆ files c.
Proof.
  split; [reflexivity|].
  apply temporary_session_writes_nothing. reflexivity.
Defined.

Lemma first_message_starts_session_example :
  let w := Outside "20250101120000" "bored" DEFAULT_PERSONALITY in
  let r := send_message BUILTIN_PERSONALITIES (answering "hello") no_marks
             " hi " w init in
  (current_session init = None /\ temp_session_var init = false /\
   isascii " hi " = true /\
   truthy (strip " hi ") = true /\ strip " hi " <> CONTINUE /\
   truthy (selected w) = true /\ selected w <> RANDOM /\
   truthy (now w) = true) /\
  current_session (snd r) = Some (now w) /\
  personality (snd r) = selected w /\
  (exists receiver response,
     session_data (snd r)
     = session_data init ++ [Turn.mk USER (strip " hi ") None;
                          Turn.mk receiver response (Some (selected w))]) /\
  (fst r = Returned ->
   files (snd r) !! session_path (now w)
   = Some (JsonFile (snapshot (snd r)))).
Proof.
  split; [repeat split; discriminate|].
  apply (first_message_starts_session BUILTIN_PERSONALITIES
           (answering "hello") no_marks " hi "
           (Outside "20250101120000" "bored" DEFAULT_PERSONALITY) init);
    (reflexivity || discriminate).
Defined.

End SendFacts.

(** ** Session labels *)

Module Labels.
Import Const Py Props PyFacts Commands.

Lemma lower_char_not_blank (ch : ascii) :
  Ascii.eqb (lower_char ch) " "%char = Ascii.eqb ch " "%char.
Proof.
  destruct ch as [[] [] [] [] [] [] [] []]; reflexivity.
Qed.

Lemma lower_char_not_upper (ch : ascii) :
  let n := nat_of_ascii (lower_char ch) in
  Nat.leb 65 n && Nat.leb n 90 = false.
Proof.
  destruct ch as [[] [] [] [] [] [] [] []]; reflexivity.
Qed.

(** X26: the label [new_session] and [rename_session] make of a name of
    ASCII text, [name.lower().replace(" ", "_")], is as long as the name and
    holds neither a blank nor an upper-case letter. *)
Theorem label_of_is_clean (name : string) :
  isascii name = true ->
  len (label_of name) = len name /\
  all_chars (fun ch =>
               negb (Ascii.eqb ch " "%char)
               && negb (Nat.leb 65 (nat_of_ascii ch)
                        && Nat.leb (nat_of_ascii ch) 90))
    (label_of name) = true.
Proof.
  unfold label_of.
  set (p := fun ch : ascii =>
              negb (Ascii.eqb ch " "%char)
              && negb (Nat.leb 65 (nat_of_ascii ch)
                       && Nat.leb (nat_of_ascii ch) 90)).
  intros _. induction name as [|ch name [IHl IHc]]; [now split|].
  change (underscore_blanks (lower (String ch name)))
    with (String (if Ascii.eqb (lower_char ch) " "%char then "_"%char
                  else lower_char ch)
            (underscore_blanks (lower name))).
  split.
  - rewrite !len_String. now rewrite IHl.
  - change (all_chars p (String ?x ?r)) with (p x && all_chars p r).
    rewrite IHc, andb_true_r. unfold p.
    pose proof (lower_char_not_upper ch) as Hup. cbv zeta in Hup.
    destruct (Ascii.eqb (lower_char ch) " "%char) eqn:E; [reflexivity|].
    now rewrite E, Hup.
Qed.

Lemma label_of_is_clean_example :
  isascii "My Chat 2" = true /\
  label_of "My Chat 2" = "my_chat_2" /\
  len (label_of "My Chat 2") = len "My Chat 2" /\
  all_chars (fun ch =>
               negb (Ascii.eqb ch " "%char)
               && negb (Nat.leb 65 (nat_of_ascii ch)
                        && Nat.leb (nat_of_ascii ch) 90))
    (label_of "My Chat 2") = true.
Proof.
  split; [reflexivity|]. split; [reflexivity|].
  exact (label_of_is_clean "My Chat 2" eq_refl).
Defined.

End Labels.
